(** * nnsvs post-filters: a shallow embedding of [nnsvs/postfilters.py]

    The development follows the Python module class by class.  Tensors are
    nested lists over an abstract scalar type (the float operations of
    PyTorch are kept uninterpreted), Python integers are [Z], Python slices
    keep their clamping and negative-index rules, exceptions are an explicit
    [result] type and the random number generator is a state that is
    threaded through every forward pass. *)

From Stdlib Require Import String.
From Stdlib Require Import List ZArith Lia Bool Arith.
Import ListNotations.

Set Implicit Arguments.

(** ** Exceptions and results *)

Inductive exn : Type :=
| ValueError (msg : string)
| AssertionError (msg : string)
| RuntimeError (msg : string)
| TypeError (msg : string)
| UnboundLocalError (var : string).

Inductive result (A : Type) : Type :=
| Ok (a : A)
| Raise (e : exn).

Arguments Ok {A} a.
Arguments Raise {A} e.

Definition rbind {A B} (r : result A) (k : A -> result B) : result B :=
  match r with
  | Ok a => k a
  | Raise e => Raise e
  end.

Definition py_assert (b : bool) (msg : string) : result unit :=
  if b then Ok tt else Raise (AssertionError msg).

Declare Scope result_scope.
Delimit Scope result_scope with result.
Notation "x <- c ;; k" := (rbind c (fun x => k))
  (at level 61, c at next level, right associativity) : result_scope.
Notation "c ;;; k" := (rbind c (fun _ => k))
  (at level 61, right associativity) : result_scope.

(** Strict map and zip: the first exception wins, and zipping lists of
    different lengths is the size-mismatch [RuntimeError] of PyTorch. *)

Fixpoint mapR {A B} (f : A -> result B) (l : list A) : result (list B) :=
  match l with
  | [] => Ok []
  | a :: l' =>
      match f a with
      | Ok b => match mapR f l' with
                | Ok bs => Ok (b :: bs)
                | Raise e => Raise e
                end
      | Raise e => Raise e
      end
  end.

Definition size_mismatch : exn :=
  RuntimeError "Sizes of tensors must match".

Fixpoint zipR {A B C} (f : A -> B -> result C) (la : list A) (lb : list B)
  : result (list C) :=
  match la, lb with
  | [], [] => Ok []
  | a :: la', b :: lb' =>
      match f a b with
      | Ok c => match zipR f la' lb' with
                | Ok cs => Ok (c :: cs)
                | Raise e => Raise e
                end
      | Raise e => Raise e
      end
  | _, _ => Raise size_mismatch
  end.

(** Broadcasting zip along one axis: equal sizes pair up, a size-one axis
    is repeated, anything else is an error. *)
Definition bzipR {A B C} (f : A -> B -> result C) (la : list A) (lb : list B)
  : result (list C) :=
  if Nat.eqb (length la) (length lb) then zipR f la lb
  else match la, lb with
       | [a], _ => mapR (f a) lb
       | _, [b] => mapR (fun a => f a b) la
       | _, _ => Raise size_mismatch
       end.

(** ** Python slicing *)

(** [l[start:stop]] with step one: a negative bound counts from the end,
    and every bound is clamped to the list. *)
Definition py_bound (n : nat) (i : Z) : nat :=
  if (i <? 0)%Z then Z.to_nat (Z.max 0 (i + Z.of_nat n))
  else Nat.min n (Z.to_nat i).

Definition py_slice {A} (start stop : option Z) (l : list A) : list A :=
  let n := length l in
  let a := match start with Some i => py_bound n i | None => 0 end in
  let b := match stop with Some i => py_bound n i | None => n end in
  firstn (b - a) (skipn a l).

(** ** The interfaces of scalars and of the random source *)

Class Scalar (F : Type) : Type := {
  fzero : F;
  fadd : F -> F -> F;
  fmul : F -> F -> F;
  frelu : F -> F;
  fsigmoid : F -> F
}.

(** One standard-normal draw of [torch.randn]. *)
Class RandomSource (G F : Type) : Type := {
  randn : G -> F * G
}.

(** A forward pass: a computation that may raise and that advances the
    generator. *)
Definition M (G A : Type) : Type := G -> result (A * G).

Definition ret {G A} (a : A) : M G A := fun g => Ok (a, g).

Definition bind {G A B} (m : M G A) (k : A -> M G B) : M G B :=
  fun g => match m g with
           | Ok (a, g') => k a g'
           | Raise e => Raise e
           end.

Definition lift {G A} (r : result A) : M G A :=
  fun g => match r with
           | Ok a => Ok (a, g)
           | Raise e => Raise e
           end.

(** What the caller of a forward pass observes. *)
Definition output {G A} (r : result (A * G)) : result A :=
  match r with
  | Ok (a, _) => Ok a
  | Raise e => Raise e
  end.

Declare Scope fwd_scope.
Delimit Scope fwd_scope with fwd.
Notation "x <~ c ;; k" := (bind c (fun x => k))
  (at level 61, c at next level, right associativity) : fwd_scope.

(** ** Tensors *)

Section Tensors.
Context {F : Type}.

Definition tensor1 : Type := list F.
Definition tensor2 : Type := list tensor1.
Definition tensor3 : Type := list tensor2.
Definition tensor4 : Type := list tensor3.

(** All rows of a matrix have width [w]. *)
Definition rows_of_width (w : nat) (m : tensor2) : Prop :=
  Forall (fun r => length r = w) m.

Definition shape2 (h w : nat) (m : tensor2) : Prop :=
  length m = h /\ rows_of_width w m.

Definition shape3 (b h w : nat) (x : tensor3) : Prop :=
  length x = b /\ Forall (shape2 h w) x.

Definition shape4 (b c h w : nat) (x : tensor4) : Prop :=
  length x = b /\ Forall (shape3 c h w) x.

(** [x[:, :, start:stop]] *)
Definition slice_last3 (start stop : option Z) (x : tensor3) : tensor3 :=
  map (map (py_slice start stop)) x.

(** [x[:, :, :, start:stop]] *)
Definition slice_last4 (start stop : option Z) (x : tensor4) : tensor4 :=
  map (slice_last3 start stop) x.

(** [torch.cat([a, b], dim=-1)] on three axes. *)
Definition cat_last2 (a b : tensor3) : result tensor3 :=
  zipR (zipR (fun r s => Ok (r ++ s))) a b.

(** [torch.cat(ts, dim=-1)] *)
Fixpoint cat_last (ts : list tensor3) : result tensor3 :=
  match ts with
  | [] => Raise (RuntimeError "torch.cat(): expected a non-empty list of Tensors")
  | [t] => Ok t
  | t :: ts' => rbind (cat_last ts') (cat_last2 t)
  end.

(** [m.transpose(0, 1)] of a matrix: column [j] collects entry [j] of
    every row; the width is read off the first row. *)
Definition column (j : nat) (m : tensor2) : tensor1 :=
  flat_map (fun r => match nth_error r j with
                     | Some a => [a]
                     | None => []
                     end) m.

Definition transpose2 (m : tensor2) : tensor2 :=
  map (fun j => column j m) (seq 0 (length (hd [] m))).

(** [x.transpose(1, 2)] on three axes. *)
Definition transpose12 (x : tensor3) : tensor3 := map transpose2 x.

(** [x.unsqueeze(1)] and [x.squeeze(1)] between three and four axes.
    [squeeze] only drops an axis of size one. *)
Definition unsqueeze1 (x : tensor3) : tensor4 := map (fun m => [m]) x.

Definition squeeze1 (x : tensor4) : result tensor3 :=
  mapR (fun cs => match cs with
                  | [m] => Ok m
                  | _ => Raise (RuntimeError "squeeze(1): the axis is kept, the result has four axes")
                  end) x.
End Tensors.

(** ** [MultistreamPostFilter] *)

Section Multistream.
Context {F G : Type}.

Local Abbreviation tensor3 := (@tensor3 F).

(** A callable [nn.Module] used as a post-filter: [module(x, lengths)]. *)
Definition postfilter : Type := tensor3 -> option (list Z) -> M G tensor3.

(** Modelled from the spec: [split_streams] of [nnsvs.multistream] (the
    stream layout of the data model: an ordered list of channel-group
    sizes that partitions the channel axis into consecutive streams).
    Stream [i] is [x[:, :, start_i : start_i + size_i]] where [start_i]
    is the sum of the sizes before it. *)
Fixpoint split_streams_from (start : Z) (x : tensor3) (sizes : list Z)
  : list tensor3 :=
  match sizes with
  | [] => []
  | size :: rest =>
      slice_last3 (Some start) (Some (start + size)%Z) x
        :: split_streams_from (start + size)%Z x rest
  end.

Definition split_streams (x : tensor3) (sizes : list Z) : list tensor3 :=
  split_streams_from 0%Z x sizes.

Record MultistreamPostFilter : Type := {
  mgc_postfilter : option postfilter;
  bap_postfilter : option postfilter;
  lf0_postfilter : option postfilter;
  stream_sizes : list Z;
  mgc_offset : Z;
  bap_offset : Z
}.

(** Reading a local name that no assignment has bound yet. *)
Definition read_local {A} (name : string) (v : option A) : result A :=
  match v with
  | Some a => Ok a
  | None => Raise (UnboundLocalError name)
  end.

(** The tuple assignments of [forward].  The locals [vib] and
    [vib_flags] are bound by the six-stream line only; the five-stream
    line [mgc, lf0, vuv, bap, vuv = streams] binds [vuv] twice, so [vuv]
    ends as the fifth stream and [vib] stays unbound. *)
Definition unpack_streams (streams : list tensor3)
  : result (tensor3 * tensor3 * tensor3 * tensor3
            * option tensor3 * option tensor3) :=
  match streams with
  | [mgc; lf0; vuv; bap] => Ok (mgc, lf0, vuv, bap, None, None)
  | [mgc; lf0; _; bap; vuv] => Ok (mgc, lf0, vuv, bap, None, None)
  | [mgc; lf0; vuv; bap; vib; vib_flags] =>
      Ok (mgc, lf0, vuv, bap, Some vib, Some vib_flags)
  | _ => Raise (ValueError "Invalid number of streams")
  end.

Definition MultistreamPostFilter_forward (self : MultistreamPostFilter)
    (x : tensor3) (lengths : option (list Z)) : M G tensor3 :=
  let streams := split_streams x (stream_sizes self) in
  match unpack_streams streams with
  | Raise e => lift (Raise e)
  | Ok (mgc, lf0, vuv, bap, vib, vib_flags) =>
      (mgc <~ match mgc_postfilter self with
              | Some pf =>
                  if (0 <? mgc_offset self)%Z then
                    let mgc0 := slice_last3 None (Some (mgc_offset self)) mgc in
                    mgc_pf <~ pf (slice_last3 (Some (mgc_offset self)) None mgc)
                                 lengths ;;
                    lift (cat_last [mgc0; mgc_pf])
                  else pf mgc lengths
              | None => ret mgc
              end ;;
       bap <~ match bap_postfilter self with
              | Some pf =>
                  if (0 <? bap_offset self)%Z then
                    let bap0 := slice_last3 None (Some (bap_offset self)) bap in
                    bap_pf <~ pf (slice_last3 (Some (bap_offset self)) None bap)
                                 lengths ;;
                    lift (cat_last [bap0; bap_pf])
                  else pf bap lengths
              | None => ret bap
              end ;;
       lf0 <~ match lf0_postfilter self with
              | Some pf => pf lf0 lengths
              | None => ret lf0
              end ;;
       match length streams with
       | 4 => lift (cat_last [mgc; lf0; vuv; bap])
       | 5 => lift (vib <- read_local "vib" vib ;;
                    cat_last [mgc; lf0; vuv; bap; vib])%result
       | 6 => lift (vib <- read_local "vib" vib ;;
                    vib_flags <- read_local "vib_flags" vib_flags ;;
                    cat_last [mgc; lf0; vuv; bap; vib; vib_flags])%result
       | _ => lift (Raise (UnboundLocalError "out"))
       end)%fwd
  end.
End Multistream.

(** ** Element-wise operations and random tensors *)

Section Elementwise.
Context {F : Type} {SF : Scalar F}.

Local Abbreviation tensor2 := (@tensor2 F).
Local Abbreviation tensor3 := (@tensor3 F).
Local Abbreviation tensor4 := (@tensor4 F).

Definition fsum (l : list F) : F := fold_left fadd l fzero.

(** [x * s] for a Python float [s]. *)
Definition scale3 (x : tensor3) (s : F) : tensor3 :=
  map (map (map (fun a => fmul a s))) x.

Definition scale4 (x : tensor4) (s : F) : tensor4 :=
  map (fun t => scale3 t s) x.

Definition relu3 (x : tensor3) : tensor3 := map (map (map frelu)) x.
Definition relu4 (x : tensor4) : tensor4 := map relu3 x.

(** [torch.sigmoid] *)
Definition sigmoid3 (x : tensor3) : tensor3 := map (map (map fsigmoid)) x.

(** [a * b] and [a + b] on tensors, with broadcasting on every axis. *)
Definition mul3 (a b : tensor3) : result tensor3 :=
  bzipR (bzipR (bzipR (fun u v => Ok (fmul u v)))) a b.

Definition add3 (a b : tensor3) : result tensor3 :=
  bzipR (bzipR (bzipR (fun u v => Ok (fadd u v)))) a b.

Definition add4 (a b : tensor4) : result tensor4 :=
  bzipR add3 a b.

(** The size of the last axis, and of the axis before it. *)
Definition width2 (m : tensor2) : nat := length (hd [] m).
Definition height3 (x : tensor3) : nat := length (hd [] x).
Definition width3 (x : tensor3) : nat := width2 (hd [] x).

Definition dims2 (m : tensor2) : nat * nat := (length m, width2 m).

Definition dims_eqb (p q : nat * nat) : bool :=
  Nat.eqb (fst p) (fst q) && Nat.eqb (snd p) (snd q).

Definition same_length (ls : tensor2) : bool :=
  match ls with
  | [] => true
  | r :: rs => forallb (fun s => Nat.eqb (length s) (length r)) rs
  end.

Definition same_dims (ms : tensor3) : bool :=
  match ms with
  | [] => true
  | m :: rest => forallb (fun n => dims_eqb (dims2 n) (dims2 m)) rest
  end.

(** [torch.cat([a, b], dim=1)] on three axes (batch, channel, time):
    the channel lists are appended, every other axis must agree. *)
Definition cat_channels3 (a b : tensor3) : result tensor3 :=
  zipR (fun ca cb => if same_length (ca ++ cb) then Ok (ca ++ cb)
                     else Raise size_mismatch) a b.

(** [torch.cat([a, b], dim=1)] on four axes (batch, channel, time, bin). *)
Definition cat_channels4 (a b : tensor4) : result tensor4 :=
  zipR (fun ca cb => if same_dims (ca ++ cb) then Ok (ca ++ cb)
                     else Raise size_mismatch) a b.
End Elementwise.

Section RandomTensors.
Context {F G : Type} {RS : RandomSource G F}.

(** [n] successive draws. *)
Fixpoint draw_n {A} (draw : G -> A * G) (n : nat) (g : G) : list A * G :=
  match n with
  | O => ([], g)
  | S n' =>
      let (a, g1) := draw g in
      let (l, g2) := draw_n draw n' g1 in
      (a :: l, g2)
  end.

(** [torch.randn(b, t, c)] *)
Definition randn3 (b t c : nat) : G -> @tensor3 F * G :=
  draw_n (draw_n (draw_n randn c) t) b.

(** [torch.randn(b, c, h, w)] *)
Definition randn4 (b c h w : nat) : G -> @tensor4 F * G :=
  draw_n (randn3 c h w) b.

(** One draw per element of a list, keeping its structure. *)
Fixpoint draw_like {A B} (draw : A -> G -> B * G) (l : list A) (g : G)
  : list B * G :=
  match l with
  | [] => ([], g)
  | a :: l' =>
      let (b, g1) := draw a g in
      let (bs, g2) := draw_like draw l' g1 in
      (b :: bs, g2)
  end.

(** [torch.randn_like(x)] *)
Definition randn_like3 (x : @tensor3 F) : G -> @tensor3 F * G :=
  draw_like (draw_like (draw_like (fun _ => randn))) x.

Definition randn_like4 (x : @tensor4 F) : G -> @tensor4 F * G :=
  draw_like randn_like3 x.

(** A draw as a step of a forward pass. *)
Definition sample {A} (draw : G -> A * G) : M G A :=
  fun g => Ok (draw g).
End RandomTensors.

(** ** Padding *)

Inductive padding_mode : Type := Zeros | Reflect | Replicate | Circular.

Definition parse_padding_mode (s : string) : result padding_mode :=
  if String.eqb s "zeros" then Ok Zeros
  else if String.eqb s "reflect" then Ok Reflect
  else if String.eqb s "replicate" then Ok Replicate
  else if String.eqb s "circular" then Ok Circular
  else Raise (ValueError "padding_mode must be one of zeros, reflect, replicate, circular").

Section Padding.
Context {A : Type}.

(** Reflection without repeating the edge: [l] mirrored entries before
    the list and [r] after it; both must be smaller than the axis. *)
Definition reflect_pad (l r : nat) (xs : list A) : result (list A) :=
  if Nat.ltb l (length xs) && Nat.ltb r (length xs) then
    Ok (rev (firstn l (tl xs)) ++ xs ++ firstn r (tl (rev xs)))
  else Raise (RuntimeError "Padding size should be less than the corresponding input dimension").

(** Padding of one axis by [l] entries before and [r] after, for the
    four padding modes of [torch.nn.functional.pad]; [zero] fills in
    the constant mode. *)
Definition pad_axis (mode : padding_mode) (l r : nat) (zero : A)
    (xs : list A) : result (list A) :=
  match mode with
  | Zeros => Ok (repeat zero l ++ xs ++ repeat zero r)
  | Reflect => reflect_pad l r xs
  | Replicate =>
      match xs with
      | [] => Raise (RuntimeError "replication padding of an empty axis")
      | x0 :: _ => Ok (repeat x0 l ++ xs ++ repeat (last xs x0) r)
      end
  | Circular =>
      if Nat.leb l (length xs) && Nat.leb r (length xs) then
        Ok (skipn (length xs - l) xs ++ xs ++ firstn r xs)
      else Raise (RuntimeError "Padding value causes wrapping around more than once")
  end.
End Padding.

Section Padding2d.
Context {F : Type} {SF : Scalar F}.

(** Padding of a (time, bin) surface: [pl], [pr] on the last axis and
    [pt], [pb] on the axis before it. *)
Definition pad2d (mode : padding_mode) (pl pr pt pb : nat) (m : @tensor2 F)
  : result (@tensor2 F) :=
  rbind (mapR (pad_axis mode pl pr fzero) m) (fun rows =>
  pad_axis mode pt pb (repeat fzero (pl + width2 m + pr)) rows).

(** [nn.ReflectionPad2d((left, right, top, bottom))] *)
Record ReflectionPad2d : Type := {
  pad_left : Z; pad_right : Z; pad_top : Z; pad_bottom : Z
}.

Definition ReflectionPad2d_forward (p : ReflectionPad2d) (x : @tensor4 F)
  : result (@tensor4 F) :=
  if ((pad_left p <? 0) || (pad_right p <? 0)
      || (pad_top p <? 0) || (pad_bottom p <? 0))%Z then
    Raise (RuntimeError "negative reflection padding")
  else
    mapR (mapR (pad2d Reflect (Z.to_nat (pad_left p)) (Z.to_nat (pad_right p))
                      (Z.to_nat (pad_top p)) (Z.to_nat (pad_bottom p)))) x.
End Padding2d.

(** ** Layers of [torch.nn] *)

(** The learned parameters of a module, by name and index (a
    [state_dict]): [theta "conv1.weight" [o; c; i; j]]. *)
Definition params (F : Type) : Type := string -> list nat -> F.

(** The parameters of a sub-module. *)
Definition sub_params {F} (theta : params F) (prefix : string) : params F :=
  fun name => theta (prefix ++ "." ++ name)%string.

Section Layers.
Context {F : Type} {SF : Scalar F}.

Local Abbreviation tensor2 := (@tensor2 F).
Local Abbreviation tensor3 := (@tensor3 F).
Local Abbreviation tensor4 := (@tensor4 F).

(** *** [nn.Linear] *)

Record Linear : Type := {
  lin_in : nat;
  lin_out : nat;
  lin_weight : nat -> nat -> F;
  lin_bias : nat -> F
}.

Definition Linear_init (theta : params F) (in_features : Z)
    (out_features : option Z) : result Linear :=
  match out_features with
  | None => Raise (TypeError "empty(): argument 'size' must be tuple of ints, but found NoneType")
  | Some out =>
      if ((in_features <? 0) || (out <? 0))%Z then
        Raise (RuntimeError "Trying to create tensor with negative dimension")
      else Ok {| lin_in := Z.to_nat in_features;
                 lin_out := Z.to_nat out;
                 lin_weight := fun o i => theta "weight"%string [o; i];
                 lin_bias := fun o => theta "bias"%string [o] |}
  end.

Definition Linear_row (l : Linear) (r : list F) : result (list F) :=
  if Nat.eqb (length r) (lin_in l) then
    Ok (map (fun o =>
               fadd (fsum (map (fun i => fmul (nth i r fzero) (lin_weight l o i))
                               (seq 0 (lin_in l))))
                    (lin_bias l o))
            (seq 0 (lin_out l)))
  else Raise (RuntimeError "mat1 and mat2 shapes cannot be multiplied").

(** The layer acts on the last axis. *)
Definition Linear_forward4 (l : Linear) (x : tensor4) : result tensor4 :=
  mapR (mapR (mapR (Linear_row l))) x.

(** *** [nn.Conv1d] *)

Record Conv1d : Type := {
  c1_in : nat;
  c1_out : nat;
  c1_kernel : nat;
  c1_padding : Z;
  c1_groups : nat;
  c1_mode : padding_mode;
  c1_weight : nat -> nat -> nat -> F;
  c1_bias : nat -> F
}.

Definition Conv1d_init (theta : params F) (in_channels out_channels : Z)
    (kernel_size padding groups : Z) (mode : string) : result Conv1d :=
  if (groups <=? 0)%Z then
    Raise (ValueError "groups must be a positive integer")
  else if negb (in_channels mod groups =? 0)%Z then
    Raise (ValueError "in_channels must be divisible by groups")
  else if negb (out_channels mod groups =? 0)%Z then
    Raise (ValueError "out_channels must be divisible by groups")
  else
    rbind (parse_padding_mode mode) (fun m =>
    if ((in_channels <? 0) || (out_channels <? 0) || (kernel_size <? 0))%Z then
      Raise (RuntimeError "Trying to create tensor with negative dimension")
    else Ok {| c1_in := Z.to_nat in_channels;
               c1_out := Z.to_nat out_channels;
               c1_kernel := Z.to_nat kernel_size;
               c1_padding := padding;
               c1_groups := Z.to_nat groups;
               c1_mode := m;
               c1_weight := fun o c d => theta "weight"%string [o; c; d];
               c1_bias := fun o => theta "bias"%string [o] |}).

(** Output channel [o] at time [i]: the channels of the group of [o],
    weighted over a window of [c1_kernel] padded samples, plus the bias. *)
Definition Conv1d_at (l : Conv1d) (padded : tensor2) (o i : nat) : F :=
  let per_group := c1_in l / c1_groups l in
  let group := o / (c1_out l / c1_groups l) in
  fadd (fsum (flat_map (fun c =>
                map (fun d => fmul (nth (i + d)
                                        (nth (group * per_group + c) padded [])
                                        fzero)
                                   (c1_weight l o c d))
                    (seq 0 (c1_kernel l)))
                (seq 0 per_group)))
       (c1_bias l o).

Definition kernel_too_large : exn :=
  RuntimeError "Kernel size can't be greater than actual input size".

(** One batch item: (channel, time). *)
Definition Conv1d_item (l : Conv1d) (x : tensor2) : result tensor2 :=
  if negb (Nat.eqb (length x) (c1_in l)) then
    Raise (RuntimeError "expected input to have in_channels channels")
  else if (c1_padding l <? 0)%Z then
    Raise (RuntimeError "negative padding is not supported")
  else
    let p := Z.to_nat (c1_padding l) in
    rbind (mapR (pad_axis (c1_mode l) p p fzero) x) (fun padded =>
    let t := width2 padded in
    if Nat.ltb t (c1_kernel l) || Nat.eqb (c1_kernel l) 0 then
      Raise kernel_too_large
    else
      Ok (map (fun o => map (fun i => Conv1d_at l padded o i)
                            (seq 0 (t - c1_kernel l + 1)))
              (seq 0 (c1_out l)))).

Definition Conv1d_forward (l : Conv1d) (x : tensor3) : result tensor3 :=
  mapR (Conv1d_item l) x.

(** *** [nn.Conv2d] *)

Record Conv2d : Type := {
  c2_in : nat;
  c2_out : nat;
  c2_kh : nat;
  c2_kw : nat;
  c2_ph : Z;
  c2_pw : Z;
  c2_mode : padding_mode;
  c2_weight : nat -> nat -> nat -> nat -> F;
  c2_bias : nat -> F
}.

Definition Conv2d_init (theta : params F) (in_channels out_channels : Z)
    (kernel_size padding : Z * Z) (mode : string) : result Conv2d :=
  rbind (parse_padding_mode mode) (fun m =>
  if ((in_channels <? 0) || (out_channels <? 0)
      || (fst kernel_size <? 0) || (snd kernel_size <? 0))%Z then
    Raise (RuntimeError "Trying to create tensor with negative dimension")
  else Ok {| c2_in := Z.to_nat in_channels;
             c2_out := Z.to_nat out_channels;
             c2_kh := Z.to_nat (fst kernel_size);
             c2_kw := Z.to_nat (snd kernel_size);
             c2_ph := fst padding;
             c2_pw := snd padding;
             c2_mode := m;
             c2_weight := fun o c i j => theta "weight"%string [o; c; i; j];
             c2_bias := fun o => theta "bias"%string [o] |}).

(** Output channel [o] at (time [i], bin [j]). *)
Definition Conv2d_at (l : Conv2d) (padded : tensor3) (o i j : nat) : F :=
  fadd (fsum (flat_map (fun c =>
                flat_map (fun di =>
                  map (fun dj => fmul (nth (j + dj)
                                           (nth (i + di) (nth c padded []) [])
                                           fzero)
                                      (c2_weight l o c di dj))
                      (seq 0 (c2_kw l)))
                  (seq 0 (c2_kh l)))
                (seq 0 (c2_in l))))
       (c2_bias l o).

(** One batch item: (channel, time, bin). *)
Definition Conv2d_item (l : Conv2d) (x : tensor3) : result tensor3 :=
  if negb (Nat.eqb (length x) (c2_in l)) then
    Raise (RuntimeError "expected input to have in_channels channels")
  else if ((c2_ph l <? 0) || (c2_pw l <? 0))%Z then
    Raise (RuntimeError "negative padding is not supported")
  else
    let ph := Z.to_nat (c2_ph l) in
    let pw := Z.to_nat (c2_pw l) in
    rbind (mapR (pad2d (c2_mode l) pw pw ph ph) x) (fun padded =>
    let h := height3 padded in
    let w := width3 padded in
    if Nat.ltb h (c2_kh l) || Nat.ltb w (c2_kw l)
       || Nat.eqb (c2_kh l) 0 || Nat.eqb (c2_kw l) 0 then
      Raise kernel_too_large
    else
      Ok (map (fun o =>
                 map (fun i => map (fun j => Conv2d_at l padded o i j)
                                   (seq 0 (w - c2_kw l + 1)))
                     (seq 0 (h - c2_kh l + 1)))
              (seq 0 (c2_out l)))).

Definition Conv2d_forward (l : Conv2d) (x : tensor4) : result tensor4 :=
  mapR (Conv2d_item l) x.
End Layers.

(** ** The post-filters *)

Section PostFilters.
Context {F G : Type} {SF : Scalar F} {RS : RandomSource G F}.

(** Modelled from the spec: [init_weights] of [nnsvs.util] (the
    weight-initialization routine, which takes a policy name and seeds
    all learned parameters).  It is a parameter of the development: the
    values it leaves in the parameters, for each policy name. *)
Variable init_weights : string -> params F.

Local Abbreviation tensor2 := (@tensor2 F).
Local Abbreviation tensor3 := (@tensor3 F).
Local Abbreviation tensor4 := (@tensor4 F).
Local Abbreviation Conv1d := (@Conv1d F).
Local Abbreviation Conv2d := (@Conv2d F).
Local Abbreviation Linear := (@Linear F).

(** [nn.Sequential(conv, nn.ReLU())] *)
Definition Conv1d_relu (l : Conv1d) (x : tensor3) : result tensor3 :=
  rbind (Conv1d_forward l x) (fun y => Ok (relu3 y)).

Definition Conv2d_relu (l : Conv2d) (x : tensor4) : result tensor4 :=
  rbind (Conv2d_forward l x) (fun y => Ok (relu4 y)).

(** *** [SimplifiedTADN] *)

Record SimplifiedTADN : Type := {
  conv_gamma : Conv1d
}.

Definition SimplifiedTADN_init (theta : params F) (channels kernel_size : Z)
  : result SimplifiedTADN :=
  let C := channels in
  let padding := ((kernel_size - 1) / 2)%Z in
  rbind (Conv1d_init (sub_params theta "conv_gamma") C C kernel_size padding C
                     "zeros")
        (fun conv => Ok {| conv_gamma := conv |}).

Definition SimplifiedTADN_forward (self : SimplifiedTADN) (z c : tensor3)
  : result tensor3 :=
  rbind (Conv1d_forward (conv_gamma self) c) (fun g =>
  let gamma := sigmoid3 g in
  mul3 z gamma).

(** *** [Conv1dPostFilter] *)

Record Conv1dPostFilter_args : Type := {
  a1_in_dim : option Z;
  a1_channels : Z;
  a1_kernel_size : Z;
  a1_use_noise : bool;
  a1_use_tadn : bool;
  a1_init_type : string;
  a1_scale : F;
  a1_padding_mode : string
}.

Record Conv1dPostFilter : Type := {
  p1_use_noise : bool;
  p1_scale : F;
  p1_conv1 : Conv1d;
  p1_conv2 : Conv1d;
  p1_conv3 : Conv1d;
  p1_conv4 : Conv1d;
  p1_tadn : option SimplifiedTADN
}.

Definition is_some {A} (o : option A) : bool :=
  match o with Some _ => true | None => false end.

Definition Conv1dPostFilter_init (a : Conv1dPostFilter_args)
  : result Conv1dPostFilter :=
  let theta := init_weights (a1_init_type a) in
  let C := a1_channels a in
  let kernel_size := a1_kernel_size a in
  let padding := ((kernel_size - 1) / 2)%Z in
  let mode := a1_padding_mode a in
  (conv1 <- Conv1d_init (sub_params theta "conv1.0")
              (if a1_use_noise a then 2 else 1)%Z C kernel_size padding 1 mode ;;
   conv2 <- Conv1d_init (sub_params theta "conv2.0")
              (C + 1)%Z (C * 2)%Z kernel_size padding 1 mode ;;
   conv3 <- Conv1d_init (sub_params theta "conv3.0")
              (C * 2 + 1)%Z C kernel_size padding 1 mode ;;
   conv4 <- Conv1d_init (sub_params theta "conv4")
              (C + 1)%Z 1%Z kernel_size padding 1 mode ;;
   tadn <- (if a1_use_tadn a then
              py_assert (is_some (a1_in_dim a)) "in_dim must be provided" ;;;
              py_assert (a1_use_noise a) "use_noise must be True" ;;;
              match a1_in_dim a with
              | Some in_dim =>
                  t <- SimplifiedTADN_init (sub_params theta "tadn") in_dim 7 ;;
                  Ok (Some t)
              | None => Ok None
              end
            else Ok None) ;;
   Ok {| p1_use_noise := a1_use_noise a;
         p1_scale := a1_scale a;
         p1_conv1 := conv1; p1_conv2 := conv2;
         p1_conv3 := conv3; p1_conv4 := conv4;
         p1_tadn := tadn |})%result.

Definition Conv1dPostFilter_forward (self : Conv1dPostFilter) (x : tensor3)
    (lengths : option (list Z)) : M G tensor3 :=
  let x := transpose12 x in
  let x_syn := x in
  (y <~ (if p1_use_noise self then
           z <~ sample (randn_like3 x) ;;
           let z := scale3 z (p1_scale self) in
           z <~ match p1_tadn self with
                | Some tadn => lift (SimplifiedTADN_forward tadn z x)
                | None => ret z
                end ;;
           lift (xz <- cat_channels3 x_syn z ;;
                 Conv1d_relu (p1_conv1 self) xz)%result
         else lift (Conv1d_relu (p1_conv1 self) x_syn)) ;;
   lift (xy <- cat_channels3 x_syn y ;;
         y <- Conv1d_relu (p1_conv2 self) xy ;;
         xy <- cat_channels3 x_syn y ;;
         y <- Conv1d_relu (p1_conv3 self) xy ;;
         xy <- cat_channels3 x_syn y ;;
         residual <- Conv1d_forward (p1_conv4 self) xy ;;
         out <- add3 x_syn residual ;;
         Ok (transpose12 out))%result)%fwd.

(** *** [Conv2dPostFilter] *)

Record Conv2dPostFilter_args : Type := {
  a2_in_dim : option Z;
  a2_channels : Z;
  a2_kernel_size : list Z;
  a2_use_noise : bool;
  a2_use_tadn : bool;
  a2_residual : bool;
  a2_init_type : string;
  a2_scale : F;
  a2_noise_type : string;
  a2_padding_mode : string
}.

Record Conv2dPostFilter : Type := {
  p2_use_noise : bool;
  p2_noise_type : string;
  p2_residual : bool;
  p2_scale : F;
  p2_conv1 : Conv2d;
  p2_conv2 : Conv2d;
  p2_conv3 : Conv2d;
  p2_conv4 : Conv2d;
  p2_tadn : option SimplifiedTADN;
  p2_fc : option Linear
}.

Definition Conv2dPostFilter_init (a : Conv2dPostFilter_args)
  : result Conv2dPostFilter :=
  let theta := init_weights (a2_init_type a) in
  let C := a2_channels a in
  let mode := a2_padding_mode a in
  (py_assert (Nat.eqb (length (a2_kernel_size a)) 2) "" ;;;
   let ks := (nth 0 (a2_kernel_size a) 0%Z, nth 1 (a2_kernel_size a) 0%Z) in
   let padding := ((fst ks - 1) / 2, (snd ks - 1) / 2)%Z in
   conv1 <- Conv2d_init (sub_params theta "conv1.0")
              (if a2_use_noise a then 2 else 1)%Z C ks padding mode ;;
   conv2 <- Conv2d_init (sub_params theta "conv2.0")
              (C + 1)%Z (C * 2)%Z ks padding mode ;;
   conv3 <- Conv2d_init (sub_params theta "conv3.0")
              (C * 2 + 1)%Z C ks padding mode ;;
   conv4 <- Conv2d_init (sub_params theta "conv4")
              (C + 1)%Z 1%Z ks padding mode ;;
   tadn <- (if a2_use_tadn a then
              py_assert (is_some (a2_in_dim a)) "in_dim must be provided" ;;;
              py_assert (String.eqb (a2_noise_type a) "bin_wise")
                        "tadn only works for bin_wise" ;;;
              match a2_in_dim a with
              | Some in_dim =>
                  t <- SimplifiedTADN_init (sub_params theta "tadn") in_dim 7 ;;
                  Ok (Some t)
              | None => Ok None
              end
            else Ok None) ;;
   fc <- (if String.eqb (a2_noise_type a) "frame_wise" then
            l <- Linear_init (sub_params theta "fc") 1 (a2_in_dim a) ;;
            Ok (Some l)
          else if String.eqb (a2_noise_type a) "bin_wise" then Ok None
          else Raise (ValueError "Unknown noise type")) ;;
   Ok {| p2_use_noise := a2_use_noise a;
         p2_noise_type := a2_noise_type a;
         p2_residual := a2_residual a;
         p2_scale := a2_scale a;
         p2_conv1 := conv1; p2_conv2 := conv2;
         p2_conv3 := conv3; p2_conv4 := conv4;
         p2_tadn := tadn; p2_fc := fc |})%result.

Definition not_callable : exn :=
  TypeError "'NoneType' object is not callable".

Definition Conv2dPostFilter_forward (self : Conv2dPostFilter) (x : tensor3)
    (lengths : option (list Z)) : M G tensor3 :=
  let x := unsqueeze1 x in
  (z <~ (if String.eqb (p2_noise_type self) "bin_wise" then
           z <~ sample (randn_like4 x) ;;
           ret (Some (scale4 z (p2_scale self)))
         else if String.eqb (p2_noise_type self) "frame_wise" then
           z <~ sample (randn4 (length x) 1 (height3 (hd [] x)) 1) ;;
           let z := scale4 z (p2_scale self) in
           match p2_fc self with
           | Some fc => z <~ lift (Linear_forward4 fc z) ;; ret (Some z)
           | None => lift (Raise not_callable)
           end
         else ret None) ;;
   z <~ (if p2_use_noise self then
           match p2_tadn self with
           | Some tadn =>
               lift (z <- read_local "z" z ;;
                     zs <- squeeze1 z ;;
                     xs <- squeeze1 x ;;
                     m <- SimplifiedTADN_forward tadn (transpose12 zs)
                                                 (transpose12 xs) ;;
                     Ok (Some (unsqueeze1 (transpose12 m))))%result
           | None => ret z
           end
         else ret z) ;;
   let x_syn := x in
   lift (y <- (if p2_use_noise self then
                 z <- read_local "z" z ;;
                 xz <- cat_channels4 x_syn z ;;
                 Conv2d_relu (p2_conv1 self) xz
               else Conv2d_relu (p2_conv1 self) x_syn) ;;
         xy <- cat_channels4 x_syn y ;;
         y <- Conv2d_relu (p2_conv2 self) xy ;;
         xy <- cat_channels4 x_syn y ;;
         y <- Conv2d_relu (p2_conv3 self) xy ;;
         xy <- cat_channels4 x_syn y ;;
         residual <- Conv2d_forward (p2_conv4 self) xy ;;
         out <- (if p2_residual self then add4 x_syn residual
                 else Ok residual) ;;
         squeeze1 out)%result)%fwd.
End PostFilters.

(** ** The band-tiled filter and the band orchestrator *)

Section BandFilter.
Context {F : Type} {SF : Scalar F}.

(** Modelled from the spec: [init_weights] of [nnsvs.util], as above:
    the values it leaves in the parameters of this module. *)
Variable init_weights : string -> params F.

Local Abbreviation tensor3 := (@tensor3 F).
Local Abbreviation tensor4 := (@tensor4 F).

Record _PadConv2dPostFilter_args : Type := {
  ab_in_dim : option Z;
  ab_channels : Z;
  ab_kernel_size : Z;
  ab_init_type : string;
  ab_padding_side : string
}.

Record _PadConv2dPostFilter : Type := {
  pb_padding : Z;
  pb_padding_side : string;
  pb_pad : ReflectionPad2d;
  pb_conv1 : @Conv2d F;
  pb_conv2 : @Conv2d F;
  pb_conv3 : @Conv2d F;
  pb_conv4 : @Conv2d F;
  pb_fc : @Linear F
}.

Definition _PadConv2dPostFilter_init (a : _PadConv2dPostFilter_args)
  : result _PadConv2dPostFilter :=
  let theta := init_weights (ab_init_type a) in
  let C := ab_channels a in
  let ks := ab_kernel_size a in
  let padding := ((ks - 1) / 2)%Z in
  let padding_side := ab_padding_side a in
  (pad <- (if String.eqb padding_side "left" then
             Ok {| pad_left := padding; pad_right := 0;
                   pad_top := padding; pad_bottom := padding |}
           else if String.eqb padding_side "none" then
             Ok {| pad_left := 0; pad_right := 0;
                   pad_top := padding; pad_bottom := padding |}
           else if String.eqb padding_side "right" then
             Ok {| pad_left := 0; pad_right := padding;
                   pad_top := padding; pad_bottom := padding |}
           else Raise (ValueError "Invalid padding side")) ;;
   conv1 <- Conv2d_init (sub_params theta "conv1.0")
              2%Z C (ks, ks) (0, 0)%Z "zeros" ;;
   conv2 <- Conv2d_init (sub_params theta "conv2.0")
              (C + 1)%Z (C * 2)%Z (ks, 3%Z) (padding, 1%Z) "reflect" ;;
   conv3 <- Conv2d_init (sub_params theta "conv3.0")
              (C * 2 + 1)%Z C (ks, 3%Z) (padding, 1%Z) "reflect" ;;
   conv4 <- Conv2d_init (sub_params theta "conv4")
              (C + 1)%Z 1%Z (ks, 1%Z) (padding, 0%Z) "reflect" ;;
   fc <- Linear_init (sub_params theta "fc") 1 (ab_in_dim a) ;;
   Ok {| pb_padding := padding;
         pb_padding_side := padding_side;
         pb_pad := pad;
         pb_conv1 := conv1; pb_conv2 := conv2;
         pb_conv3 := conv3; pb_conv4 := conv4;
         pb_fc := fc |})%result.

(** The trimming of the raw input after the first stage. *)
Definition trim_raw_input (self : _PadConv2dPostFilter) (x : tensor4)
  : tensor4 :=
  let padding := pb_padding self in
  if String.eqb (pb_padding_side self) "left" then
    slice_last4 None (Some (- padding)%Z) x
  else if String.eqb (pb_padding_side self) "none" then
    slice_last4 (Some padding) (Some (- padding)%Z) x
  else if String.eqb (pb_padding_side self) "right" then
    slice_last4 (Some padding) None x
  else x.

Definition _PadConv2dPostFilter_forward (self : _PadConv2dPostFilter)
    (x z : tensor3) (lengths : option (list Z)) : result tensor3 :=
  let x := unsqueeze1 x in
  let z := unsqueeze1 z in
  (z <- Linear_forward4 (pb_fc self) z ;;
   let x_syn := x in
   px <- ReflectionPad2d_forward (pb_pad self) x_syn ;;
   pz <- ReflectionPad2d_forward (pb_pad self) z ;;
   xz <- cat_channels4 px pz ;;
   y <- Conv2d_relu (pb_conv1 self) xz ;;
   let x_syn := trim_raw_input self x in
   xy <- cat_channels4 x_syn y ;;
   y <- Conv2d_relu (pb_conv2 self) xy ;;
   xy <- cat_channels4 x_syn y ;;
   y <- Conv2d_relu (pb_conv3 self) xy ;;
   xy <- cat_channels4 x_syn y ;;
   residual <- Conv2d_forward (pb_conv4 self) xy ;;
   out <- add4 x_syn residual ;;
   squeeze1 out)%result.
End BandFilter.

Section BandOrchestrator.
Context {F G : Type} {SF : Scalar F} {RS : RandomSource G F}.

(** Modelled from the spec: [init_weights] of [nnsvs.util], as above;
    every band filter initialises its own parameters. *)
Variable init_weights : string -> params F.

Local Abbreviation tensor3 := (@tensor3 F).

Record MultistreamConv2dPostFilter_args : Type := {
  am_in_dim : option Z;
  am_channels : Z;
  am_kernel_size : Z;
  am_init_type : string;
  am_scale : F;
  am_stream_sizes : list Z
}.

Record MultistreamConv2dPostFilter : Type := {
  pm_padding : Z;
  pm_scale : F;
  pm_stream_sizes : list Z;
  low_postfilter : @_PadConv2dPostFilter F;
  mid_postfilter : @_PadConv2dPostFilter F;
  high_postfilter : @_PadConv2dPostFilter F
}.

(** [sum(sizes)] *)
Definition py_sum (sizes : list Z) : Z := fold_left Z.add sizes 0%Z.

(** [x.shape[-1] == n]: the last axis of a nested list has size [n]
    when every row has [n] entries. *)
Definition last_axis_is (n : Z) (x : tensor3) : bool :=
  forallb (forallb (fun r => Z.eqb (Z.of_nat (length r)) n)) x.

Definition band_args (a : MultistreamConv2dPostFilter_args) (in_dim : Z)
    (side : string) : _PadConv2dPostFilter_args :=
  {| ab_in_dim := Some in_dim;
     ab_channels := am_channels a;
     ab_kernel_size := am_kernel_size a;
     ab_init_type := am_init_type a;
     ab_padding_side := side |}.

Definition MultistreamConv2dPostFilter_init
    (a : MultistreamConv2dPostFilter_args)
  : result MultistreamConv2dPostFilter :=
  let stream_sizes := am_stream_sizes a in
  let band name := fun ty => sub_params (init_weights ty) name in
  (py_assert (Nat.eqb (length stream_sizes) 3) "" ;;;
   let padding := ((am_kernel_size a - 1) / 2)%Z in
   low <- _PadConv2dPostFilter_init (band "low_postfilter"%string)
            (band_args a (nth 0 stream_sizes 0 + padding)%Z "left") ;;
   mid <- _PadConv2dPostFilter_init (band "mid_postfilter"%string)
            (band_args a (nth 1 stream_sizes 0 + 2 * padding)%Z "none") ;;
   high <- _PadConv2dPostFilter_init (band "high_postfilter"%string)
            (band_args a (nth 2 stream_sizes 0 + padding)%Z "right") ;;
   Ok {| pm_padding := padding;
         pm_scale := am_scale a;
         pm_stream_sizes := stream_sizes;
         low_postfilter := low;
         mid_postfilter := mid;
         high_postfilter := high |})%result.

Definition MultistreamConv2dPostFilter_forward
    (self : MultistreamConv2dPostFilter) (x : tensor3)
    (lengths : option (list Z)) : M G tensor3 :=
  let sizes := pm_stream_sizes self in
  let padding := pm_padding self in
  (_ <~ lift (py_assert (last_axis_is (py_sum sizes) x) "") ;;
   z <~ sample (randn3 (length x) (height3 x) 1) ;;
   let z := scale3 z (pm_scale self) in
   out1 <~ lift (_PadConv2dPostFilter_forward (low_postfilter self)
                   (slice_last3 None (Some (nth 0 sizes 0 + padding)%Z) x)
                   z None) ;;
   out2 <~ lift (_PadConv2dPostFilter_forward (mid_postfilter self)
                   (slice_last3 (Some (nth 0 sizes 0 - padding)%Z)
                                (Some (py_sum (firstn 2 sizes) + padding)%Z) x)
                   z None) ;;
   out3 <~ lift (_PadConv2dPostFilter_forward (high_postfilter self)
                   (slice_last3 (Some (py_sum (firstn 2 sizes) - padding)%Z)
                                None x)
                   z None) ;;
   lift (cat_last [out1; out2; out3]))%fwd.
End BandOrchestrator.

(** ** Models assembled from the four filter classes *)

Section Models.
Context {F G : Type} {SF : Scalar F} {RS : RandomSource G F}.

(** A post-filter model: one of the single-stream filters, the band
    orchestrator, or a stream orchestrator whose three slots hold such
    models (or [None]). *)
#[warnings="-register-all"] Inductive model : Type :=
| Conv1dModel (m : @Conv1dPostFilter F)
| Conv2dModel (m : @Conv2dPostFilter F)
| MultistreamConv2dModel (m : @MultistreamConv2dPostFilter F)
| MultistreamModel (mgc bap lf0 : option model) (sizes : list Z)
                   (mgc_off bap_off : Z).

(** [model(x, lengths)] *)
Fixpoint model_forward (m : model) : @postfilter F G :=
  match m with
  | Conv1dModel f => Conv1dPostFilter_forward f
  | Conv2dModel f => Conv2dPostFilter_forward f
  | MultistreamConv2dModel f => MultistreamConv2dPostFilter_forward f
  | MultistreamModel mgc bap lf0 sizes mgc_off bap_off =>
      MultistreamPostFilter_forward
        {| mgc_postfilter := match mgc with
                             | Some f => Some (model_forward f)
                             | None => None
                             end;
           bap_postfilter := match bap with
                             | Some f => Some (model_forward f)
                             | None => None
                             end;
           lf0_postfilter := match lf0 with
                             | Some f => Some (model_forward f)
                             | None => None
                             end;
           stream_sizes := sizes;
           mgc_offset := mgc_off;
           bap_offset := bap_off |}
  end.
End Models.

(** ** A concrete scalar type and random source, for running the model *)

(** Integers as scalars: the rectifier is [max 0]; the squashing function
    has no integer counterpart and is the identity here. *)
#[export] Instance Z_Scalar : Scalar Z := {
  fzero := 0%Z;
  fadd := Z.add;
  fmul := Z.mul;
  frelu := Z.max 0%Z;
  fsigmoid := fun a => a
}.

(** A counter as random source: the draws are 0, 1, 2, ... *)
#[export] Instance counter_source : RandomSource nat Z := {
  randn := fun g => (Z.of_nat g, S g)
}.

(** Every parameter is one. *)
Definition ones : string -> params Z := fun _ _ _ => 1%Z.

(** ** Auxiliary definitions used by the proofs *)

Section MultistreamAux.
Context {F G : Type}.

Local Abbreviation tensor3 := (@tensor3 F).
Local Abbreviation postfilter := (@postfilter F G).

(** The slices of one row that [split_streams] takes. *)
Fixpoint stream_slicers (start : Z) (sizes : list Z)
  : list (list F -> list F) :=
  match sizes with
  | [] => []
  | size :: rest =>
      py_slice (Some start) (Some (start + size)%Z)
        :: stream_slicers (start + size)%Z rest
  end.

(** A stream orchestrator with no filter assigned. *)
Definition no_filters (sizes : list Z) (mgc_off bap_off : Z)
  : @MultistreamPostFilter F G :=
  {| mgc_postfilter := None; bap_postfilter := None; lf0_postfilter := None;
     stream_sizes := sizes; mgc_offset := mgc_off; bap_offset := bap_off |}.

(** The offset-aware application of one assigned filter, as [forward]
    writes it out for the MGC stream and again for the BAP stream. *)
Definition offset_stage (pfo : option postfilter) (off : Z) (s : tensor3)
    (lengths : option (list Z)) : M G tensor3 :=
  match pfo with
  | Some pf =>
      if (0 <? off)%Z then
        bind (pf (slice_last3 (Some off) None s) lengths)
             (fun y => lift (cat_last [slice_last3 None (Some off) s; y]))
      else pf s lengths
  | None => ret s
  end.
End MultistreamAux.

Section ModelAux.
Context {F G : Type} {SF : Scalar F} {RS : RandomSource G F}.

(** A filter whose result does not depend on [lengths]. *)
Definition lengths_blind (pf : @postfilter F G) : Prop :=
  forall x l1 l2 g, pf x l1 g = pf x l2 g.

(** A filter whose output does not depend on the generator state. *)
Definition draw_blind (pf : @postfilter F G) : Prop :=
  forall x l g1 g2, output (pf x l g1) = output (pf x l g2).

(** Noise injection is disabled in a model: [use_noise] is false in
    every single-stream filter it contains.  The band orchestrator has
    no such switch and always injects noise. *)
Fixpoint noise_disabled (m : @model F) : bool :=
  match m with
  | Conv1dModel f => negb (p1_use_noise f)
  | Conv2dModel f => negb (p2_use_noise f)
  | MultistreamConv2dModel _ => false
  | MultistreamModel mgc bap lf0 _ _ _ =>
      match mgc with Some f => noise_disabled f | None => true end
      && match bap with Some f => noise_disabled f | None => true end
      && match lf0 with Some f => noise_disabled f | None => true end
  end.
End ModelAux.

(** Tensors with the same sizes on every axis. *)
Definition same_length1 {F} (r1 r2 : list F) : Prop := length r1 = length r2.

Definition same_shape4 {F} : @tensor4 F -> @tensor4 F -> Prop :=
  Forall2 (Forall2 (Forall2 same_length1)).

(** The exception of a result, if any. *)
Definition failure {A} (r : result A) : option exn :=
  match r with Ok _ => None | Raise e => Some e end.

(** When padding an axis of size [n] by [l] and [r] is accepted. *)
Definition pad_fits (mode : padding_mode) (l r n : nat) : bool :=
  match mode with
  | Zeros => true
  | Reflect => Nat.ltb l n && Nat.ltb r n
  | Replicate => Nat.ltb 0 n
  | Circular => Nat.leb l n && Nat.leb r n
  end.

Section BuiltModules.
Context {F : Type} {SF : Scalar F}.

(** The hyper-parameters of a convolution layer. *)
Definition Conv2d_is (l : @Conv2d F) (cin cout kh kw : nat) (ph pw : Z)
    (mode : padding_mode) : Prop :=
  c2_in l = cin /\ c2_out l = cout /\ c2_kh l = kh /\ c2_kw l = kw /\
  c2_ph l = ph /\ c2_pw l = pw /\ c2_mode l = mode.

Definition Conv1d_is (l : @Conv1d F) (cin cout k : nat) (p : Z)
    (groups : nat) (mode : padding_mode) : Prop :=
  c1_in l = cin /\ c1_out l = cout /\ c1_kernel l = k /\ c1_padding l = p /\
  c1_groups l = groups /\ c1_mode l = mode.

(** The feature-axis padding of a band role: (low edge, high edge). *)
Definition side_padding (side : string) (R : Z) : Z * Z :=
  if String.eqb side "left" then (R, 0%Z)
  else if String.eqb side "right" then (0%Z, R)
  else (0%Z, 0%Z).

(** What [_PadConv2dPostFilter.__init__] leaves in a module built with
    [in_dim], [channels = C], [kernel_size = ks] and [padding_side]. *)
Record band_filter_built (self : @_PadConv2dPostFilter F) (side : string)
    (in_dim C ks : Z) : Prop := {
  built_side : pb_padding_side self = side;
  built_side_valid : side = "left"%string \/ side = "none"%string
                     \/ side = "right"%string;
  built_padding : pb_padding self = ((ks - 1) / 2)%Z;
  built_pad : pb_pad self
              = {| pad_left := fst (side_padding side ((ks - 1) / 2));
                   pad_right := snd (side_padding side ((ks - 1) / 2));
                   pad_top := ((ks - 1) / 2)%Z;
                   pad_bottom := ((ks - 1) / 2)%Z |};
  built_sizes : (0 <= C)%Z /\ (0 <= ks)%Z /\ (0 <= in_dim)%Z;
  built_conv1 : Conv2d_is (pb_conv1 self) 2 (Z.to_nat C)
                  (Z.to_nat ks) (Z.to_nat ks) 0 0 Zeros;
  built_conv2 : Conv2d_is (pb_conv2 self) (Z.to_nat (C + 1))
                  (Z.to_nat (C * 2)) (Z.to_nat ks) 3
                  ((ks - 1) / 2) 1 Reflect;
  built_conv3 : Conv2d_is (pb_conv3 self) (Z.to_nat (C * 2 + 1))
                  (Z.to_nat C) (Z.to_nat ks) 3 ((ks - 1) / 2) 1 Reflect;
  built_conv4 : Conv2d_is (pb_conv4 self) (Z.to_nat (C + 1)) 1
                  (Z.to_nat ks) 1 ((ks - 1) / 2) 0 Reflect;
  built_fc : lin_in (pb_fc self) = 1 /\ lin_out (pb_fc self) = Z.to_nat in_dim
}.
End BuiltModules.

(** Pairing two lists element by element. *)
Definition zip_with {A B C} (k : A -> B -> C) (la : list A) (lb : list B)
  : list C :=
  map (fun p => k (fst p) (snd p)) (combine la lb).

Section Depthwise.
Context {F : Type} {SF : Scalar F}.

(** The convolution of one channel along time, in isolation: zero
    padding of [p] on both ends, a window of [k] samples weighted by
    [w], plus the bias. *)
Definition depthwise_channel (w : nat -> F) (bias : F) (k p : nat)
    (row : list F) : list F :=
  let padded := repeat fzero p ++ row ++ repeat fzero p in
  map (fun i =>
         fadd (fsum (map (fun d => fmul (nth (i + d) padded fzero) (w d))
                         (seq 0 k)))
              bias)
      (seq 0 (length padded - k + 1)).
End Depthwise.

Section BuiltConv1d.
Context {F : Type} {SF : Scalar F}.

(** What [Conv1dPostFilter.__init__] leaves in a module built from the
    arguments [a], whose padding mode parses to [mode]. *)
Record Conv1dPostFilter_built (self : @Conv1dPostFilter F)
    (a : @Conv1dPostFilter_args F) (mode : padding_mode)
    (params_of : params F) : Prop := {
  built1_use_noise : p1_use_noise self = a1_use_noise a;
  built1_scale : p1_scale self = a1_scale a;
  built1_sizes : (0 <= a1_channels a)%Z /\ (0 <= a1_kernel_size a)%Z;
  built1_conv1 : Conv1d_is (p1_conv1 self)
                   (if a1_use_noise a then 2 else 1)
                   (Z.to_nat (a1_channels a)) (Z.to_nat (a1_kernel_size a))
                   ((a1_kernel_size a - 1) / 2) 1 mode;
  built1_conv2 : Conv1d_is (p1_conv2 self)
                   (Z.to_nat (a1_channels a + 1))
                   (Z.to_nat (a1_channels a * 2))
                   (Z.to_nat (a1_kernel_size a))
                   ((a1_kernel_size a - 1) / 2) 1 mode;
  built1_conv3 : Conv1d_is (p1_conv3 self)
                   (Z.to_nat (a1_channels a * 2 + 1))
                   (Z.to_nat (a1_channels a))
                   (Z.to_nat (a1_kernel_size a))
                   ((a1_kernel_size a - 1) / 2) 1 mode;
  built1_conv4 : Conv1d_is (p1_conv4 self)
                   (Z.to_nat (a1_channels a + 1)) 1
                   (Z.to_nat (a1_kernel_size a))
                   ((a1_kernel_size a - 1) / 2) 1 mode;
  built1_tadn :
    if a1_use_tadn a then
      a1_use_noise a = true /\
      exists in_dim tadn,
        a1_in_dim a = Some in_dim /\ p1_tadn self = Some tadn /\
        SimplifiedTADN_init (sub_params params_of "tadn") in_dim 7 = Ok tadn
    else p1_tadn self = None
}.
End BuiltConv1d.

(** ** Concrete modules and inputs, over integer scalars *)

(** A filter that adds ten to every entry and ignores [lengths]. *)
Definition add_ten : @postfilter Z nat :=
  fun x _ => ret (map (map (map (Z.add 10))) x).

(** Streams of widths 3, 1, 1 and 2; the first two MGC channels and the
    first BAP channel are exempt from filtering. *)
Definition example_orchestrator : @MultistreamPostFilter Z nat :=
  {| mgc_postfilter := Some add_ten;
     bap_postfilter := Some add_ten;
     lf0_postfilter := None;
     stream_sizes := [3; 1; 1; 2]%Z;
     mgc_offset := 2;
     bap_offset := 1 |}.

Definition example_frame : @tensor3 Z := [[[1; 2; 3; 4; 5; 6; 7]]]%Z.

(** [Conv1dPostFilter(channels=2, kernel_size=3)], noise disabled. *)
Definition example_conv1d_args : @Conv1dPostFilter_args Z :=
  {| a1_in_dim := None;
     a1_channels := 2;
     a1_kernel_size := 3;
     a1_use_noise := false;
     a1_use_tadn := false;
     a1_init_type := "kaiming_normal";
     a1_scale := 1%Z;
     a1_padding_mode := "zeros" |}.

(** A constant convolution layer with unit weights and no bias. *)
Definition unit_conv1d (cin cout k : nat) (p : Z) : @Conv1d Z :=
  {| c1_in := cin; c1_out := cout; c1_kernel := k; c1_padding := p;
     c1_groups := 1; c1_mode := Zeros;
     c1_weight := fun _ _ _ => 1%Z; c1_bias := fun _ => 0%Z |}.

Definition example_conv1d : @Conv1dPostFilter Z :=
  {| p1_use_noise := false;
     p1_scale := 1%Z;
     p1_conv1 := unit_conv1d 1 2 3 1;
     p1_conv2 := unit_conv1d 3 4 3 1;
     p1_conv3 := unit_conv1d 5 2 3 1;
     p1_conv4 := unit_conv1d 3 1 3 1;
     p1_tadn := None |}.

(** One batch item, two time steps, one channel. *)
Definition example_pitch : @tensor3 Z := [[[1]; [2]]]%Z.



(** One batch item, one image channel, two time steps, three bins. *)
Definition example_surface : @tensor4 Z := [[[[1; 2; 3]; [4; 5; 6]]]]%Z.

(** [MultistreamConv2dPostFilter(channels=1, kernel_size, stream_sizes)] *)
Definition example_bands_args (kernel_size : Z) (sizes : list Z)
  : @MultistreamConv2dPostFilter_args Z :=
  {| am_in_dim := None;
     am_channels := 1;
     am_kernel_size := kernel_size;
     am_init_type := "kaiming_normal";
     am_scale := 1%Z;
     am_stream_sizes := sizes |}.

(** An all-zero input of shape (b, t, c). *)
Definition zeros3 (b t c : nat) : @tensor3 Z :=
  repeat (repeat (repeat 0%Z c) t) b.

Ltac flatten_tensors := unfold tensor4, tensor3, tensor2, tensor1 in *.

Section FilterAux.
Context {F G : Type}.

(** A filter that returns on every input of [b] batch items and [t]
    time steps, with the shape of its input. *)
Definition shape_preserving (b t : nat) (pf : @postfilter F G) : Prop :=
  forall (w : nat) (u : @tensor3 F) (l : option (list Z)) (g : G),
    shape3 b t w u ->
    exists y g', pf u l g = Ok (y, g') /\ shape3 b t w y.
End FilterAux.

(** * Further definitions: generator draws, built two-dimensional
    filters, variance scaling *)
Section Draws.
Context {F G : Type} {RS : RandomSource G F}.

(** The generator state after [n] more scalar draws. *)
Fixpoint advance (n : nat) (g : G) : G :=
  match n with
  | O => g
  | S n' => advance n' (snd (randn g))
  end.
End Draws.

Section BuiltConv2d.
Context {F : Type} {SF : Scalar F}.

(** What [Conv2dPostFilter.__init__] leaves in a module built from the
    arguments [a], whose kernel sizes are [(kh, kw)] and whose padding
    mode parses to [mode]. *)
Record Conv2dPostFilter_built (self : @Conv2dPostFilter F)
    (a : @Conv2dPostFilter_args F) (mode : padding_mode) (kh kw : Z)
    (params_of : params F) : Prop := {
  built2_use_noise : p2_use_noise self = a2_use_noise a;
  built2_noise_type : p2_noise_type self = a2_noise_type a;
  built2_residual : p2_residual self = a2_residual a;
  built2_scale : p2_scale self = a2_scale a;
  built2_sizes : (0 <= a2_channels a)%Z /\ (0 <= kh)%Z /\ (0 <= kw)%Z;
  built2_conv1 : Conv2d_is (p2_conv1 self)
                   (if a2_use_noise a then 2 else 1)
                   (Z.to_nat (a2_channels a)) (Z.to_nat kh) (Z.to_nat kw)
                   ((kh - 1) / 2) ((kw - 1) / 2) mode;
  built2_conv2 : Conv2d_is (p2_conv2 self)
                   (Z.to_nat (a2_channels a + 1))
                   (Z.to_nat (a2_channels a * 2))
                   (Z.to_nat kh) (Z.to_nat kw)
                   ((kh - 1) / 2) ((kw - 1) / 2) mode;
  built2_conv3 : Conv2d_is (p2_conv3 self)
                   (Z.to_nat (a2_channels a * 2 + 1))
                   (Z.to_nat (a2_channels a))
                   (Z.to_nat kh) (Z.to_nat kw)
                   ((kh - 1) / 2) ((kw - 1) / 2) mode;
  built2_conv4 : Conv2d_is (p2_conv4 self)
                   (Z.to_nat (a2_channels a + 1)) 1
                   (Z.to_nat kh) (Z.to_nat kw)
                   ((kh - 1) / 2) ((kw - 1) / 2) mode;
  built2_tadn :
    if a2_use_tadn a then
      a2_noise_type a = "bin_wise"%string /\
      exists in_dim tadn,
        a2_in_dim a = Some in_dim /\ p2_tadn self = Some tadn /\
        SimplifiedTADN_init (sub_params params_of "tadn") in_dim 7 = Ok tadn
    else p2_tadn self = None;
  built2_fc :
    (a2_noise_type a = "frame_wise"%string /\
     exists in_dim fc,
       a2_in_dim a = Some in_dim /\ (0 <= in_dim)%Z /\
       p2_fc self = Some fc /\
       lin_in fc = 1 /\ lin_out fc = Z.to_nat in_dim)
    \/ (a2_noise_type a = "bin_wise"%string /\ p2_fc self = None)
}.
End BuiltConv2d.

(** ** [variance_scaling] *)

(** The operations of NumPy that [variance_scaling] uses beyond
    addition and multiplication: subtraction, division and square root
    of floats, and the statistics [mean] and [var] of a
    one-dimensional array. *)
Class NumPyOps (F : Type) : Type := {
  fsub : F -> F -> F;
  fdiv : F -> F -> F;
  fsqrt : F -> F;
  np_mean : list F -> F;
  np_var : list F -> F
}.

Section VarianceScaling.
Context {F : Type} {SF : Scalar F} {NP : NumPyOps F}.

(** A two-dimensional array of shape [(length nd_rows, nd_cols)]: every
    row holds [nd_cols] entries.  The number of columns is kept apart
    because an array without rows still has columns. *)
Record ndarray2 : Type := {
  nd_cols : nat;
  nd_rows : list (list F)
}.

Definition well_formed (x : ndarray2) : Prop :=
  Forall (fun r => length r = nd_cols x) (nd_rows x).

(** [x[i, j]] *)
Definition entry (x : ndarray2) (i j : nat) : F :=
  nth j (nth i (nd_rows x) []) fzero.

Definition broadcast_error : exn :=
  ValueError "operands could not be broadcast together".

(** The common size of two axes under broadcasting. *)
Definition np_broadcast (n m : nat) : result nat :=
  if Nat.eqb n m then Ok n
  else if Nat.eqb n 1 then Ok m
  else if Nat.eqb m 1 then Ok n
  else Raise broadcast_error.

(** Entry [j] of a one-dimensional array that is stretched when it has
    a single entry. *)
Definition np_get (v : list F) (j : nat) : F :=
  nth (if Nat.eqb (length v) 1 then 0 else j) v fzero.

(** [k(u, v)] element-wise on two one-dimensional arrays. *)
Definition np_map2 (k : F -> F -> F) (u v : list F) : result (list F) :=
  rbind (np_broadcast (length u) (length v)) (fun w =>
  Ok (map (fun j => k (np_get u j) (np_get v j)) (seq 0 w))).

(** [k(x, v)] element-wise on a two-dimensional [x] and a
    one-dimensional [v], which is repeated for every row. *)
Definition np_map2_rows (k : F -> F -> F) (x : ndarray2) (v : list F)
  : result ndarray2 :=
  rbind (np_broadcast (nd_cols x) (length v)) (fun w =>
  Ok {| nd_cols := w;
        nd_rows := map (fun r => map (fun j => k (np_get r j) (np_get v j))
                                     (seq 0 w))
                       (nd_rows x) |}).

(** Column [j] of an array, and [x.var(0)] and [x.mean(0)]: one
    statistic per column. *)
Definition column_of (j : nat) (x : ndarray2) : list F :=
  map (fun r => nth j r fzero) (nd_rows x).

Definition var0 (x : ndarray2) : list F :=
  map (fun j => np_var (column_of j x)) (seq 0 (nd_cols x)).

Definition mean0 (x : ndarray2) : list F :=
  map (fun j => np_mean (column_of j x)) (seq 0 (nd_cols x)).

(** [x[:, start:]] *)
Definition np_cols_from (start : Z) (x : ndarray2) : ndarray2 :=
  {| nd_cols := nd_cols x - py_bound (nd_cols x) start;
     nd_rows := map (py_slice (Some start) None) (nd_rows x) |}.

(** [out[:, start:] = value]: the value is stretched to the shape of
    the slice; an axis of the value that is neither of the size of the
    slice nor of size one is an error. *)
Definition np_assign_cols_from (start : Z) (out value : ndarray2)
  : result ndarray2 :=
  let a := py_bound (nd_cols out) start in
  let w := nd_cols out - a in
  let n := length (nd_rows out) in
  let vn := length (nd_rows value) in
  if (Nat.eqb vn n || Nat.eqb vn 1)
     && (Nat.eqb (nd_cols value) w || Nat.eqb (nd_cols value) 1) then
    Ok {| nd_cols := nd_cols out;
          nd_rows :=
            map (fun i =>
                   let v := nth (if Nat.eqb vn 1 then 0 else i)
                                (nd_rows value) [] in
                   firstn a (nth i (nd_rows out) [])
                     ++ map (fun j => np_get v j) (seq 0 w))
                (seq 0 n) |}
  else Raise (ValueError "could not broadcast input array").

(** [variance_scaling(gv, feats, offset)]; [offset] defaults to 2.
    [out] starts as a copy of [feats], so [feats] itself is not
    changed. *)
Definition variance_scaling (gv : list F) (feats : ndarray2) (offset : Z)
  : result ndarray2 :=
  let utt_gv := var0 feats in
  let utt_mu := mean0 feats in
  let out := feats in
  let from := py_slice (A := F) (Some offset) None in
  (ratio <- np_map2 fdiv (from gv) (from utt_gv) ;;
   centred <- np_map2_rows fsub (np_cols_from offset feats) (from utt_mu) ;;
   scaled <- np_map2_rows (fun d s => fmul s d) centred (map fsqrt ratio) ;;
   value <- np_map2_rows fadd scaled (from utt_mu) ;;
   np_assign_cols_from offset out value)%result.
End VarianceScaling.


(** ** Further concrete modules and inputs *)

(** Five streams of widths 3, 1, 1, 1 and 1, with a filter on every
    slot. *)
Definition example_five_streams : @MultistreamPostFilter Z nat :=
  {| mgc_postfilter := Some add_ten;
     bap_postfilter := Some add_ten;
     lf0_postfilter := Some add_ten;
     stream_sizes := [3; 1; 1; 1; 1]%Z;
     mgc_offset := 2;
     bap_offset := 0 |}.

(** [example_conv1d] with noise injection: the first stage reads two
    channels. *)
Definition example_noisy_conv1d : @Conv1dPostFilter Z :=
  {| p1_use_noise := true;
     p1_scale := 1%Z;
     p1_conv1 := unit_conv1d 2 2 3 1;
     p1_conv2 := unit_conv1d 3 4 3 1;
     p1_conv3 := unit_conv1d 5 2 3 1;
     p1_conv4 := unit_conv1d 3 1 3 1;
     p1_tadn := None |}.

(** [Conv2dPostFilter(in_dim, channels=1, kernel_size=(3, 3), use_noise,
    noise_type=noise_type)] *)
Definition example_conv2d_args (use_noise : bool) (noise_type : string)
    (in_dim : option Z) : @Conv2dPostFilter_args Z :=
  {| a2_in_dim := in_dim;
     a2_channels := 1;
     a2_kernel_size := [3; 3]%Z;
     a2_use_noise := use_noise;
     a2_use_tadn := false;
     a2_residual := true;
     a2_init_type := "kaiming_normal";
     a2_scale := 1%Z;
     a2_noise_type := noise_type;
     a2_padding_mode := "zeros" |}.

(** One batch item, two time steps, two bins. *)
Definition example_bins : @tensor3 Z := [[[1; 2]; [3; 4]]]%Z.

(** Integer stand-ins for the operations of NumPy: truncating division
    and square root, and the mean and the variance with them. *)
#[export] Instance Z_NumPyOps : NumPyOps Z := {
  fsub := Z.sub;
  fdiv := Z.div;
  fsqrt := Z.sqrt;
  np_mean := fun l => (fold_left Z.add l 0 / Z.of_nat (length l))%Z;
  np_var := fun l =>
    let mu := (fold_left Z.add l 0 / Z.of_nat (length l))%Z in
    (fold_left Z.add (map (fun a => (a - mu) * (a - mu)) l) 0
     / Z.of_nat (length l))%Z
}.

(** Three frames of three features; the last column has mean 7 and
    variance 6. *)
Definition example_feats : @ndarray2 Z :=
  {| nd_cols := 3;
     nd_rows := [[1; 2; 4]; [3; 5; 7]; [2; 8; 10]]%Z |}.

Definition example_gv : list Z := [1; 1; 24]%Z.

(** * Properties *)

(** ** Results, strict maps and zips *)

Lemma mapR_pure {A B} (k : A -> B) (l : list A) :
  mapR (fun a => Ok (k a)) l = Ok (map k l).
Proof.
  induction l as [|a l IH]; simpl; [reflexivity|].
  now rewrite IH.
Qed.

Lemma mapR_ext {A B} (f g : A -> result B) (l : list A) :
  (forall a, In a l -> f a = g a) -> mapR f l = mapR g l.
Proof.
  induction l as [|a l IH]; intros H; simpl; [reflexivity|].
  rewrite (H a) by now left.
  rewrite IH; [reflexivity|].
  intros b Hb. apply H. now right.
Qed.

Lemma zipR_map_same {A B C D} (f : B -> C -> result D) (p : A -> B) (q : A -> C)
    (l : list A) :
  zipR f (map p l) (map q l) = mapR (fun a => f (p a) (q a)) l.
Proof.
  induction l as [|a l IH]; simpl; [reflexivity|].
  now rewrite IH.
Qed.

Lemma map_id_on {A} (k : A -> A) (l : list A) :
  Forall (fun a => k a = a) l -> map k l = l.
Proof.
  induction 1 as [|a l Ha _ IH]; simpl; congruence.
Qed.

(** ** Python slices *)

Lemma py_slice_window {A} (s n : nat) (l : list A) :
  py_slice (Some (Z.of_nat s)) (Some (Z.of_nat s + Z.of_nat n)%Z) l
  = firstn n (skipn s l).
Proof.
  unfold py_slice, py_bound.
  destruct (Z.ltb_spec (Z.of_nat s) 0); [lia|].
  destruct (Z.ltb_spec (Z.of_nat s + Z.of_nat n) 0); [lia|].
  rewrite Nat2Z.id, <- Nat2Z.inj_add, Nat2Z.id.
  destruct (Nat.le_gt_cases (length l) s) as [Hs|Hs].
  - rewrite Nat.min_l by lia.
    rewrite !skipn_all2 by lia. now rewrite !firstn_nil.
  - rewrite (Nat.min_r _ s) by lia.
    destruct (Nat.le_gt_cases (s + n) (length l)) as [Hn|Hn].
    + rewrite Nat.min_r by lia. f_equal. lia.
    + rewrite Nat.min_l by lia.
      rewrite !firstn_all2; try reflexivity; rewrite length_skipn; lia.
Qed.

(** ** Splitting into streams and concatenating back *)

Section StreamPartition.
Context {F : Type}.

Local Abbreviation tensor3 := (@tensor3 F).

Lemma split_streams_from_rowwise (x : tensor3) (sizes : list Z) (start : Z) :
  split_streams_from start x sizes
  = map (fun f => map (map f) x) (stream_slicers start sizes).
Proof.
  revert start. induction sizes as [|s sizes IH]; intro start; simpl.
  - reflexivity.
  - now rewrite IH.
Qed.

Lemma length_split_streams (x : tensor3) (sizes : list Z) :
  length (split_streams x sizes) = length sizes.
Proof.
  unfold split_streams. generalize 0%Z.
  induction sizes as [|s sizes IH]; intro start; simpl; [reflexivity|].
  now rewrite IH.
Qed.

Lemma cat_last2_rowwise (p q : list F -> list F) (x : tensor3) :
  cat_last2 (map (map p) x) (map (map q) x)
  = Ok (map (map (fun r => p r ++ q r)) x).
Proof.
  unfold cat_last2. rewrite zipR_map_same.
  rewrite <- mapR_pure. apply mapR_ext. intros m _.
  rewrite zipR_map_same. apply mapR_pure.
Qed.

Lemma cat_last_rowwise (f : list F -> list F) (fs : list (list F -> list F))
    (x : tensor3) :
  cat_last (map (fun f => map (map f) x) (f :: fs))
  = Ok (map (map (fun r => concat (map (fun f => f r) (f :: fs)))) x).
Proof.
  revert f. induction fs as [|f' fs IH]; intro f.
  - simpl. f_equal. apply map_ext. intro m. apply map_ext. intro r.
    symmetry. apply app_nil_r.
  - change (cat_last (map (fun f0 => map (map f0) x) (f :: f' :: fs)))
      with (rbind (cat_last (map (fun f0 => map (map f0) x) (f' :: fs)))
                  (cat_last2 (map (map f) x))).
    rewrite IH. simpl rbind. now rewrite cat_last2_rowwise.
Qed.

Lemma concat_stream_slicers (sizes : list Z) (start : Z) (r : list F) :
  (0 <= start)%Z -> Forall (fun s => (0 <= s)%Z) sizes ->
  concat (map (fun f => f r) (stream_slicers start sizes))
  = firstn (Z.to_nat (fold_right Z.add 0%Z sizes)) (skipn (Z.to_nat start) r).
Proof.
  intros Hstart Hsizes. revert start Hstart.
  induction Hsizes as [|s sizes Hs Hsizes IH]; intros start Hstart; simpl.
  - reflexivity.
  - assert (Hsum : (0 <= fold_right Z.add 0 sizes)%Z).
    { clear -Hsizes. induction Hsizes; simpl; lia. }
    rewrite IH by lia.
    rewrite !Z2Nat.inj_add by lia.
    replace (py_slice (Some start) (Some (start + s)%Z) r)
      with (firstn (Z.to_nat s) (skipn (Z.to_nat start) r)).
    2:{ rewrite <- py_slice_window. now rewrite !Z2Nat.id by lia. }
    rewrite (Nat.add_comm (Z.to_nat start)), <- skipn_skipn.
    set (t := skipn (Z.to_nat start) r).
    rewrite <- (firstn_skipn (Z.to_nat s) t) at 3.
    rewrite firstn_app, firstn_firstn, length_firstn.
    rewrite (Nat.min_r (_ + _)) by lia.
    destruct (Nat.le_gt_cases (Z.to_nat s) (length t)) as [Hle|Hgt].
    + rewrite Nat.min_l by lia. f_equal. f_equal. lia.
    + rewrite (skipn_all2 t) by lia. now rewrite !firstn_nil.
Qed.
End StreamPartition.

Section StreamOrchestrator.
Context {F G : Type}.

Local Abbreviation tensor3 := (@tensor3 F).
Local Abbreviation MSPF := (@MultistreamPostFilter F G).

(** Splitting a well-shaped input along a partition of its channel axis
    and concatenating the streams gives the input back. *)
Lemma cat_split_streams (b t c : nat) (x : tensor3) (sizes : list Z) :
  shape3 b t c x ->
  sizes <> [] ->
  Forall (fun s => (0 <= s)%Z) sizes ->
  fold_right Z.add 0%Z sizes = Z.of_nat c ->
  cat_last (split_streams x sizes) = Ok x.
Proof.
  intros [_ Hx] Hne Hpos Hsum.
  unfold split_streams. rewrite split_streams_from_rowwise.
  destruct sizes as [|s sizes]; [congruence|].
  change (stream_slicers 0 (s :: sizes))
    with (py_slice (Some 0%Z) (Some (0 + s)%Z)
            :: stream_slicers (0 + s) sizes : list (list F -> list F)).
  rewrite cat_last_rowwise. f_equal.
  apply map_id_on. eapply Forall_impl; [|exact Hx].
  intros m [_ Hm]. apply map_id_on. eapply Forall_impl; [|exact Hm].
  intros r Hr. cbv beta in Hr.
  change (py_slice (Some 0%Z) (Some (0 + s)%Z)
            :: stream_slicers (0 + s) sizes : list (list F -> list F))
    with (stream_slicers 0 (s :: sizes) : list (list F -> list F)).
  rewrite concat_stream_slicers by (lia || assumption).
  rewrite Hsum, Nat2Z.id. simpl skipn.
  apply firstn_all2. lia.
Qed.

(** With four or six streams and no filter assigned, [forward] is the
    identity on well-shaped inputs and leaves the generator alone. *)
Lemma forward_no_filters_identity (b t c : nat) (x : tensor3)
    (sizes : list Z) (mgc_off bap_off : Z) (lengths : option (list Z)) (g : G) :
  shape3 b t c x ->
  length sizes = 4 \/ length sizes = 6 ->
  Forall (fun s => (0 <= s)%Z) sizes ->
  fold_right Z.add 0%Z sizes = Z.of_nat c ->
  MultistreamPostFilter_forward (no_filters sizes mgc_off bap_off) x lengths g
  = Ok (x, g).
Proof.
  intros Hx Hlen Hpos Hsum.
  assert (Hcat : cat_last (split_streams x sizes) = Ok x).
  { apply (cat_split_streams Hx); try assumption.
    destruct sizes; simpl in Hlen; [lia | congruence]. }
  unfold MultistreamPostFilter_forward, no_filters. cbn [stream_sizes
    mgc_postfilter bap_postfilter lf0_postfilter].
  rewrite length_split_streams.
  destruct Hlen as [Hlen|Hlen];
    repeat (destruct sizes as [|? sizes]; simpl in Hlen; try lia);
    unfold split_streams in *; cbn [split_streams_from unpack_streams] in *;
    unfold bind, ret, lift; cbn [length read_local rbind];
    now rewrite Hcat.
Qed.

(** C1 (failing path).  With a five-entry partition and no filter
    assigned, [forward] never returns: the fifth stream is bound to
    [vuv] a second time and the concatenation reads the local [vib],
    which no assignment has bound. *)
Theorem forward_five_streams_raises (s1 s2 s3 s4 s5 mgc_off bap_off : Z)
    (x : tensor3) (lengths : option (list Z)) (g : G) :
  MultistreamPostFilter_forward
    (no_filters [s1; s2; s3; s4; s5] mgc_off bap_off) x lengths g
  = Raise (UnboundLocalError "vib").
Proof. reflexivity. Qed.
End StreamOrchestrator.

(** ** Offsets of the stream orchestrator *)

Lemma py_slice_prefix {A} (n : nat) (l : list A) :
  py_slice None (Some (Z.of_nat n)) l = firstn n l.
Proof.
  unfold py_slice, py_bound.
  destruct (Z.ltb_spec (Z.of_nat n) 0); [lia|].
  rewrite Nat2Z.id, Nat.sub_0_r. simpl skipn.
  destruct (Nat.le_gt_cases n (length l)).
  - now rewrite Nat.min_r by lia.
  - rewrite Nat.min_l by lia. now rewrite !firstn_all2 by lia.
Qed.

Lemma py_slice_suffix {A} (n : nat) (l : list A) :
  py_slice (Some (Z.of_nat n)) None l = skipn n l.
Proof.
  unfold py_slice, py_bound.
  destruct (Z.ltb_spec (Z.of_nat n) 0); [lia|].
  rewrite Nat2Z.id.
  destruct (Nat.le_gt_cases n (length l)).
  - rewrite Nat.min_r by lia. apply firstn_all2. rewrite length_skipn. lia.
  - rewrite Nat.min_l by lia. rewrite !skipn_all2 by lia. apply firstn_nil.
Qed.

Lemma zipR_app_prefix {A} (n : nat) (ra ry rm : list (list A)) :
  zipR (fun r s => Ok (r ++ s)) ra ry = Ok rm ->
  Forall (fun r => length r = n) ra ->
  map (firstn n) rm = ra.
Proof.
  revert ry rm. induction ra as [|r ra IH]; intros [|s ry] rm H Hn;
    simpl in H; try discriminate.
  - now inversion H.
  - destruct (zipR (fun r s : list A => Ok (r ++ s)) ra ry)
      as [rm'|] eqn:E; [|discriminate].
    inversion H; subst rm. inversion Hn; subst. simpl. f_equal.
    + rewrite firstn_app, Nat.sub_diag, firstn_O, app_nil_r.
      now apply firstn_all2.
    + now apply (IH ry).
Qed.

Section CatPrefix.
Context {F : Type}.

Lemma cat_last2_prefix (n : nat) (a y m : @tensor3 F) :
  cat_last2 a y = Ok m ->
  Forall (Forall (fun r => length r = n)) a ->
  map (map (firstn n)) m = a.
Proof.
  unfold cat_last2. revert y m.
  induction a as [|ma a IH]; intros [|my y] m H Hn; simpl in H;
    try discriminate.
  - now inversion H.
  - destruct (zipR (fun r s : list F => Ok (r ++ s)) ma my)
      as [mm|] eqn:E1; [|discriminate].
    destruct (zipR (zipR (fun r s : list F => Ok (r ++ s))) a y)
      as [m'|] eqn:E2; [|discriminate].
    inversion H; subst m. inversion Hn; subst. simpl. f_equal.
    + now apply (zipR_app_prefix _ E1).
    + now apply (IH y).
Qed.

(** The leading [n] channels of a stream are kept by
    [torch.cat([s[:, :, :n], y], dim=-1)] when the stream has at least
    [n] channels. *)
Lemma cat_offset_prefix (n : nat) (s y m : @tensor3 F) :
  cat_last [slice_last3 None (Some (Z.of_nat n)) s; y] = Ok m ->
  Forall (Forall (fun r => n <= length r)) s ->
  slice_last3 None (Some (Z.of_nat n)) m
  = slice_last3 None (Some (Z.of_nat n)) s.
Proof.
  intros H Hs. simpl in H.
  unfold slice_last3 in *.
  rewrite (map_ext (map (py_slice None (Some (Z.of_nat n))))
                   (map (firstn n))).
  2:{ intro l. apply map_ext. intro r. apply py_slice_prefix. }
  apply (cat_last2_prefix (n := n) _ H).
  apply Forall_map. eapply Forall_impl; [|exact Hs].
  intros l Hl. apply Forall_map. eapply Forall_impl; [|exact Hl].
  intros r Hr. cbv beta in *. rewrite py_slice_prefix, length_firstn. lia.
Qed.
End CatPrefix.

Lemma bind_Ok_inv {G A B} (m : M G A) (k : A -> M G B) (g : G) (r : B * G) :
  bind m k g = Ok r -> exists a g1, m g = Ok (a, g1) /\ k a g1 = Ok r.
Proof.
  unfold bind. destruct (m g) as [[a g1]|e]; [|discriminate].
  intro H. now exists a, g1.
Qed.


Lemma lift_Ok_inv {G A} (r : result A) (g : G) (a : A) (g' : G) :
  lift r g = Ok (a, g') -> r = Ok a /\ g' = g.
Proof.
  unfold lift. destruct r; [|discriminate]. intro H. now inversion H.
Qed.

Section OffsetPreservation.
Context {F G : Type}.

Local Abbreviation tensor3 := (@tensor3 F).
Local Abbreviation MSPF := (@MultistreamPostFilter F G).
Local Abbreviation postfilter := (@postfilter F G).

Lemma forward_stages (self : MSPF) (x : tensor3) (lengths : option (list Z)) :
  MultistreamPostFilter_forward self x lengths
  = match unpack_streams (split_streams x (stream_sizes self)) with
    | Raise e => lift (Raise e)
    | Ok (mgc, lf0, vuv, bap, vib, vib_flags) =>
        bind (offset_stage (mgc_postfilter self) (mgc_offset self) mgc lengths)
          (fun mgc =>
        bind (offset_stage (bap_postfilter self) (bap_offset self) bap lengths)
          (fun bap =>
        bind (match lf0_postfilter self with
              | Some pf => pf lf0 lengths
              | None => ret lf0
              end)
          (fun lf0 =>
        match length (split_streams x (stream_sizes self)) with
        | 4 => lift (cat_last [mgc; lf0; vuv; bap])
        | 5 => lift (rbind (read_local "vib" vib) (fun vib =>
                     cat_last [mgc; lf0; vuv; bap; vib]))
        | 6 => lift (rbind (read_local "vib" vib) (fun vib =>
                     rbind (read_local "vib_flags" vib_flags) (fun vib_flags =>
                     cat_last [mgc; lf0; vuv; bap; vib; vib_flags])))
        | _ => lift (Raise (UnboundLocalError "out"))
        end)))
    end.
Proof. reflexivity. Qed.

Lemma offset_stage_frame (pfo : option postfilter) (off : Z) (s s' : tensor3)
    (lengths : option (list Z)) (g g1 : G) :
  offset_stage pfo off s lengths g = Ok (s', g1) ->
  forall pf, pfo = Some pf -> (0 < off)%Z ->
  Forall (Forall (fun r => Z.to_nat off <= length r)) s ->
  exists y,
    pf (slice_last3 (Some off) None s) lengths g = Ok (y, g1) /\
    cat_last [slice_last3 None (Some off) s; y] = Ok s' /\
    slice_last3 None (Some off) s' = slice_last3 None (Some off) s.
Proof.
  intros H pf -> Hoff Hs. unfold offset_stage in H.
  destruct (Z.ltb_spec 0 off) as [_|]; [|lia].
  apply bind_Ok_inv in H. destruct H as (y & g2 & Hpf & Hcat).
  apply lift_Ok_inv in Hcat. destruct Hcat as [Hcat ->].
  exists y. repeat split; try assumption.
  rewrite <- (Z2Nat.id off) in * by lia.
  rewrite Nat2Z.id in Hs. eapply cat_offset_prefix; eassumption.
Qed.

(** Every stream of a valid partition has exactly its configured width. *)
Lemma split_streams_widths (b t c : nat) (x : tensor3) (sizes : list Z)
    (start : Z) :
  shape3 b t c x ->
  (0 <= start)%Z ->
  Forall (fun s => (0 <= s)%Z) sizes ->
  (start + fold_right Z.add 0 sizes <= Z.of_nat c)%Z ->
  Forall2 (fun s size => Forall (Forall (fun r => length r = Z.to_nat size)) s)
          (split_streams_from start x sizes) sizes.
Proof.
  intros [_ Hx] Hstart Hpos. revert start Hstart.
  induction Hpos as [|s sizes Hs Hpos IH]; intros start Hstart Hsum;
    simpl in *; constructor.
  - assert (Hrest : (0 <= fold_right Z.add 0 sizes)%Z).
    { clear -Hpos. induction Hpos; simpl; lia. }
    unfold slice_last3. apply Forall_map.
    eapply Forall_impl; [|exact Hx]. intros m [_ Hm].
    apply Forall_map. eapply Forall_impl; [|exact Hm].
    intros r Hr. cbv beta in *.
    rewrite <- (Z2Nat.id start), <- (Z2Nat.id s) by lia.
    rewrite py_slice_window, length_firstn, length_skipn, !Z2Nat.id by lia.
    lia.
  - apply IH; lia.
Qed.

Lemma unpack_streams_inv (streams : list tensor3)
    (mgc lf0 vuv bap : tensor3) (vib vib_flags : option tensor3) :
  unpack_streams streams = Ok (mgc, lf0, vuv, bap, vib, vib_flags) ->
  (streams = [mgc; lf0; vuv; bap] /\ vib = None /\ vib_flags = None)
  \/ (exists v, streams = [mgc; lf0; v; bap; vuv] /\ vib = None)
  \/ (exists v w, streams = [mgc; lf0; vuv; bap; v; w]
                  /\ vib = Some v /\ vib_flags = Some w).
Proof.
  unfold unpack_streams.
  do 4 (destruct streams as [|? streams]; [discriminate|]).
  destruct streams as [|? streams].
  { intro H; inversion H; subst; auto. }
  destruct streams as [|? streams].
  { intro H; inversion H; subst; eauto. }
  destruct streams as [|? streams]; [|discriminate].
  intro H; inversion H; subst; eauto 8.
Qed.
End OffsetPreservation.

Section OffsetTheorem.
Context {F G : Type}.

Local Abbreviation tensor3 := (@tensor3 F).
Local Abbreviation MSPF := (@MultistreamPostFilter F G).

Lemma widths_at_least (n : nat) (off : Z) (s : tensor3) :
  (off <= Z.of_nat n)%Z ->
  Forall (Forall (fun r => length r = n)) s ->
  Forall (Forall (fun r => Z.to_nat off <= length r)) s.
Proof.
  intros Hoff Hs. eapply Forall_impl; [|exact Hs].
  intros m Hm. eapply Forall_impl; [|exact Hm].
  intros r Hr. cbv beta in *. lia.
Qed.

(** C5.  Whenever [forward] returns, the MGC and BAP streams of its
    output are [torch.cat([stream[:, :, :o], pf(stream[:, :, o:])])] for
    a configured offset [o > 0]: the assigned filter receives only the
    channels from [o] on, and the first [o] channels of the output
    stream are those of the input stream. *)
Theorem offset_channels_pass_through (self : MSPF) (b t c : nat)
    (x out : tensor3) (lengths : option (list Z)) (g g' : G) :
  shape3 b t c x ->
  Forall (fun s => (0 <= s)%Z) (stream_sizes self) ->
  fold_right Z.add 0%Z (stream_sizes self) = Z.of_nat c ->
  MultistreamPostFilter_forward self x lengths g = Ok (out, g') ->
  exists mgc lf0 vuv bap rest mgc' lf0' bap' g1,
    split_streams x (stream_sizes self) = mgc :: lf0 :: vuv :: bap :: rest /\
    cat_last (mgc' :: lf0' :: vuv :: bap' :: rest) = Ok out /\
    (forall pf, mgc_postfilter self = Some pf ->
       (0 < mgc_offset self <= nth 0 (stream_sizes self) 0)%Z ->
       exists y,
         pf (slice_last3 (Some (mgc_offset self)) None mgc) lengths g
           = Ok (y, g1) /\
         cat_last [slice_last3 None (Some (mgc_offset self)) mgc; y]
           = Ok mgc' /\
         slice_last3 None (Some (mgc_offset self)) mgc'
           = slice_last3 None (Some (mgc_offset self)) mgc) /\
    (forall pf, bap_postfilter self = Some pf ->
       (0 < bap_offset self <= nth 3 (stream_sizes self) 0)%Z ->
       exists y g2,
         pf (slice_last3 (Some (bap_offset self)) None bap) lengths g1
           = Ok (y, g2) /\
         cat_last [slice_last3 None (Some (bap_offset self)) bap; y]
           = Ok bap' /\
         slice_last3 None (Some (bap_offset self)) bap'
           = slice_last3 None (Some (bap_offset self)) bap).
Proof.
  intros Hx Hpos Hsum H.
  pose proof (@split_streams_widths F b t c x (stream_sizes self) 0%Z
                Hx ltac:(lia) Hpos ltac:(lia)) as Hw.
  fold (split_streams x (stream_sizes self)) in Hw.
  rewrite forward_stages in H.
  destruct (unpack_streams (split_streams x (stream_sizes self)))
    as [[[[[[mgc lf0] vuv] bap] vib] vibf]|e] eqn:Hu;
    [|apply lift_Ok_inv in H; destruct H; discriminate].
  apply bind_Ok_inv in H. destruct H as (mgc' & g1 & Hmgc & H).
  apply bind_Ok_inv in H. destruct H as (bap' & g2 & Hbap & H).
  apply bind_Ok_inv in H. destruct H as (lf0' & g3 & Hlf0 & H).
  apply unpack_streams_inv in Hu.
  destruct Hu as [(Hs & -> & ->) | [(v & Hs & ->) | (v & w & Hs & -> & ->)]];
    rewrite Hs in H, Hw; cbn [length read_local rbind] in H;
    apply lift_Ok_inv in H; destruct H as [H ->]; try discriminate.
  - inversion Hw as [|? s0 ? l0 Wmgc Hw1 E1 E2]; subst.
    inversion Hw1 as [|? s1 ? l1 _ Hw2]; subst.
    inversion Hw2 as [|? s2 ? l2 _ Hw3]; subst.
    inversion Hw3 as [|? s3 ? l3 Wbap Hw4]; subst.
    exists mgc, lf0, vuv, bap, [], mgc', lf0', bap', g1.
    rewrite <- E2 in *. cbn [nth].
    repeat split; try assumption.
    + intros pf Hpf [Hlo Hhi].
      eapply offset_stage_frame; try eassumption.
      apply (@widths_at_least (Z.to_nat s0)); [lia | assumption].
    + intros pf Hpf [Hlo Hhi].
      edestruct (@offset_stage_frame F G) as (y & Hy);
        [exact Hbap | exact Hpf | exact Hlo | | now exists y, g2].
      apply (@widths_at_least (Z.to_nat s3)); [lia | assumption].
  - inversion Hw as [|? s0 ? l0 Wmgc Hw1 E1 E2]; subst.
    inversion Hw1 as [|? s1 ? l1 _ Hw2]; subst.
    inversion Hw2 as [|? s2 ? l2 _ Hw3]; subst.
    inversion Hw3 as [|? s3 ? l3 Wbap Hw4]; subst.
    exists mgc, lf0, vuv, bap, [v; w], mgc', lf0', bap', g1.
    rewrite <- E2 in *. cbn [nth].
    repeat split; try assumption.
    + intros pf Hpf [Hlo Hhi].
      eapply offset_stage_frame; try eassumption.
      apply (@widths_at_least (Z.to_nat s0)); [lia | assumption].
    + intros pf Hpf [Hlo Hhi].
      edestruct (@offset_stage_frame F G) as (y & Hy);
        [exact Hbap | exact Hpf | exact Hlo | | now exists y, g2].
      apply (@widths_at_least (Z.to_nat s3)); [lia | assumption].
Qed.
End OffsetTheorem.

(** ** Independence of [lengths] *)

Lemma bind_ext {G A B} (m1 m2 : M G A) (k1 k2 : A -> M G B) (g : G) :
  m1 g = m2 g -> (forall a g', k1 a g' = k2 a g') ->
  bind m1 k1 g = bind m2 k2 g.
Proof.
  intros Hm Hk. unfold bind. rewrite Hm.
  destruct (m2 g) as [[a g']|e]; [apply Hk | reflexivity].
Qed.

Section LengthsUnused.
Context {F G : Type} {SF : Scalar F} {RS : RandomSource G F}.

Local Abbreviation postfilter := (@postfilter F G).

Lemma offset_stage_lengths (pfo : option postfilter) (off : Z)
    (s : @tensor3 F) (l1 l2 : option (list Z)) (g : G) :
  (forall pf, pfo = Some pf -> lengths_blind pf) ->
  offset_stage pfo off s l1 g = offset_stage pfo off s l2 g.
Proof.
  intros H. unfold offset_stage. destruct pfo as [pf|]; [|reflexivity].
  specialize (H pf eq_refl).
  destruct (0 <? off)%Z; [|apply H].
  apply bind_ext; [apply H | reflexivity].
Qed.

Lemma MultistreamPostFilter_lengths (self : @MultistreamPostFilter F G) :
  (forall pf, mgc_postfilter self = Some pf -> lengths_blind pf) ->
  (forall pf, bap_postfilter self = Some pf -> lengths_blind pf) ->
  (forall pf, lf0_postfilter self = Some pf -> lengths_blind pf) ->
  lengths_blind (MultistreamPostFilter_forward self).
Proof.
  intros Hmgc Hbap Hlf0 x l1 l2 g. rewrite !forward_stages.
  destruct (unpack_streams (split_streams x (stream_sizes self)))
    as [[[[[[mgc lf0] vuv] bap] vib] vibf]|e]; [|reflexivity].
  apply bind_ext; [now apply offset_stage_lengths|]. intros mgc' g1.
  apply bind_ext; [now apply offset_stage_lengths|]. intros bap' g2.
  apply bind_ext; [|reflexivity].
  destruct (lf0_postfilter self) as [pf|]; [|reflexivity].
  now apply Hlf0.
Qed.

Lemma model_forward_lengths (m : @model F) : lengths_blind (model_forward m).
Proof.
  revert m. fix IH 1. intros [f|f|f|mgc bap lf0 sizes mo bo].
  - intros x l1 l2 g. reflexivity.
  - intros x l1 l2 g. reflexivity.
  - intros x l1 l2 g. reflexivity.
  - cbn [model_forward]. apply MultistreamPostFilter_lengths;
      cbn [mgc_postfilter bap_postfilter lf0_postfilter]; intros pf Hpf.
    + destruct mgc as [f|]; [|discriminate].
      inversion Hpf. apply IH.
    + destruct bap as [f|]; [|discriminate].
      inversion Hpf. apply IH.
    + destruct lf0 as [f|]; [|discriminate].
      inversion Hpf. apply IH.
Qed.

(** C9.  The forward pass of every model built from [Conv1dPostFilter],
    [Conv2dPostFilter], [MultistreamConv2dPostFilter] and
    [MultistreamPostFilter] is independent of [lengths]: two calls that
    differ only in [lengths] ([None] or any vector) give the same
    result, from the same generator state. *)
Theorem forward_ignores_lengths (m : @model F) (x : @tensor3 F)
    (l1 l2 : option (list Z)) (g : G) :
  model_forward m x l1 g = model_forward m x l2 g.
Proof. apply model_forward_lengths. Qed.
End LengthsUnused.

(** ** Determinism without noise *)

Lemma output_bind {G A B} (m : M G A) (k : A -> M G B) (g1 g2 : G) :
  output (m g1) = output (m g2) ->
  (forall a h1 h2, output (k a h1) = output (k a h2)) ->
  output (bind m k g1) = output (bind m k g2).
Proof.
  intros Hm Hk. unfold bind.
  destruct (m g1) as [[a1 h1]|e1], (m g2) as [[a2 h2]|e2];
    simpl in Hm; inversion Hm; subst; [apply Hk | reflexivity].
Qed.

Lemma output_bind_any {G A B} (m : M G A) (k : A -> M G B) (g1 g2 : G) :
  failure (m g1) = failure (m g2) ->
  (forall a1 a2 h1 h2, output (k a1 h1) = output (k a2 h2)) ->
  output (bind m k g1) = output (bind m k g2).
Proof.
  intros Hm Hk. unfold bind.
  destruct (m g1) as [[a1 h1]|e1], (m g2) as [[a2 h2]|e2];
    simpl in Hm; inversion Hm; subst; [apply Hk | reflexivity].
Qed.

Lemma output_lift {G A} (r : result A) (g1 g2 : G) :
  output (lift r g1) = output (lift r g2).
Proof. now destruct r. Qed.

Lemma failure_mapR {A B} (R : A -> A -> Prop) (f : A -> result B)
    (l1 l2 : list A) :
  Forall2 R l1 l2 ->
  (forall a b, R a b -> failure (f a) = failure (f b)) ->
  failure (mapR f l1) = failure (mapR f l2).
Proof.
  intros H Hf. induction H as [|a b l1 l2 Hab _ IH]; simpl; [reflexivity|].
  specialize (Hf a b Hab).
  destruct (f a), (f b); simpl in Hf; try discriminate; [|exact Hf].
  destruct (mapR f l1), (mapR f l2); simpl in IH; try discriminate;
    [reflexivity | exact IH].
Qed.

Lemma Forall2_map_both {A B} (R : A -> A -> Prop) (R' : B -> B -> Prop)
    (h : A -> B) (l1 l2 : list A) :
  Forall2 R l1 l2 -> (forall a b, R a b -> R' (h a) (h b)) ->
  Forall2 R' (map h l1) (map h l2).
Proof. induction 1; simpl; constructor; auto. Qed.

Section DrawShapes.
Context {F G : Type} {RS : RandomSource G F}.

Lemma draw_n_Forall2 {A} (R : A -> A -> Prop) (draw : G -> A * G) (n : nat) :
  (forall g1 g2, R (fst (draw g1)) (fst (draw g2))) ->
  forall g1 g2, Forall2 R (fst (draw_n draw n g1)) (fst (draw_n draw n g2)).
Proof.
  intros Hd. induction n as [|n IH]; intros g1 g2; simpl; [constructor|].
  specialize (Hd g1 g2).
  destruct (draw g1) as [a1 h1], (draw g2) as [a2 h2].
  specialize (IH h1 h2).
  destruct (draw_n draw n h1), (draw_n draw n h2). simpl in *.
  now constructor.
Qed.

Lemma length_draw_n {A} (draw : G -> A * G) (n : nat) (g : G) :
  length (fst (draw_n draw n g)) = n.
Proof.
  revert g. induction n as [|n IH]; intro g; simpl; [reflexivity|].
  destruct (draw g) as [a h]. specialize (IH h).
  destruct (draw_n draw n h). simpl in *. now rewrite IH.
Qed.
End DrawShapes.

Section Determinism.
Context {F G : Type} {SF : Scalar F} {RS : RandomSource G F}.

Lemma randn4_same_shape (b c h w : nat) (g1 g2 : G) :
  same_shape4 (fst (randn4 b c h w g1)) (fst (randn4 b c h w g2)).
Proof.
  unfold same_shape4, randn4, randn3.
  apply draw_n_Forall2. intros. apply draw_n_Forall2.
  intros. apply draw_n_Forall2. intros.
  unfold same_length1. now rewrite !length_draw_n.
Qed.

Lemma failure_Linear_forward4 (fc : @Linear F) (s : F) (z1 z2 : @tensor4 F) :
  same_shape4 z1 z2 ->
  failure (Linear_forward4 fc (scale4 z1 s))
  = failure (Linear_forward4 fc (scale4 z2 s)).
Proof.
  intros H. unfold Linear_forward4.
  apply (failure_mapR (R := Forall2 (Forall2 same_length1))).
  { unfold scale4, scale3.
    apply (Forall2_map_both (R := Forall2 (Forall2 same_length1)));
      [exact H|]. intros a b Hab.
    apply (Forall2_map_both (R := Forall2 same_length1));
      [exact Hab|]. intros a' b' Hab'.
    apply (Forall2_map_both (R := same_length1)); [exact Hab'|].
    intros r1 r2 Hr. unfold same_length1 in *. now rewrite !length_map. }
  intros a b Hab. eapply failure_mapR; [exact Hab|].
  intros a' b' Hab'. eapply failure_mapR; [exact Hab'|].
  intros r1 r2 Hr. unfold same_length1 in Hr. unfold Linear_row. rewrite Hr.
  now destruct (Nat.eqb _ _).
Qed.

Lemma Conv1dPostFilter_draw_blind (f : @Conv1dPostFilter F) :
  p1_use_noise f = false -> draw_blind (Conv1dPostFilter_forward (G := G) f).
Proof.
  intros Hn x l g1 g2. unfold Conv1dPostFilter_forward. rewrite Hn.
  apply output_bind; [apply output_lift|].
  intros. apply output_lift.
Qed.

Lemma Conv2dPostFilter_draw_blind (f : @Conv2dPostFilter F) :
  p2_use_noise f = false -> draw_blind (Conv2dPostFilter_forward (G := G) f).
Proof.
  intros Hn x l g1 g2. unfold Conv2dPostFilter_forward. rewrite Hn.
  apply output_bind_any.
  - destruct (String.eqb (p2_noise_type f) "bin_wise").
    { unfold bind, sample, ret.
      now destruct (randn_like4 _ g1), (randn_like4 _ g2). }
    destruct (String.eqb (p2_noise_type f) "frame_wise"); [|reflexivity].
    destruct (p2_fc f) as [fc|].
    2:{ unfold bind, sample, lift.
        now destruct (randn4 _ _ _ _ g1), (randn4 _ _ _ _ g2). }
    pose proof (failure_Linear_forward4 fc (p2_scale f)
      (randn4_same_shape (length (unsqueeze1 x)) 1
         (height3 (hd [] (unsqueeze1 x))) 1 g1 g2)) as Hfc.
    unfold bind, sample, lift, ret.
    destruct (randn4 _ _ _ _ g1) as [z1 h1], (randn4 _ _ _ _ g2) as [z2 h2].
    cbn [fst] in Hfc.
    now destruct (Linear_forward4 fc (scale4 z1 (p2_scale f))),
                 (Linear_forward4 fc (scale4 z2 (p2_scale f))).
  - intros. unfold bind, ret, lift. now destruct (rbind _ _).
Qed.
End Determinism.

Section DeterminismOfModels.
Context {F G : Type} {SF : Scalar F} {RS : RandomSource G F}.

Local Abbreviation postfilter := (@postfilter F G).

Lemma offset_stage_draw_blind (pfo : option postfilter) (off : Z)
    (s : @tensor3 F) (l : option (list Z)) (g1 g2 : G) :
  (forall pf, pfo = Some pf -> draw_blind pf) ->
  output (offset_stage pfo off s l g1) = output (offset_stage pfo off s l g2).
Proof.
  intros H. unfold offset_stage. destruct pfo as [pf|]; [|reflexivity].
  specialize (H pf eq_refl).
  destruct (0 <? off)%Z; [|apply H].
  apply output_bind; [apply H|]. intros. apply output_lift.
Qed.

Lemma MultistreamPostFilter_draw_blind (self : @MultistreamPostFilter F G) :
  (forall pf, mgc_postfilter self = Some pf -> draw_blind pf) ->
  (forall pf, bap_postfilter self = Some pf -> draw_blind pf) ->
  (forall pf, lf0_postfilter self = Some pf -> draw_blind pf) ->
  draw_blind (MultistreamPostFilter_forward self).
Proof.
  intros Hmgc Hbap Hlf0 x l g1 g2. rewrite !forward_stages.
  destruct (unpack_streams (split_streams x (stream_sizes self)))
    as [[[[[[mgc lf0] vuv] bap] vib] vibf]|e]; [|reflexivity].
  apply output_bind; [now apply offset_stage_draw_blind|]. intros mgc' h1 h2.
  apply output_bind; [now apply offset_stage_draw_blind|]. intros bap' k1 k2.
  apply output_bind.
  - destruct (lf0_postfilter self) as [pf|]; [|reflexivity].
    now apply Hlf0.
  - intros lf0' m1 m2.
    destruct (length (split_streams x (stream_sizes self)))
      as [|[|[|[|[|[|[|n]]]]]]]; apply output_lift.
Qed.

Lemma model_draw_blind (m : @model F) :
  noise_disabled m = true -> draw_blind (model_forward (G := G) m).
Proof.
  revert m. fix IH 1. intros [f|f|f|mgc bap lf0 sizes mo bo] Hm;
    cbn [noise_disabled] in Hm.
  - apply Conv1dPostFilter_draw_blind. now destruct (p1_use_noise f).
  - apply Conv2dPostFilter_draw_blind. now destruct (p2_use_noise f).
  - discriminate.
  - apply andb_prop in Hm. destruct Hm as [Hm Hlf0].
    apply andb_prop in Hm. destruct Hm as [Hmgc Hbap].
    cbn [model_forward]. apply MultistreamPostFilter_draw_blind;
      cbn [mgc_postfilter bap_postfilter lf0_postfilter]; intros pf Hpf.
    + destruct mgc as [f|]; [|discriminate].
      inversion Hpf. now apply IH.
    + destruct bap as [f|]; [|discriminate].
      inversion Hpf. now apply IH.
    + destruct lf0 as [f|]; [|discriminate].
      inversion Hpf. now apply IH.
Qed.

(** C8.  With noise injection disabled ([use_noise=False] in the
    [Conv1dPostFilter] or [Conv2dPostFilter], alone or under a stream
    orchestrator) and fixed weights, two forward passes on the same
    input return the same output (or raise the same exception)
    whatever the states of the random number generator are. *)
Theorem forward_deterministic_without_noise (m : @model F) (x : @tensor3 F)
    (lengths : option (list Z)) (g1 g2 : G) :
  noise_disabled m = true ->
  output (model_forward m x lengths g1) = output (model_forward m x lengths g2).
Proof. intros Hm. now apply model_draw_blind. Qed.
End DeterminismOfModels.

(** ** Configuration checks of the constructors *)

Section Construction.
Context {F : Type} {SF : Scalar F}.
Variable init_weights : string -> params F.

(** The one-dimensional filter rejects modulation without noise,
    whatever the other arguments are. *)
Lemma Conv1dPostFilter_init_tadn_needs_noise (a : Conv1dPostFilter_args) :
  a1_use_tadn a = true -> a1_use_noise a = false ->
  exists e, Conv1dPostFilter_init init_weights a = Raise e.
Proof.
  intros Ht Hn. unfold Conv1dPostFilter_init. rewrite Ht, Hn.
  do 4 match goal with
       | |- exists e, rbind ?r _ = Raise e =>
           destruct r; cbn [rbind]; [|eexists; reflexivity]
       end.
  destruct (a1_in_dim a); cbn; eexists; reflexivity.
Qed.

(** The two-dimensional filter rejects modulation with frame-wise
    noise, whatever the other arguments are. *)
Lemma Conv2dPostFilter_init_tadn_needs_bin_wise (a : Conv2dPostFilter_args) :
  a2_use_tadn a = true -> a2_noise_type a = "frame_wise"%string ->
  exists e, Conv2dPostFilter_init init_weights a = Raise e.
Proof.
  intros Ht Hn. unfold Conv2dPostFilter_init. rewrite Ht, Hn.
  destruct (py_assert _ _); cbn [rbind]; [|eexists; reflexivity].
  do 4 match goal with
       | |- exists e, rbind ?r _ = Raise e =>
           destruct r; cbn [rbind]; [|eexists; reflexivity]
       end.
  destruct (a2_in_dim a); cbn; eexists; reflexivity.
Qed.

(** C3 (failing path).  [Conv2dPostFilter(in_dim=60, use_noise=False,
    use_tadn=True)], all other arguments at their defaults, is
    constructed without an error: the two-dimensional filter has no
    check that modulation comes with noise injection.  The module holds
    a modulator that its forward pass never calls. *)
Theorem Conv2dPostFilter_init_accepts_tadn_without_noise (scale : F) :
  exists m,
    Conv2dPostFilter_init init_weights
      {| a2_in_dim := Some 60%Z;
         a2_channels := 128%Z;
         a2_kernel_size := [5%Z; 5%Z];
         a2_use_noise := false;
         a2_use_tadn := true;
         a2_residual := true;
         a2_init_type := "kaiming_normal";
         a2_scale := scale;
         a2_noise_type := "bin_wise";
         a2_padding_mode := "zeros" |} = Ok m
    /\ p2_use_noise m = false
    /\ is_some (p2_tadn m) = true.
Proof. eexists. repeat split. Qed.
End Construction.

(** ** Shapes through the layers *)

Lemma mapR_Ok_Forall {A B} (P : A -> Prop) (Q : B -> Prop) (f : A -> result B)
    (l : list A) :
  Forall P l ->
  (forall a, P a -> exists b, f a = Ok b /\ Q b) ->
  exists l', mapR f l = Ok l' /\ length l' = length l /\ Forall Q l'.
Proof.
  intros Hl Hf. induction Hl as [|a l Ha _ IH]; simpl.
  - exists []. now repeat split.
  - destruct (Hf a Ha) as (b & -> & Hb).
    destruct IH as (l' & -> & Hlen & HQ).
    exists (b :: l'). simpl. repeat split; [congruence | now constructor].
Qed.

Lemma zipR_Ok_Forall {A B C} (P : A -> Prop) (Q : B -> Prop) (S : C -> Prop)
    (f : A -> B -> result C) (la : list A) (lb : list B) :
  length la = length lb ->
  Forall P la -> Forall Q lb ->
  (forall a b, P a -> Q b -> exists c, f a b = Ok c /\ S c) ->
  exists lc, zipR f la lb = Ok lc /\ length lc = length la /\ Forall S lc.
Proof.
  intros Hlen Ha. revert lb Hlen.
  induction Ha as [|a la Pa _ IH]; intros [|b lb] Hlen Hb Hf;
    simpl in Hlen; try discriminate.
  - exists []. now repeat split.
  - inversion Hb; subst. simpl.
    destruct (Hf a b) as (c & -> & Hc); try assumption.
    destruct (IH lb) as (lc & -> & Hl & HS); try assumption; [congruence|].
    exists (c :: lc). simpl. repeat split; [congruence | now constructor].
Qed.

Lemma bzipR_same_length {A B C} (f : A -> B -> result C) (la : list A)
    (lb : list B) :
  length la = length lb -> bzipR f la lb = zipR f la lb.
Proof. intro H. unfold bzipR. rewrite H, Nat.eqb_refl. reflexivity. Qed.

Section Shapes.
Context {F : Type} {SF : Scalar F}.

Local Abbreviation tensor2 := (@tensor2 F).
Local Abbreviation tensor3 := (@tensor3 F).
Local Abbreviation tensor4 := (@tensor4 F).

Lemma shape2_width (h w : nat) (m : tensor2) :
  shape2 h w m -> 0 < h -> width2 m = w.
Proof.
  intros [Hh Hw] Hpos. unfold width2. destruct m as [|r m]; simpl in *;
    [lia|]. now inversion Hw.
Qed.

Lemma shape3_height (c h w : nat) (x : tensor3) :
  shape3 c h w x -> 0 < c -> height3 x = h.
Proof.
  intros [Hc Hx] Hpos. unfold height3. destruct x as [|m x]; simpl in *;
    [lia|]. inversion Hx as [|? ? [Hm _] _]. exact Hm.
Qed.

Lemma shape3_width (c h w : nat) (x : tensor3) :
  shape3 c h w x -> 0 < c -> 0 < h -> width3 x = w.
Proof.
  intros [Hc Hx] Hpos Hh. unfold width3. destruct x as [|m x]; simpl in *;
    [lia|]. inversion Hx as [|? ? Hm _]. eapply shape2_width; eassumption.
Qed.

Lemma shape2_map (h w w' : nat) (k : list F -> list F) (m : tensor2) :
  shape2 h w m -> (forall r, length r = w -> length (k r) = w') ->
  shape2 h w' (map k m).
Proof.
  intros [Hh Hw] Hk. split; [now rewrite length_map|].
  apply Forall_map. eapply Forall_impl; [|exact Hw]. exact Hk.
Qed.

Lemma shape3_map (b h w h' w' : nat) (k : tensor2 -> tensor2) (x : tensor3) :
  shape3 b h w x -> (forall m, shape2 h w m -> shape2 h' w' (k m)) ->
  shape3 b h' w' (map k x).
Proof.
  intros [Hb Hx] Hk. split; [now rewrite length_map|].
  apply Forall_map. eapply Forall_impl; [|exact Hx]. exact Hk.
Qed.

Lemma shape4_map (b c h w c' h' w' : nat) (k : tensor3 -> tensor3)
    (x : tensor4) :
  shape4 b c h w x -> (forall m, shape3 c h w m -> shape3 c' h' w' (k m)) ->
  shape4 b c' h' w' (map k x).
Proof.
  intros [Hb Hx] Hk. split; [now rewrite length_map|].
  apply Forall_map. eapply Forall_impl; [|exact Hx]. exact Hk.
Qed.

Lemma shape3_pointwise (b h w : nat) (k : F -> F) (x : tensor3) :
  shape3 b h w x -> shape3 b h w (map (map (map k)) x).
Proof.
  intro H. eapply shape3_map; [exact H|]. intros m Hm.
  eapply shape2_map; [exact Hm|]. intros r Hr. now rewrite length_map.
Qed.

Lemma shape4_pointwise (b c h w : nat) (k : F -> F) (x : tensor4) :
  shape4 b c h w x -> shape4 b c h w (map (map (map (map k))) x).
Proof.
  intro H. eapply shape4_map; [exact H|]. intros m Hm.
  now apply shape3_pointwise.
Qed.

Lemma shape4_relu (b c h w : nat) (x : tensor4) :
  shape4 b c h w x -> shape4 b c h w (relu4 x).
Proof. apply shape4_pointwise. Qed.


Lemma shape3_scale (b h w : nat) (x : tensor3) (s : F) :
  shape3 b h w x -> shape3 b h w (scale3 x s).
Proof. apply shape3_pointwise. Qed.

Lemma shape4_unsqueeze1 (b h w : nat) (x : tensor3) :
  shape3 b h w x -> shape4 b 1 h w (unsqueeze1 x).
Proof.
  intros [Hb Hx]. split; [unfold unsqueeze1; now rewrite length_map|].
  apply Forall_map. eapply Forall_impl; [|exact Hx].
  intros m Hm. split; [reflexivity | now constructor].
Qed.

End Shapes.

Section PaddingShapes.
Context {A : Type}.

Lemma In_firstn (n : nat) (x : A) (l : list A) : In x (firstn n l) -> In x l.
Proof.
  intro H. rewrite <- (firstn_skipn n l). apply in_or_app. now left.
Qed.

Lemma In_tl (x : A) (l : list A) : In x (tl l) -> In x l.
Proof. destruct l; simpl; auto. Qed.

Lemma Forall_last (P : A -> Prop) (l : list A) (d : A) :
  Forall P l -> l <> [] -> P (last l d).
Proof.
  intros H Hne. rewrite (app_removelast_last d Hne) in H.
  apply Forall_app in H. destruct H as [_ H]. now inversion H.
Qed.

Lemma reflect_pad_Ok (l r : nat) (xs : list A) :
  l < length xs -> r < length xs ->
  reflect_pad l r xs
  = Ok (rev (firstn l (tl xs)) ++ xs ++ firstn r (tl (rev xs))).
Proof.
  intros Hl Hr. unfold reflect_pad.
  destruct (Nat.ltb_spec l (length xs)); [|lia].
  destruct (Nat.ltb_spec r (length xs)); [|lia]. reflexivity.
Qed.

Lemma length_tl (xs : list A) : length (tl xs) = length xs - 1.
Proof. destruct xs; simpl; lia. Qed.

Lemma pad_axis_length (mode : padding_mode) (l r : nat) (zero : A)
    (xs : list A) :
  pad_fits mode l r (length xs) = true ->
  exists ys, pad_axis mode l r zero xs = Ok ys
             /\ length ys = l + length xs + r.
Proof.
  intros Hfit. destruct mode; simpl in *.
  - eexists. split; [reflexivity|].
    rewrite !length_app, !repeat_length. lia.
  - apply andb_prop in Hfit. destruct Hfit as [Hl Hr].
    apply Nat.ltb_lt in Hl, Hr. rewrite reflect_pad_Ok by assumption.
    eexists. split; [reflexivity|].
    rewrite !length_app, length_rev, !length_firstn, !length_tl, length_rev.
    lia.
  - apply Nat.ltb_lt in Hfit. destruct xs as [|x0 xs]; [simpl in Hfit; lia|].
    eexists. split; [reflexivity|].
    rewrite !length_app, !repeat_length. lia.
  - rewrite Hfit. apply andb_prop in Hfit. destruct Hfit as [Hl Hr].
    apply Nat.leb_le in Hl, Hr.
    eexists. split; [reflexivity|].
    rewrite !length_app, length_skipn, length_firstn. lia.
Qed.

Lemma pad_axis_elements (mode : padding_mode) (l r : nat) (zero : A)
    (xs ys : list A) :
  pad_axis mode l r zero xs = Ok ys ->
  forall y, In y ys -> y = zero \/ In y xs.
Proof.
  intros H y Hy. destruct mode; cbn [pad_axis] in H.
  - inversion H; subst ys.
    apply in_app_or in Hy. destruct Hy as [Hy|Hy];
      [left; now apply repeat_spec in Hy|].
    apply in_app_or in Hy. destruct Hy as [Hy|Hy];
      [now right | left; now apply repeat_spec in Hy].
  - unfold reflect_pad in H. destruct (_ && _); [|discriminate].
    inversion H; subst ys. right.
    apply in_app_or in Hy. destruct Hy as [Hy|Hy].
    { apply (proj2 (in_rev _ _)) in Hy. now apply In_firstn, In_tl in Hy. }
    apply in_app_or in Hy. destruct Hy as [Hy|Hy]; [assumption|].
    apply In_firstn, In_tl in Hy. now apply (proj2 (in_rev _ _)) in Hy.
  - destruct xs as [|x0 xs]; [discriminate|].
    inversion H; subst ys. right.
    apply in_app_or in Hy. destruct Hy as [Hy|Hy].
    { apply repeat_spec in Hy. subst y. now left. }
    destruct Hy as [->|Hy]; [now left|].
    apply in_app_or in Hy. destruct Hy as [Hy|Hy]; [now right|].
    apply repeat_spec in Hy. subst y.
    destruct xs as [|x1 xs]; [now left|]. right.
    apply (Forall_last (P := fun a => In a (x1 :: xs))); [|discriminate].
    now apply Forall_forall.
  - destruct (_ && _); [|discriminate].
    inversion H; subst ys. right.
    apply in_app_or in Hy. destruct Hy as [Hy|Hy].
    { rewrite <- (firstn_skipn (length xs - l) xs).
      apply in_or_app. now right. }
    apply in_app_or in Hy. destruct Hy as [Hy|Hy]; [assumption|].
    now apply In_firstn in Hy.
Qed.
End PaddingShapes.

Section ConvShapes.
Context {F : Type} {SF : Scalar F}.

Local Abbreviation tensor2 := (@tensor2 F).
Local Abbreviation tensor3 := (@tensor3 F).
Local Abbreviation tensor4 := (@tensor4 F).

Lemma pad2d_shape (mode : padding_mode) (pl pr pt pb h w : nat) (m : tensor2) :
  shape2 h w m -> 0 < h ->
  pad_fits mode pl pr w = true -> pad_fits mode pt pb h = true ->
  exists m', pad2d mode pl pr pt pb m = Ok m'
             /\ shape2 (pt + h + pb) (pl + w + pr) m'.
Proof.
  intros Hm Hh Hw Ht. pose proof (shape2_width Hm Hh) as Hwid.
  destruct Hm as [Hlen Hrows]. unfold pad2d. flatten_tensors.
  destruct (@mapR_Ok_Forall _ _ (fun r : list F => length r = w)
              (fun r : list F => length r = pl + w + pr)
              (pad_axis mode pl pr fzero) m Hrows) as (rows & -> & Hl & Hr).
  { intros r Hr. rewrite <- Hr. apply pad_axis_length. now rewrite Hr. }
  cbn [rbind]. rewrite Hwid.
  destruct (pad_axis_length mode pt pb (repeat fzero (pl + w + pr)) rows)
    as (m' & Hm' & Hlen').
  { now rewrite Hl, Hlen. }
  exists m'. split; [exact Hm'|].
  split; [flatten_tensors; rewrite Hlen'; lia|].
  unfold rows_of_width. apply Forall_forall. intros r Hin.
  destruct (pad_axis_elements _ _ _ _ _ Hm' r Hin) as [->|Hin'].
  - apply repeat_length.
  - now apply (proj1 (Forall_forall _ _) Hr).
Qed.
End ConvShapes.

Section Conv2dShapes.
Context {F : Type} {SF : Scalar F}.

Local Abbreviation tensor2 := (@tensor2 F).
Local Abbreviation tensor3 := (@tensor3 F).
Local Abbreviation tensor4 := (@tensor4 F).

Lemma shape3_grid (c h w : nat) (k : nat -> nat -> nat -> F) :
  shape3 c h w
    (map (fun o => map (fun i => map (fun j => k o i j) (seq 0 w)) (seq 0 h))
         (seq 0 c)).
Proof.
  split; [now rewrite length_map, length_seq|].
  apply Forall_map, Forall_forall. intros o _.
  split; [now rewrite length_map, length_seq|].
  apply Forall_map, Forall_forall. intros i _.
  now rewrite length_map, length_seq.
Qed.

Lemma Conv2d_item_shape (l : @Conv2d F) (c h w : nat) (x : tensor3) :
  shape3 c h w x ->
  c2_in l = c -> 0 < c -> 0 < h ->
  (0 <= c2_ph l)%Z -> (0 <= c2_pw l)%Z ->
  pad_fits (c2_mode l) (Z.to_nat (c2_pw l)) (Z.to_nat (c2_pw l)) w = true ->
  pad_fits (c2_mode l) (Z.to_nat (c2_ph l)) (Z.to_nat (c2_ph l)) h = true ->
  0 < c2_kh l <= h + 2 * Z.to_nat (c2_ph l) ->
  0 < c2_kw l <= w + 2 * Z.to_nat (c2_pw l) ->
  exists y, Conv2d_item l x = Ok y
            /\ shape3 (c2_out l)
                      (h + 2 * Z.to_nat (c2_ph l) - c2_kh l + 1)
                      (w + 2 * Z.to_nat (c2_pw l) - c2_kw l + 1) y.
Proof.
  intros Hx Hin Hc Hh Hph Hpw Hfw Hfh Hkh Hkw.
  unfold Conv2d_item.
  destruct Hx as [Hlen Hch]. flatten_tensors.
  rewrite Hin, Hlen, Nat.eqb_refl. cbn [negb].
  destruct (Z.ltb_spec (c2_ph l) 0); [lia|].
  destruct (Z.ltb_spec (c2_pw l) 0); [lia|]. cbn [orb]. cbv zeta.
  set (ph := Z.to_nat (c2_ph l)) in *. set (pw := Z.to_nat (c2_pw l)) in *.
  destruct (@mapR_Ok_Forall _ _ (shape2 h w)
              (shape2 (ph + h + ph) (pw + w + pw))
              (pad2d (c2_mode l) pw pw ph ph) x Hch)
    as (padded & Hpd & Hpl & Hpad).
  { intros m Hm. now apply pad2d_shape. }
  flatten_tensors. rewrite Hpd. cbn [rbind].
  assert (Hp : shape3 c (ph + h + ph) (pw + w + pw) padded).
  { split; [flatten_tensors; congruence | exact Hpad]. }
  rewrite (shape3_height Hp Hc), (shape3_width Hp Hc) by lia.
  destruct (Nat.ltb_spec (ph + h + ph) (c2_kh l)); [lia|].
  destruct (Nat.ltb_spec (pw + w + pw) (c2_kw l)); [lia|].
  destruct (Nat.eqb_spec (c2_kh l) 0); [lia|].
  destruct (Nat.eqb_spec (c2_kw l) 0); [lia|]. cbn [orb].
  eexists. split; [reflexivity|].
  replace (h + 2 * ph - c2_kh l + 1) with (ph + h + ph - c2_kh l + 1) by lia.
  replace (w + 2 * pw - c2_kw l + 1) with (pw + w + pw - c2_kw l + 1) by lia.
  apply shape3_grid.
Qed.

Lemma Conv2d_forward_shape (l : @Conv2d F) (b c h w : nat) (x : tensor4) :
  shape4 b c h w x ->
  c2_in l = c -> 0 < c -> 0 < h ->
  (0 <= c2_ph l)%Z -> (0 <= c2_pw l)%Z ->
  pad_fits (c2_mode l) (Z.to_nat (c2_pw l)) (Z.to_nat (c2_pw l)) w = true ->
  pad_fits (c2_mode l) (Z.to_nat (c2_ph l)) (Z.to_nat (c2_ph l)) h = true ->
  0 < c2_kh l <= h + 2 * Z.to_nat (c2_ph l) ->
  0 < c2_kw l <= w + 2 * Z.to_nat (c2_pw l) ->
  exists y, Conv2d_forward l x = Ok y
            /\ shape4 b (c2_out l)
                      (h + 2 * Z.to_nat (c2_ph l) - c2_kh l + 1)
                      (w + 2 * Z.to_nat (c2_pw l) - c2_kw l + 1) y.
Proof.
  intros [Hb Hx] Hin Hc Hh Hph Hpw Hfw Hfh Hkh Hkw.
  unfold Conv2d_forward.
  destruct (@mapR_Ok_Forall _ _ (shape3 c h w)
              (shape3 (c2_out l)
                      (h + 2 * Z.to_nat (c2_ph l) - c2_kh l + 1)
                      (w + 2 * Z.to_nat (c2_pw l) - c2_kw l + 1))
              (Conv2d_item l) x Hx) as (y & Hy & Hlen & HQ).
  { intros m Hm. apply Conv2d_item_shape with (c := c); assumption. }
  exists y. split; [exact Hy|]. split; [flatten_tensors; congruence | exact HQ].
Qed.

Lemma Conv2d_relu_shape (l : @Conv2d F) (b c h w : nat) (x : tensor4) :
  shape4 b c h w x ->
  c2_in l = c -> 0 < c -> 0 < h ->
  (0 <= c2_ph l)%Z -> (0 <= c2_pw l)%Z ->
  pad_fits (c2_mode l) (Z.to_nat (c2_pw l)) (Z.to_nat (c2_pw l)) w = true ->
  pad_fits (c2_mode l) (Z.to_nat (c2_ph l)) (Z.to_nat (c2_ph l)) h = true ->
  0 < c2_kh l <= h + 2 * Z.to_nat (c2_ph l) ->
  0 < c2_kw l <= w + 2 * Z.to_nat (c2_pw l) ->
  exists y, Conv2d_relu l x = Ok y
            /\ shape4 b (c2_out l)
                      (h + 2 * Z.to_nat (c2_ph l) - c2_kh l + 1)
                      (w + 2 * Z.to_nat (c2_pw l) - c2_kw l + 1) y.
Proof.
  intros. unfold Conv2d_relu.
  destruct (@Conv2d_forward_shape l b c h w x) as (y & -> & Hy);
    try assumption.
  exists (relu4 y). split; [reflexivity | now apply shape4_relu].
Qed.
End Conv2dShapes.

Section GlueShapes.
Context {F : Type} {SF : Scalar F}.

Local Abbreviation tensor2 := (@tensor2 F).
Local Abbreviation tensor3 := (@tensor3 F).
Local Abbreviation tensor4 := (@tensor4 F).

Lemma dims2_shape (h w : nat) (m : tensor2) :
  shape2 h w m -> dims2 m = (h, if Nat.eqb h 0 then 0 else w).
Proof.
  intros [Hh Hw]. unfold dims2, width2. destruct m as [|r m]; simpl in *.
  - now subst h.
  - subst h. simpl. inversion Hw; subst. reflexivity.
Qed.

Lemma same_dims_shape (c h w : nat) (ms : tensor3) :
  shape3 c h w ms -> same_dims ms = true.
Proof.
  intros [_ H]. unfold same_dims. destruct ms as [|m ms]; [reflexivity|].
  inversion H as [|? ? Hm Hms]; subst. apply forallb_forall.
  intros n Hn. rewrite (dims2_shape Hm).
  rewrite (dims2_shape (proj1 (Forall_forall _ _) Hms n Hn)).
  unfold dims_eqb. cbn [fst snd]. now rewrite !Nat.eqb_refl.
Qed.

Lemma shape3_app (c1 c2 h w : nat) (a b : tensor3) :
  shape3 c1 h w a -> shape3 c2 h w b -> shape3 (c1 + c2) h w (a ++ b).
Proof.
  intros [Ha Ha'] [Hb Hb']. split.
  - flatten_tensors. rewrite length_app. congruence.
  - apply Forall_app. now split.
Qed.

Lemma cat_channels4_shape (b c1 c2 h w : nat) (x y : tensor4) :
  shape4 b c1 h w x -> shape4 b c2 h w y ->
  exists xy, cat_channels4 x y = Ok xy /\ shape4 b (c1 + c2) h w xy.
Proof.
  intros [Hbx Hx] [Hby Hy]. unfold cat_channels4.
  destruct (@zipR_Ok_Forall _ _ _ (shape3 c1 h w) (shape3 c2 h w)
              (shape3 (c1 + c2) h w)
              (fun ca cb : tensor3 =>
                 if same_dims (ca ++ cb) then Ok (ca ++ cb)
                 else Raise size_mismatch) x y)
    as (xy & Hxy & Hlen & HS); try assumption.
  - flatten_tensors. congruence.
  - intros ca cb Hca Hcb. pose proof (shape3_app Hca Hcb) as Hab.
    rewrite (same_dims_shape Hab). now exists (ca ++ cb).
  - exists xy. split; [exact Hxy|].
    split; [flatten_tensors; congruence | exact HS].
Qed.

Lemma zipR_pure_shape {A} (k : A -> A -> A) (n : nat) (la lb : list A) :
  length la = n -> length lb = n ->
  exists lc, zipR (fun u v => Ok (k u v)) la lb = Ok lc /\ length lc = n.
Proof.
  revert n lb. induction la as [|a la IH]; intros n [|b lb] Ha Hb;
    simpl in *; try (subst n; discriminate).
  - exists []. split; [reflexivity | exact Ha].
  - destruct n as [|n]; [discriminate|].
    destruct (IH n lb) as (lc & -> & Hlc); try congruence.
    exists (k a b :: lc). simpl. split; [reflexivity | congruence].
Qed.

Lemma pointwise3_shape (k : F -> F -> F) (c h w : nat) (x y : tensor3) :
  shape3 c h w x -> shape3 c h w y ->
  exists s, bzipR (bzipR (bzipR (fun u v => Ok (k u v)))) x y = Ok s
            /\ shape3 c h w s.
Proof.
  intros [Hcx Hx] [Hcy Hy].
  rewrite bzipR_same_length by (flatten_tensors; congruence).
  destruct (@zipR_Ok_Forall _ _ _ (shape2 h w) (shape2 h w) (shape2 h w)
              (bzipR (bzipR (fun u v : F => Ok (k u v)))) x y)
    as (s & Hs & Hlen & HS); try assumption.
  - flatten_tensors. congruence.
  - intros m n [Hm Hm'] [Hn Hn'].
    rewrite bzipR_same_length by (flatten_tensors; congruence).
    destruct (@zipR_Ok_Forall _ _ _ (fun r : list F => length r = w)
                (fun r : list F => length r = w)
                (fun r : list F => length r = w)
                (bzipR (fun u v : F => Ok (k u v))) m n)
      as (s & Hs & Hlen & HS); try assumption.
    + flatten_tensors. congruence.
    + intros r1 r2 Hr1 Hr2. rewrite bzipR_same_length by congruence.
      now apply zipR_pure_shape.
    + exists s. split; [exact Hs|].
      split; [flatten_tensors; congruence | exact HS].
  - exists s. split; [exact Hs|].
    split; [flatten_tensors; congruence | exact HS].
Qed.


Lemma mul3_shape (c h w : nat) (x y : tensor3) :
  shape3 c h w x -> shape3 c h w y ->
  exists s, mul3 x y = Ok s /\ shape3 c h w s.
Proof. apply pointwise3_shape. Qed.


Lemma Linear_forward4_shape (fc : @Linear F) (b c h : nat) (z : tensor4) :
  shape4 b c h (lin_in fc) z ->
  exists y, Linear_forward4 fc z = Ok y /\ shape4 b c h (lin_out fc) y.
Proof.
  intros [Hb Hz]. unfold Linear_forward4.
  destruct (@mapR_Ok_Forall _ _ (shape3 c h (lin_in fc))
              (shape3 c h (lin_out fc))
              (mapR (mapR (Linear_row fc))) z Hz) as (y & Hy & Hlen & HQ).
  { intros t [Hc Ht].
    destruct (@mapR_Ok_Forall _ _ (shape2 h (lin_in fc))
                (shape2 h (lin_out fc))
                (mapR (Linear_row fc)) t Ht) as (y & Hy & Hlen & HQ).
    { intros m [Hh Hm].
      destruct (@mapR_Ok_Forall _ _ (fun r : list F => length r = lin_in fc)
                  (fun r : list F => length r = lin_out fc)
                  (Linear_row fc) m Hm) as (y & Hy & Hlen & HQ).
      { intros r Hr. unfold Linear_row. rewrite Hr, Nat.eqb_refl.
        eexists. split; [reflexivity|].
        now rewrite length_map, length_seq. }
      exists y. split; [exact Hy|].
      split; [flatten_tensors; congruence | exact HQ]. }
    exists y. split; [exact Hy|].
    split; [flatten_tensors; congruence | exact HQ]. }
  exists y. split; [exact Hy|].
  split; [flatten_tensors; congruence | exact HQ].
Qed.

Lemma ReflectionPad2d_forward_shape (p : ReflectionPad2d) (b c h w : nat)
    (x : tensor4) :
  shape4 b c h w x -> 0 < h ->
  (0 <= pad_left p < Z.of_nat w)%Z -> (0 <= pad_right p < Z.of_nat w)%Z ->
  (0 <= pad_top p < Z.of_nat h)%Z -> (0 <= pad_bottom p < Z.of_nat h)%Z ->
  exists y, ReflectionPad2d_forward p x = Ok y
            /\ shape4 b c (Z.to_nat (pad_top p) + h + Z.to_nat (pad_bottom p))
                      (Z.to_nat (pad_left p) + w + Z.to_nat (pad_right p)) y.
Proof.
  intros [Hb Hx] Hh Hl Hr Ht Hbo. unfold ReflectionPad2d_forward.
  destruct (Z.ltb_spec (pad_left p) 0); [lia|].
  destruct (Z.ltb_spec (pad_right p) 0); [lia|].
  destruct (Z.ltb_spec (pad_top p) 0); [lia|].
  destruct (Z.ltb_spec (pad_bottom p) 0); [lia|]. cbn [orb].
  set (pl := Z.to_nat (pad_left p)). set (pr := Z.to_nat (pad_right p)).
  set (pt := Z.to_nat (pad_top p)). set (pb := Z.to_nat (pad_bottom p)).
  destruct (@mapR_Ok_Forall _ _ (shape3 c h w)
              (shape3 c (pt + h + pb) (pl + w + pr))
              (mapR (pad2d Reflect pl pr pt pb)) x Hx)
    as (y & Hy & Hlen & HQ).
  { intros t [Hc Hm].
    destruct (@mapR_Ok_Forall _ _ (shape2 h w)
                (shape2 (pt + h + pb) (pl + w + pr))
                (pad2d Reflect pl pr pt pb) t Hm) as (y & Hy & Hlen & HQ).
    { intros m Hm'. apply pad2d_shape; try assumption; cbn [pad_fits].
      - apply andb_true_intro. split; apply Nat.ltb_lt; lia.
      - apply andb_true_intro. split; apply Nat.ltb_lt; lia. }
    exists y. split; [exact Hy|].
    split; [flatten_tensors; congruence | exact HQ]. }
  exists y. split; [exact Hy|].
  split; [flatten_tensors; congruence | exact HQ].
Qed.
End GlueShapes.

(** ** Directional edge handling of the band-tiled filter *)





Lemma py_slice_suffix_Z {A} (R : Z) (l : list A) :
  (0 <= R)%Z -> py_slice (Some R) None l = skipn (Z.to_nat R) l.
Proof.
  intro H. rewrite <- (Z2Nat.id R) at 1 by lia. apply py_slice_suffix.
Qed.

Lemma py_slice_prefix_Z {A} (n : Z) (l : list A) :
  (0 <= n)%Z -> py_slice None (Some n) l = firstn (Z.to_nat n) l.
Proof.
  intro H. rewrite <- (Z2Nat.id n) at 1 by lia. apply py_slice_prefix.
Qed.


(** The slip at reach zero: [x[..., :-0]] is [x[..., :0]], the empty
    slice, not the whole row. *)
Lemma py_slice_minus_zero {A} (l : list A) :
  py_slice None (Some (- 0)%Z) l = [].
Proof.
  unfold py_slice, py_bound. cbn [Z.opp Z.ltb Z.compare Z.to_nat].
  now rewrite Nat.min_0_r.
Qed.

Section LayerInversion.
Context {F : Type} {SF : Scalar F}.

Lemma parse_padding_mode_zeros : parse_padding_mode "zeros" = Ok Zeros.
Proof. reflexivity. Qed.

Lemma parse_padding_mode_reflect : parse_padding_mode "reflect" = Ok Reflect.
Proof. reflexivity. Qed.

Lemma Conv2d_init_inv (theta : params F) (cin cout : Z) (ks pad : Z * Z)
    (mode : string) (l : @Conv2d F) :
  Conv2d_init theta cin cout ks pad mode = Ok l ->
  (0 <= cin)%Z /\ (0 <= cout)%Z /\ (0 <= fst ks)%Z /\ (0 <= snd ks)%Z /\
  c2_in l = Z.to_nat cin /\ c2_out l = Z.to_nat cout /\
  c2_kh l = Z.to_nat (fst ks) /\ c2_kw l = Z.to_nat (snd ks) /\
  c2_ph l = fst pad /\ c2_pw l = snd pad /\
  parse_padding_mode mode = Ok (c2_mode l).
Proof.
  unfold Conv2d_init. destruct (parse_padding_mode mode) as [m|];
    [|discriminate]. cbn [rbind].
  destruct (Z.ltb_spec cin 0); [discriminate|].
  destruct (Z.ltb_spec cout 0); [discriminate|].
  destruct (Z.ltb_spec (fst ks) 0); [discriminate|].
  destruct (Z.ltb_spec (snd ks) 0); [discriminate|].
  cbn [orb]. intro Hl. inversion Hl; subst l. cbn. now repeat split.
Qed.

Lemma Conv1d_init_inv (theta : params F) (cin cout k pad groups : Z)
    (mode : string) (l : @Conv1d F) :
  Conv1d_init theta cin cout k pad groups mode = Ok l ->
  (0 < groups)%Z /\ (0 <= cin)%Z /\ (0 <= cout)%Z /\ (0 <= k)%Z /\
  c1_in l = Z.to_nat cin /\ c1_out l = Z.to_nat cout /\
  c1_kernel l = Z.to_nat k /\ c1_padding l = pad /\
  c1_groups l = Z.to_nat groups /\
  c1_weight l = (fun o c d => theta "weight"%string [o; c; d]) /\
  c1_bias l = (fun o => theta "bias"%string [o]) /\
  parse_padding_mode mode = Ok (c1_mode l).
Proof.
  unfold Conv1d_init.
  destruct (Z.leb_spec groups 0); [discriminate|].
  destruct (negb _); [discriminate|]. destruct (negb _); [discriminate|].
  destruct (parse_padding_mode mode) as [m|]; [|discriminate]. cbn [rbind].
  destruct (Z.ltb_spec cin 0); [discriminate|].
  destruct (Z.ltb_spec cout 0); [discriminate|].
  destruct (Z.ltb_spec k 0); [discriminate|].
  cbn [orb]. intro Hl. inversion Hl; subst l. cbn. now repeat split.
Qed.

Lemma Linear_init_inv (theta : params F) (i : Z) (o : option Z)
    (l : @Linear F) :
  Linear_init theta i o = Ok l ->
  exists out, o = Some out /\ (0 <= i)%Z /\ (0 <= out)%Z /\
              lin_in l = Z.to_nat i /\ lin_out l = Z.to_nat out.
Proof.
  unfold Linear_init. destruct o as [out|]; [|discriminate].
  destruct (Z.ltb_spec i 0); [discriminate|].
  destruct (Z.ltb_spec out 0); [discriminate|].
  cbn [orb]. intro Hl. inversion Hl; subst l. cbn. exists out.
  now repeat split.
Qed.
End LayerInversion.

Section BandFilterBuilt.
Context {F : Type} {SF : Scalar F}.
Variable init_weights : string -> params F.

Lemma Conv2d_init_is (theta : params F) (cin cout : Z) (ks pad : Z * Z)
    (mode : string) (m : padding_mode) (l : @Conv2d F) :
  Conv2d_init theta cin cout ks pad mode = Ok l ->
  parse_padding_mode mode = Ok m ->
  Conv2d_is l (Z.to_nat cin) (Z.to_nat cout) (Z.to_nat (fst ks))
            (Z.to_nat (snd ks)) (fst pad) (snd pad) m
  /\ (0 <= cin)%Z /\ (0 <= cout)%Z /\ (0 <= fst ks)%Z /\ (0 <= snd ks)%Z.
Proof.
  intros H Hm. apply Conv2d_init_inv in H.
  destruct H as (? & ? & ? & ? & ? & ? & ? & ? & ? & ? & Hp).
  rewrite Hm in Hp. inversion Hp. unfold Conv2d_is. now repeat split.
Qed.

Lemma _PadConv2dPostFilter_init_built (a : _PadConv2dPostFilter_args)
    (self : @_PadConv2dPostFilter F) :
  _PadConv2dPostFilter_init init_weights a = Ok self ->
  exists in_dim,
    ab_in_dim a = Some in_dim /\
    band_filter_built self (ab_padding_side a) in_dim (ab_channels a)
                      (ab_kernel_size a).
Proof.
  unfold _PadConv2dPostFilter_init. intro H.
  set (theta := init_weights (ab_init_type a)) in *.
  set (R := ((ab_kernel_size a - 1) / 2)%Z) in *.
  match type of H with
  | rbind ?p _ = _ => destruct p as [pad|] eqn:Hpad; [|discriminate]
  end. cbn [rbind] in H.
  destruct (Conv2d_init (sub_params theta "conv1.0") _ _ _ _ _)
    as [c1|] eqn:H1; [|discriminate]. cbn [rbind] in H.
  destruct (Conv2d_init (sub_params theta "conv2.0") _ _ _ _ _)
    as [c2|] eqn:H2; [|discriminate]. cbn [rbind] in H.
  destruct (Conv2d_init (sub_params theta "conv3.0") _ _ _ _ _)
    as [c3|] eqn:H3; [|discriminate]. cbn [rbind] in H.
  destruct (Conv2d_init (sub_params theta "conv4") _ _ _ _ _)
    as [c4|] eqn:H4; [|discriminate]. cbn [rbind] in H.
  destruct (Linear_init _ _ _) as [fc|] eqn:Hfc; [|discriminate].
  cbn [rbind] in H. inversion H; subst self. clear H.
  apply Linear_init_inv in Hfc.
  destruct Hfc as (in_dim & Hin & _ & Hin0 & Hfi & Hfo).
  exists in_dim. split; [exact Hin|].
  destruct (Conv2d_init_is _ _ _ _ _ _ H1 parse_padding_mode_zeros)
    as (I1 & _ & HC & Hks & _).
  destruct (Conv2d_init_is _ _ _ _ _ _ H2 parse_padding_mode_reflect)
    as (I2 & _).
  destruct (Conv2d_init_is _ _ _ _ _ _ H3 parse_padding_mode_reflect)
    as (I3 & _).
  destruct (Conv2d_init_is _ _ _ _ _ _ H4 parse_padding_mode_reflect)
    as (I4 & _).
  cbn [fst snd] in *.
  constructor; cbn [pb_padding pb_padding_side pb_pad pb_conv1 pb_conv2
                    pb_conv3 pb_conv4 pb_fc]; try assumption;
    try reflexivity; try (now repeat split).
  - destruct (String.eqb_spec (ab_padding_side a) "left"); [now left|].
    destruct (String.eqb_spec (ab_padding_side a) "none");
      [right; now left|].
    destruct (String.eqb_spec (ab_padding_side a) "right");
      [right; now right | discriminate].
  - unfold side_padding.
    destruct (String.eqb_spec (ab_padding_side a) "left") as [E|E].
    { now inversion Hpad. }
    destruct (String.eqb_spec (ab_padding_side a) "none") as [E'|E'].
    { rewrite E'. cbn. now inversion Hpad. }
    destruct (String.eqb_spec (ab_padding_side a) "right") as [E''|E''];
      [now inversion Hpad | discriminate].
Qed.
End BandFilterBuilt.

Section EdgeHandling.
Context {F : Type} {SF : Scalar F}.
Variable init_weights : string -> params F.



End EdgeHandling.

(** ** Shapes through the band-tiled filter *)

Section BandForward.
Context {F : Type} {SF : Scalar F}.

Local Abbreviation tensor3 := (@tensor3 F).
Local Abbreviation tensor4 := (@tensor4 F).

Lemma shape4_rows_map (b c h w w' : nat) (k : list F -> list F) (x : tensor4) :
  shape4 b c h w x -> (forall r, length r = w -> length (k r) = w') ->
  shape4 b c h w' (map (map (map k)) x).
Proof.
  intros Hx Hk. eapply shape4_map; [exact Hx|]. intros t Ht.
  eapply shape3_map; [exact Ht|]. intros m Hm.
  eapply shape2_map; [exact Hm | exact Hk].
Qed.



End BandForward.

(** ** The band orchestrator *)

Section BandOrchestratorShapes.
Context {F G : Type} {SF : Scalar F} {RS : RandomSource G F}.
Variable init_weights : string -> params F.

Local Abbreviation tensor3 := (@tensor3 F).

Lemma draw_n_Forall {A} (P : A -> Prop) (draw : G -> A * G) (n : nat) :
  (forall g, P (fst (draw g))) ->
  forall g, Forall P (fst (draw_n draw n g)).
Proof.
  intros Hd. induction n as [|n IH]; intro g; simpl; [constructor|].
  specialize (Hd g). destruct (draw g) as [a h]. specialize (IH h).
  destruct (draw_n draw n h). simpl in *. now constructor.
Qed.

Lemma randn3_shape (b t c : nat) (g : G) :
  shape3 b t c (fst (randn3 (F := F) b t c g)).
Proof.
  unfold randn3. split; [apply length_draw_n|].
  apply draw_n_Forall. intro g1. split; [apply length_draw_n|].
  apply draw_n_Forall. intro g2. apply length_draw_n.
Qed.

Lemma cat_last2_shape (b t w1 w2 : nat) (x y : tensor3) :
  shape3 b t w1 x -> shape3 b t w2 y ->
  exists xy, cat_last2 x y = Ok xy /\ shape3 b t (w1 + w2) xy.
Proof.
  intros [Hbx Hx] [Hby Hy]. unfold cat_last2.
  destruct (@zipR_Ok_Forall _ _ _ (shape2 t w1) (shape2 t w2)
              (shape2 t (w1 + w2))
              (zipR (fun r s : list F => Ok (r ++ s))) x y)
    as (xy & Hxy & Hlen & HS); try assumption.
  - flatten_tensors. congruence.
  - intros m n [Hm Hm'] [Hn Hn'].
    destruct (@zipR_Ok_Forall _ _ _ (fun r : list F => length r = w1)
                (fun r : list F => length r = w2)
                (fun r : list F => length r = w1 + w2)
                (fun r s : list F => Ok (r ++ s)) m n)
      as (mn & Hmn & Hl & HS); try assumption.
    + flatten_tensors. congruence.
    + intros r s Hr Hs. exists (r ++ s). split; [reflexivity|].
      rewrite length_app. congruence.
    + exists mn. split; [exact Hmn|].
      split; [flatten_tensors; congruence | exact HS].
  - exists xy. split; [exact Hxy|].
    split; [flatten_tensors; congruence | exact HS].
Qed.

Lemma last_axis_is_shape (b t c : nat) (x : tensor3) :
  shape3 b t c x -> last_axis_is (Z.of_nat c) x = true.
Proof.
  intros [_ Hx]. unfold last_axis_is. apply forallb_forall. intros m Hm.
  apply forallb_forall. intros r Hr. apply Z.eqb_eq. f_equal.
  pose proof (proj1 (Forall_forall _ _) Hx m Hm) as [_ Hrows].
  exact (proj1 (Forall_forall _ _) Hrows r Hr).
Qed.

Lemma MultistreamConv2dPostFilter_init_built
    (a : MultistreamConv2dPostFilter_args)
    (self : @MultistreamConv2dPostFilter F) (low mid high : Z) :
  MultistreamConv2dPostFilter_init init_weights a = Ok self ->
  am_stream_sizes a = [low; mid; high] ->
  let R := ((am_kernel_size a - 1) / 2)%Z in
  pm_padding self = R /\ pm_scale self = am_scale a /\
  pm_stream_sizes self = [low; mid; high] /\
  band_filter_built (low_postfilter self) "left" (low + R)
                    (am_channels a) (am_kernel_size a) /\
  band_filter_built (mid_postfilter self) "none" (mid + 2 * R)
                    (am_channels a) (am_kernel_size a) /\
  band_filter_built (high_postfilter self) "right" (high + R)
                    (am_channels a) (am_kernel_size a).
Proof.
  intros H Hs R. unfold MultistreamConv2dPostFilter_init in H.
  rewrite Hs in H. cbn [length Nat.eqb py_assert rbind nth] in H.
  fold R in H.
  destruct (_PadConv2dPostFilter_init _ (band_args a (low + R) "left"))
    as [lo|] eqn:Hlo; [|discriminate]. cbn [rbind] in H.
  destruct (_PadConv2dPostFilter_init _ (band_args a (mid + 2 * R) "none"))
    as [mi|] eqn:Hmi; [|discriminate]. cbn [rbind] in H.
  destruct (_PadConv2dPostFilter_init _ (band_args a (high + R) "right"))
    as [hi|] eqn:Hhi; [|discriminate]. cbn [rbind] in H.
  inversion H; subst self. clear H.
  cbn [pm_padding pm_scale pm_stream_sizes low_postfilter mid_postfilter
       high_postfilter].
  apply _PadConv2dPostFilter_init_built in Hlo, Hmi, Hhi.
  destruct Hlo as (d1 & E1 & B1), Hmi as (d2 & E2 & B2),
           Hhi as (d3 & E3 & B3).
  cbn [band_args ab_in_dim ab_channels ab_kernel_size ab_padding_side] in *.
  assert (d1 = (low + R)%Z) by congruence.
  assert (d2 = (mid + 2 * R)%Z) by congruence.
  assert (d3 = (high + R)%Z) by congruence. subst d1 d2 d3.
  do 3 (split; [reflexivity|]).
  split; [exact B1|]. split; [exact B2 | exact B3].
Qed.
End BandOrchestratorShapes.

Section BandOrchestratorTheorem.
Context {F G : Type} {SF : Scalar F} {RS : RandomSource G F}.
Variable init_weights : string -> params F.

Local Abbreviation tensor3 := (@tensor3 F).

Lemma shape3_rows_map (b h w w' : nat) (k : list F -> list F) (x : tensor3) :
  shape3 b h w x -> (forall r, length r = w -> length (k r) = w') ->
  shape3 b h w' (map (map k) x).
Proof.
  intros Hx Hk. eapply shape3_map; [exact Hx|]. intros m Hm.
  eapply shape2_map; [exact Hm | exact Hk].
Qed.


Lemma noise_shape (b t : nat) (x : tensor3) (s : F) (g : G) :
  length x = b -> (0 < b -> height3 x = t) ->
  shape3 b t 1 (scale3 (fst (randn3 (length x) (height3 x) 1 g)) s).
Proof.
  intros Hb Ht. apply shape3_scale. rewrite Hb.
  destruct b as [|b].
  - pose proof (randn3_shape (F := F) 0 (height3 x) 1 g) as [Hl _].
    destruct (fst (randn3 0 (height3 x) 1 g)); [|discriminate].
    split; [reflexivity | constructor].
  - rewrite Ht by lia. apply randn3_shape.
Qed.

End BandOrchestratorTheorem.

(** ** Shapes through the one-dimensional layers *)

Section Conv1dShapes.
Context {F : Type} {SF : Scalar F}.

Local Abbreviation tensor2 := (@tensor2 F).
Local Abbreviation tensor3 := (@tensor3 F).

Lemma length_column (j t c : nat) (m : tensor2) :
  shape2 t c m -> j < c -> length (column j m) = t.
Proof.
  intros [Ht Hm] Hj. subst t. unfold column.
  induction Hm as [|r m Hr _ IH]; [reflexivity|].
  cbn [flat_map]. rewrite length_app, IH.
  destruct (nth_error r j) eqn:E; [reflexivity|].
  apply nth_error_None in E. lia.
Qed.

Lemma transpose2_shape (t c : nat) (m : tensor2) :
  shape2 t c m -> 0 < t -> shape2 c t (transpose2 m).
Proof.
  intros Hm Ht. pose proof (shape2_width Hm Ht) as Hw.
  unfold transpose2. fold (width2 m). rewrite Hw. split.
  - now rewrite length_map, length_seq.
  - apply Forall_map, Forall_forall. intros j Hj.
    apply in_seq in Hj. apply (length_column Hm). lia.
Qed.

Lemma transpose12_shape (b t c : nat) (x : tensor3) :
  shape3 b t c x -> 0 < t -> shape3 b c t (transpose12 x).
Proof.
  intros Hx Ht. eapply shape3_map; [exact Hx|].
  intros m Hm. now apply transpose2_shape.
Qed.

Lemma shape2_grid (c w : nat) (k : nat -> nat -> F) :
  shape2 c w (map (fun o => map (fun i => k o i) (seq 0 w)) (seq 0 c)).
Proof.
  split; [now rewrite length_map, length_seq|].
  apply Forall_map, Forall_forall. intros o _.
  now rewrite length_map, length_seq.
Qed.

Lemma Conv1d_item_padded (l : @Conv1d F) (c t : nat) (x : tensor2) :
  shape2 c t x ->
  c1_in l = c -> 0 < c -> (0 <= c1_padding l)%Z ->
  pad_fits (c1_mode l) (Z.to_nat (c1_padding l)) (Z.to_nat (c1_padding l)) t
    = true ->
  0 < c1_kernel l <= t + 2 * Z.to_nat (c1_padding l) ->
  exists padded,
    mapR (pad_axis (c1_mode l) (Z.to_nat (c1_padding l))
                   (Z.to_nat (c1_padding l)) fzero) x = Ok padded
    /\ shape2 c (t + 2 * Z.to_nat (c1_padding l)) padded
    /\ Conv1d_item l x
       = Ok (map (fun o => map (fun i => Conv1d_at l padded o i)
                     (seq 0 (t + 2 * Z.to_nat (c1_padding l)
                             - c1_kernel l + 1)))
                 (seq 0 (c1_out l))).
Proof.
  intros [Hc Hx] Hin Hc0 Hp Hfit Hk. unfold Conv1d_item.
  flatten_tensors. rewrite Hin, Hc, Nat.eqb_refl. cbn [negb].
  destruct (Z.ltb_spec (c1_padding l) 0); [lia|]. cbv zeta.
  set (p := Z.to_nat (c1_padding l)) in *.
  destruct (@mapR_Ok_Forall _ _ (fun r : list F => length r = t)
              (fun r : list F => length r = t + 2 * p)
              (pad_axis (c1_mode l) p p fzero) x Hx)
    as (padded & Hpd & Hpl & Hpad).
  { intros r Hr. rewrite <- Hr in Hfit.
    destruct (pad_axis_length _ _ _ fzero _ Hfit) as (ys & Hys & Hl).
    exists ys. split; [exact Hys | lia]. }
  assert (Sp : shape2 c (t + 2 * p) padded).
  { split; [flatten_tensors; congruence | exact Hpad]. }
  exists padded. split; [exact Hpd|]. split; [exact Sp|].
  rewrite Hpd. cbn [rbind]. rewrite (shape2_width Sp Hc0).
  destruct (Nat.ltb_spec (t + 2 * p) (c1_kernel l)); [lia|].
  destruct (Nat.eqb_spec (c1_kernel l) 0); [lia|]. reflexivity.
Qed.

Lemma Conv1d_forward_shape (l : @Conv1d F) (b c t : nat) (x : tensor3) :
  shape3 b c t x ->
  c1_in l = c -> 0 < c -> (0 <= c1_padding l)%Z ->
  pad_fits (c1_mode l) (Z.to_nat (c1_padding l)) (Z.to_nat (c1_padding l)) t
    = true ->
  0 < c1_kernel l <= t + 2 * Z.to_nat (c1_padding l) ->
  exists y, Conv1d_forward l x = Ok y
            /\ shape3 b (c1_out l)
                      (t + 2 * Z.to_nat (c1_padding l) - c1_kernel l + 1) y.
Proof.
  intros [Hb Hx] Hin Hc Hp Hfit Hk. unfold Conv1d_forward.
  destruct (@mapR_Ok_Forall _ _ (shape2 c t)
              (shape2 (c1_out l)
                      (t + 2 * Z.to_nat (c1_padding l) - c1_kernel l + 1))
              (Conv1d_item l) x Hx) as (y & Hy & Hlen & HQ).
  { intros m Hm.
    destruct (Conv1d_item_padded l Hm Hin Hc Hp Hfit Hk)
      as (padded & _ & _ & ->).
    eexists. split; [reflexivity | apply shape2_grid]. }
  exists y. split; [exact Hy|].
  split; [flatten_tensors; congruence | exact HQ].
Qed.

Lemma same_length_shape (c t : nat) (m : tensor2) :
  shape2 c t m -> same_length m = true.
Proof.
  intros [_ H]. unfold same_length. destruct m as [|r m]; [reflexivity|].
  inversion H as [|? ? Hr Hm]; subst. apply forallb_forall.
  intros s Hs. apply Nat.eqb_eq.
  exact (proj1 (Forall_forall _ _) Hm s Hs).
Qed.

Lemma shape2_app (c1 c2 t : nat) (a b : tensor2) :
  shape2 c1 t a -> shape2 c2 t b -> shape2 (c1 + c2) t (a ++ b).
Proof.
  intros [Ha Ha'] [Hb Hb']. split.
  - flatten_tensors. rewrite length_app. congruence.
  - apply Forall_app. now split.
Qed.

Lemma cat_channels3_shape (b c1 c2 t : nat) (x y : tensor3) :
  shape3 b c1 t x -> shape3 b c2 t y ->
  exists xy, cat_channels3 x y = Ok xy /\ shape3 b (c1 + c2) t xy.
Proof.
  intros [Hbx Hx] [Hby Hy]. unfold cat_channels3.
  destruct (@zipR_Ok_Forall _ _ _ (shape2 c1 t) (shape2 c2 t)
              (shape2 (c1 + c2) t)
              (fun ca cb : tensor2 =>
                 if same_length (ca ++ cb) then Ok (ca ++ cb)
                 else Raise size_mismatch) x y)
    as (xy & Hxy & Hlen & HS); try assumption.
  - flatten_tensors. congruence.
  - intros ca cb Hca Hcb. pose proof (shape2_app Hca Hcb) as Hab.
    rewrite (same_length_shape Hab). now exists (ca ++ cb).
  - exists xy. split; [exact Hxy|].
    split; [flatten_tensors; congruence | exact HS].
Qed.
End Conv1dShapes.

Section RandnLike.
Context {F G : Type} {RS : RandomSource G F}.

Lemma draw_like_Forall2 {A B} (R : A -> B -> Prop) (draw : A -> G -> B * G)
    (l : list A) :
  (forall a g, R a (fst (draw a g))) ->
  forall g, Forall2 R l (fst (draw_like draw l g)).
Proof.
  intros Hd. induction l as [|a l IH]; intro g; simpl; [constructor|].
  specialize (Hd a g). destruct (draw a g) as [b h]. specialize (IH h).
  destruct (draw_like draw l h). simpl in *. now constructor.
Qed.

Lemma Forall2_length_Forall {A B} (R : A -> B -> Prop) (P : A -> Prop)
    (Q : B -> Prop) (la : list A) (lb : list B) :
  Forall2 R la lb -> Forall P la -> (forall a b, R a b -> P a -> Q b) ->
  length lb = length la /\ Forall Q lb.
Proof.
  intros H HP HR. induction H as [|a b la lb Hab _ IH]; [now split|].
  inversion HP; subst. destruct IH as [Hl HQ]; [assumption|].
  split; [simpl; congruence | constructor; eauto].
Qed.

Lemma randn_like3_shape (b c t : nat) (x : @tensor3 F) (g : G) :
  shape3 b c t x -> shape3 b c t (fst (randn_like3 x g)).
Proof.
  intros [Hb Hx]. unfold randn_like3.
  pose proof (@draw_like_Forall2 _ _
    (fun (m m' : @tensor2 F) => Forall2 (fun r r' : list F => length r' = length r) m m')
    (draw_like (draw_like (fun (_ : F) => randn))) x) as H.
  destruct (@Forall2_length_Forall _ _
              (fun (m m' : @tensor2 F) =>
                 Forall2 (fun r r' : list F => length r' = length r) m m')
              (shape2 c t) (shape2 c t) x
              (fst (draw_like (draw_like (draw_like (fun _ : F => randn))) x g)))
    as [Hl HQ]; try assumption.
  - apply H. intros m g1. apply draw_like_Forall2. intros r g2.
    clear. revert g2. induction r as [|a r IH]; intro g2; simpl;
      [reflexivity|].
    destruct (randn g2) as [v h]. specialize (IH h).
    destruct (draw_like (fun _ : F => randn) r h). simpl in *. congruence.
  - intros m m' Hmm [Hc Hm].
    destruct (@Forall2_length_Forall _ _ _ (fun r : list F => length r = t)
                (fun r : list F => length r = t) m m' Hmm Hm) as [Hl' HQ'].
    { intros r r' Hr Hrt. congruence. }
    split; [flatten_tensors; congruence | exact HQ'].
  - split; [flatten_tensors; congruence | exact HQ].
Qed.
End RandnLike.

(** ** The noise modulator *)

Lemma zipR_pure_Forall {A B C} (P : A -> Prop) (Q : B -> Prop)
    (f : A -> B -> result C) (k : A -> B -> C) (la : list A) (lb : list B) :
  length la = length lb -> Forall P la -> Forall Q lb ->
  (forall a b, P a -> Q b -> f a b = Ok (k a b)) ->
  zipR f la lb = Ok (zip_with k la lb).
Proof.
  intros Hlen Ha. revert lb Hlen.
  induction Ha as [|a la Pa _ IH]; intros [|b lb] Hlen Hb Hf;
    simpl in Hlen; try discriminate; [reflexivity|].
  inversion Hb; subst. simpl. rewrite Hf by assumption.
  rewrite (IH lb) by (congruence || assumption). reflexivity.
Qed.

Section Modulator.
Context {F : Type} {SF : Scalar F}.

Local Abbreviation tensor2 := (@tensor2 F).
Local Abbreviation tensor3 := (@tensor3 F).

Lemma pointwise3_Ok (k : F -> F -> F) (c h w : nat) (x y : tensor3) :
  shape3 c h w x -> shape3 c h w y ->
  bzipR (bzipR (bzipR (fun u v => Ok (k u v)))) x y
  = Ok (zip_with (zip_with (zip_with k)) x y).
Proof.
  intros [Hcx Hx] [Hcy Hy].
  rewrite bzipR_same_length by (flatten_tensors; congruence).
  apply (zipR_pure_Forall (P := shape2 h w) (Q := shape2 h w));
    try assumption; [flatten_tensors; congruence|].
  intros m n [Hm Hm'] [Hn Hn'].
  rewrite bzipR_same_length by (flatten_tensors; congruence).
  apply (zipR_pure_Forall (P := fun r : list F => length r = w)
                          (Q := fun r : list F => length r = w));
    try assumption; [flatten_tensors; congruence|].
  intros r s Hr Hs. rewrite bzipR_same_length by congruence.
  apply (zipR_pure_Forall (P := fun _ => True) (Q := fun _ => True));
    try congruence; try (apply Forall_forall; intros; exact I).
Qed.

Lemma SimplifiedTADN_init_built (theta : params F) (channels kernel_size : Z)
    (self : @SimplifiedTADN F) :
  SimplifiedTADN_init theta channels kernel_size = Ok self ->
  (0 < channels)%Z /\ (0 <= kernel_size)%Z /\
  Conv1d_is (conv_gamma self) (Z.to_nat channels) (Z.to_nat channels)
            (Z.to_nat kernel_size) ((kernel_size - 1) / 2)
            (Z.to_nat channels) Zeros.
Proof.
  unfold SimplifiedTADN_init. intro H.
  destruct (Conv1d_init _ _ _ _ _ _ _) as [conv|] eqn:E; [|discriminate].
  cbn [rbind] in H. inversion H; subst self. cbn [conv_gamma].
  apply Conv1d_init_inv in E.
  destruct E as (Hg & _ & _ & Hk & I & O & K & P & Gr & _ & _ & Mo).
  rewrite parse_padding_mode_zeros in Mo. inversion Mo.
  unfold Conv1d_is. now repeat split.
Qed.

(** A convolution with [groups = in_channels = out_channels] and zero
    padding treats every channel on its own. *)
Lemma Conv1d_item_depthwise (l : @Conv1d F) (C k p t : nat) (x : tensor2) :
  Conv1d_is l C C k (Z.of_nat p) C Zeros ->
  0 < C -> 0 < k <= t + 2 * p ->
  shape2 C t x ->
  Conv1d_item l x
  = Ok (map (fun ch =>
               depthwise_channel (fun d => c1_weight l ch 0 d) (c1_bias l ch)
                                 k p (nth ch x []))
            (seq 0 C)).
Proof.
  intros (I & O & K & P & Gr & Mo) HC Hk Hx.
  destruct (@Conv1d_item_padded F SF l C t x Hx I HC)
    as (padded & Hpd & Sp & Hitem).
  { rewrite P. lia. }
  { now rewrite P, Mo. }
  { rewrite P, Nat2Z.id, K. lia. }
  rewrite Hitem. clear Hitem.
  rewrite P, Mo, Nat2Z.id in Hpd. rewrite P, Nat2Z.id, K, O.
  change (mapR (fun r : list F => Ok (repeat fzero p ++ r ++ repeat fzero p)) x
          = Ok padded) in Hpd.
  rewrite mapR_pure in Hpd.
  inversion Hpd as [Hpad]. clear Hpd.
  f_equal. apply map_ext_in. intros ch Hch. apply in_seq in Hch.
  destruct Hx as [Hlen Hrows].
  assert (Hrow : length (nth ch x []) = t).
  { apply (proj1 (Forall_forall _ _) Hrows). apply nth_In.
    flatten_tensors. lia. }
  unfold depthwise_channel. cbv zeta.
  rewrite !length_app, !repeat_length, Hrow.
  replace (p + (t + p) - k + 1) with (t + 2 * p - k + 1) by lia.
  apply map_ext. intro i. unfold Conv1d_at.
  rewrite I, O, Gr, Nat.div_same, Nat.div_1_r by lia.
  cbn [seq flat_map]. rewrite app_nil_r, Nat.mul_1_r, Nat.add_0_r, K.
  f_equal. f_equal. apply map_ext. intro d. f_equal. f_equal.
  rewrite (nth_indep _ [] (repeat fzero p ++ [] ++ repeat fzero p))
    by (rewrite length_map; flatten_tensors; lia).
  exact (map_nth (fun r => repeat fzero p ++ r ++ repeat fzero p) x [] ch).
Qed.
End Modulator.

Section ModulatorTheorem.
Context {F : Type} {SF : Scalar F}.

Local Abbreviation tensor3 := (@tensor3 F).

Lemma odd_kernel_padding (p : nat) :
  ((2 * Z.of_nat p + 1 - 1) / 2 = Z.of_nat p)%Z.
Proof.
  replace (2 * Z.of_nat p + 1 - 1)%Z with (Z.of_nat p * 2)%Z by lia.
  apply Z.div_mul. lia.
Qed.

Lemma modulator_built_forward (self : @SimplifiedTADN F) (C p b t : nat)
    (z c : tensor3) :
  Conv1d_is (conv_gamma self) C C (2 * p + 1) (Z.of_nat p) C Zeros ->
  0 < C -> 1 <= t ->
  shape3 b C t z -> shape3 b C t c ->
  exists gamma : tensor3,
    Conv1d_forward (conv_gamma self) c = Ok gamma
    /\ gamma = map (fun item =>
                 map (fun ch =>
                        depthwise_channel
                          (fun d => c1_weight (conv_gamma self) ch 0 d)
                          (c1_bias (conv_gamma self) ch)
                          (2 * p + 1) p (nth ch item []))
                     (seq 0 C)) c
    /\ shape3 b C t gamma
    /\ SimplifiedTADN_forward self z c
       = Ok (zip_with (zip_with (zip_with fmul)) z (sigmoid3 gamma))
    /\ shape3 b C t (zip_with (zip_with (zip_with fmul)) z (sigmoid3 gamma)).
Proof.
  intros Hl HC Ht Hz Hc.
  pose proof Hl as (I & O & K & P & Gr & Mo).
  destruct (@Conv1d_forward_shape F SF (conv_gamma self) b C t c Hc I HC)
    as (gamma & Hg & Sg).
  { rewrite P. lia. }
  { now rewrite Mo. }
  { rewrite K, P, Nat2Z.id. lia. }
  rewrite O, K, P, Nat2Z.id in Sg.
  replace (t + 2 * p - (2 * p + 1) + 1) with t in Sg by lia.
  exists gamma. split; [exact Hg|]. split.
  { unfold Conv1d_forward in Hg.
    rewrite (mapR_ext (Conv1d_item (conv_gamma self))
               (fun item => Ok (map (fun ch =>
                   depthwise_channel
                     (fun d => c1_weight (conv_gamma self) ch 0 d)
                     (c1_bias (conv_gamma self) ch)
                     (2 * p + 1) p (nth ch item [])) (seq 0 C)))) in Hg.
    - rewrite mapR_pure in Hg. now inversion Hg.
    - intros item Hin. apply Conv1d_item_depthwise with (t := t);
        try assumption; [lia|].
      exact (proj1 (Forall_forall _ _) (proj2 Hc) item Hin). }
  split; [exact Sg|].
  pose proof (shape3_pointwise fsigmoid Sg) as Ss.
  fold (sigmoid3 gamma) in Ss.
  unfold SimplifiedTADN_forward. rewrite Hg. cbn [rbind]. unfold mul3.
  rewrite (pointwise3_Ok fmul Hz Ss). split; [reflexivity|].
  destruct (mul3_shape Hz Ss) as (s & Hs & Sh). unfold mul3 in Hs.
  rewrite (pointwise3_Ok fmul Hz Ss) in Hs.
  injection Hs as <-. exact Sh.
Qed.

(** C6 (as amended).  For a modulator built with an odd kernel width
    [2 p + 1] and inputs [z] and [c] of shape (batch, channels, time)
    with at least one time step, [conv_gamma] convolves every channel of
    [c] on its own along time and keeps the time length, and the output
    is [z] multiplied element-wise by the sigmoid of that convolution, so
    it has the shape of [z]. *)
Theorem noise_modulator_forward (theta : params F) (channels kernel_size : Z)
    (self : @SimplifiedTADN F) (p b t : nat) (z c : tensor3) :
  SimplifiedTADN_init theta channels kernel_size = Ok self ->
  kernel_size = (2 * Z.of_nat p + 1)%Z ->
  1 <= t ->
  shape3 b (Z.to_nat channels) t z ->
  shape3 b (Z.to_nat channels) t c ->
  exists gamma : tensor3,
    Conv1d_forward (conv_gamma self) c = Ok gamma
    /\ gamma = map (fun item =>
                 map (fun ch =>
                        depthwise_channel
                          (fun d => c1_weight (conv_gamma self) ch 0 d)
                          (c1_bias (conv_gamma self) ch)
                          (2 * p + 1) p (nth ch item []))
                     (seq 0 (Z.to_nat channels))) c
    /\ shape3 b (Z.to_nat channels) t gamma
    /\ SimplifiedTADN_forward self z c
       = Ok (zip_with (zip_with (zip_with fmul)) z (sigmoid3 gamma))
    /\ shape3 b (Z.to_nat channels) t
              (zip_with (zip_with (zip_with fmul)) z (sigmoid3 gamma)).
Proof.
  intros Hinit Hk Ht Hz Hc.
  apply SimplifiedTADN_init_built in Hinit.
  destruct Hinit as (HC & _ & Hl).
  rewrite Hk, odd_kernel_padding in Hl.
  replace (Z.to_nat (2 * Z.of_nat p + 1)) with (2 * p + 1) in Hl by lia.
  apply modulator_built_forward; try assumption. lia.
Qed.
End ModulatorTheorem.

(** ** The one-dimensional residual filter *)

Section Conv1dBuilt.
Context {F : Type} {SF : Scalar F}.
Variable init_weights : string -> params F.

Lemma Conv1d_init_is (theta : params F) (cin cout k pad : Z)
    (mode : string) (m : padding_mode) (l : @Conv1d F) :
  Conv1d_init theta cin cout k pad 1 mode = Ok l ->
  parse_padding_mode mode = Ok m ->
  Conv1d_is l (Z.to_nat cin) (Z.to_nat cout) (Z.to_nat k) pad 1 m
  /\ (0 <= cin)%Z /\ (0 <= cout)%Z /\ (0 <= k)%Z.
Proof.
  intros H Hm. apply Conv1d_init_inv in H.
  destruct H as (_ & ? & ? & ? & ? & ? & ? & ? & ? & _ & _ & Hp).
  rewrite Hm in Hp. inversion Hp. unfold Conv1d_is. now repeat split.
Qed.

Lemma Conv1dPostFilter_init_built (a : Conv1dPostFilter_args)
    (self : @Conv1dPostFilter F) (mode : padding_mode) :
  Conv1dPostFilter_init init_weights a = Ok self ->
  parse_padding_mode (a1_padding_mode a) = Ok mode ->
  Conv1dPostFilter_built self a mode (init_weights (a1_init_type a)).
Proof.
  unfold Conv1dPostFilter_init. intros H Hmode.
  set (theta := init_weights (a1_init_type a)) in *.
  destruct (Conv1d_init (sub_params theta "conv1.0") _ _ _ _ _ _)
    as [c1|] eqn:H1; [|discriminate]. cbn [rbind] in H.
  destruct (Conv1d_init (sub_params theta "conv2.0") _ _ _ _ _ _)
    as [c2|] eqn:H2; [|discriminate]. cbn [rbind] in H.
  destruct (Conv1d_init (sub_params theta "conv3.0") _ _ _ _ _ _)
    as [c3|] eqn:H3; [|discriminate]. cbn [rbind] in H.
  destruct (Conv1d_init (sub_params theta "conv4") _ _ _ _ _ _)
    as [c4|] eqn:H4; [|discriminate]. cbn [rbind] in H.
  destruct (Conv1d_init_is _ _ _ _ _ _ H1 Hmode) as (I1 & _ & HC & Hk).
  destruct (Conv1d_init_is _ _ _ _ _ _ H2 Hmode) as (I2 & _).
  destruct (Conv1d_init_is _ _ _ _ _ _ H3 Hmode) as (I3 & _).
  destruct (Conv1d_init_is _ _ _ _ _ _ H4 Hmode) as (I4 & _).
  match type of H with
  | rbind ?r _ = _ => destruct r as [td|] eqn:Htd; [|discriminate]
  end.
  cbn [rbind] in H. inversion H; subst self. clear H.
  constructor; cbn [p1_use_noise p1_scale p1_conv1 p1_conv2 p1_conv3
                    p1_conv4 p1_tadn]; try assumption; try reflexivity.
  - now split.
  - destruct (a1_use_noise a); exact I1.
  - destruct (a1_use_tadn a); [|now inversion Htd].
    destruct (a1_in_dim a) as [in_dim|]; [|discriminate].
    cbn [is_some py_assert rbind] in Htd.
    destruct (a1_use_noise a); [|discriminate].
    cbn [py_assert rbind] in Htd.
    destruct (SimplifiedTADN_init (sub_params theta "tadn") in_dim 7)
      as [t|] eqn:Ht; [|discriminate].
    cbn [rbind] in Htd. inversion Htd; subst td.
    split; [reflexivity|]. now exists in_dim, t.
Qed.
End Conv1dBuilt.

Section Conv1dTheorem.
Context {F G : Type} {SF : Scalar F} {RS : RandomSource G F}.
Variable init_weights : string -> params F.

Local Abbreviation tensor3 := (@tensor3 F).


End Conv1dTheorem.

(** ** The stream orchestrator returns *)

Section OrchestratorReturns.
Context {F G : Type}.

Local Abbreviation tensor3 := (@tensor3 F).

Lemma offset_stage_returns (b t w : nat) (pfo : option (@postfilter F G))
    (off : Z) (s : tensor3) (l : option (list Z)) (g : G) :
  (forall pf, pfo = Some pf -> shape_preserving b t pf) ->
  shape3 b t w s ->
  exists s' g', offset_stage pfo off s l g = Ok (s', g') /\ shape3 b t w s'.
Proof.
  intros Hpf Hs. unfold offset_stage. destruct pfo as [pf|].
  2:{ exists s, g. now split. }
  specialize (Hpf pf eq_refl).
  destruct (Z.ltb_spec 0 off) as [Ho|Ho]; [|now apply Hpf].
  set (wl := Nat.min (Z.to_nat off) w).
  assert (Sl : shape3 b t wl (slice_last3 None (Some off) s)).
  { eapply shape3_map; [exact Hs|]. intros m Hm.
    eapply shape2_map; [exact Hm|]. intros r Hr.
    rewrite py_slice_prefix_Z, length_firstn by lia. now rewrite Hr. }
  assert (Sr : shape3 b t (w - wl) (slice_last3 (Some off) None s)).
  { eapply shape3_map; [exact Hs|]. intros m Hm.
    eapply shape2_map; [exact Hm|]. intros r Hr.
    rewrite py_slice_suffix_Z, length_skipn by lia. unfold wl. lia. }
  destruct (Hpf _ _ l g Sr) as (y & g' & Hy & Sy).
  destruct (cat_last2_shape Sl Sy) as (s' & Hcat & Ss').
  exists s', g'. unfold bind. rewrite Hy. unfold lift. cbn [cat_last rbind].
  rewrite Hcat. split; [reflexivity|].
  now replace (wl + (w - wl)) with w in Ss' by (unfold wl; lia).
Qed.

(** With four or six streams and filters that keep the shape of what
    they are given, [forward] returns, and its output has the shape of
    its input. *)
Lemma forward_returns_with_shape (self : @MultistreamPostFilter F G)
    (b t c : nat) (x : tensor3) (lengths : option (list Z)) (g : G) :
  shape3 b t c x ->
  length (stream_sizes self) = 4 \/ length (stream_sizes self) = 6 ->
  Forall (fun s => (0 <= s)%Z) (stream_sizes self) ->
  fold_right Z.add 0%Z (stream_sizes self) = Z.of_nat c ->
  (forall pf, mgc_postfilter self = Some pf -> shape_preserving b t pf) ->
  (forall pf, bap_postfilter self = Some pf -> shape_preserving b t pf) ->
  (forall pf, lf0_postfilter self = Some pf -> shape_preserving b t pf) ->
  exists out g',
    MultistreamPostFilter_forward self x lengths g = Ok (out, g')
    /\ shape3 b t c out.
Proof.
  intros Hx Hlen Hpos Hsum Hmgc Hbap Hlf0.
  pose proof (@split_streams_widths F b t c x (stream_sizes self) 0%Z
                Hx ltac:(lia) Hpos ltac:(lia)) as Hw.
  fold (split_streams x (stream_sizes self)) in Hw.
  assert (Hshape : forall s size,
             (0 <= size)%Z ->
             Forall (Forall (fun r : list F => length r = Z.to_nat size)) s ->
             length s = b -> Forall (fun m : list (list F) => length m = t) s ->
             shape3 b t (Z.to_nat size) s).
  { intros s size _ Hr Hb Ht. split; [exact Hb|].
    apply Forall_forall. intros m Hm. split.
    - exact (proj1 (Forall_forall _ _) Ht m Hm).
    - exact (proj1 (Forall_forall _ _) Hr m Hm). }
  assert (Hbt : forall a e, length (slice_last3 a e x) = b
                /\ Forall (fun m : list (list F) => length m = t)
                          (slice_last3 a e x)).
  { intros a e. destruct Hx as [Hb Hm]. unfold slice_last3. split.
    - now rewrite length_map.
    - apply Forall_map. eapply Forall_impl; [|exact Hm].
      intros m [Ht _]. now rewrite length_map. }
  rewrite forward_stages. rewrite length_split_streams.
  unfold split_streams in *.
  destruct (stream_sizes self) as [|s0 [|s1 [|s2 [|s3 rest]]]];
    try (simpl in Hlen; lia).
  assert (Hrest : rest = [] \/ exists s4 s5, rest = [s4; s5]).
  { destruct rest as [|s4 [|s5 [|s6 rest]]]; simpl in Hlen; try lia;
      [now left | right; now exists s4, s5]. }
  inversion Hpos as [|? ? P0 Hpos1]; subst.
  inversion Hpos1 as [|? ? P1 Hpos2]; subst.
  inversion Hpos2 as [|? ? P2 Hpos3]; subst.
  inversion Hpos3 as [|? ? P3 Hpos4]; subst.
  cbn [split_streams_from] in Hw.
  inversion Hw as [|? ? ? ? W0 Hw1]; subst.
  inversion Hw1 as [|? ? ? ? W1 Hw2]; subst.
  inversion Hw2 as [|? ? ? ? W2 Hw3]; subst.
  inversion Hw3 as [|? ? ? ? W3 Hw4]; subst.
  pose proof (Hshape _ _ P0 W0 (proj1 (Hbt _ _)) (proj2 (Hbt _ _))) as S0.
  pose proof (Hshape _ _ P1 W1 (proj1 (Hbt _ _)) (proj2 (Hbt _ _))) as S1.
  pose proof (Hshape _ _ P2 W2 (proj1 (Hbt _ _)) (proj2 (Hbt _ _))) as S2.
  pose proof (Hshape _ _ P3 W3 (proj1 (Hbt _ _)) (proj2 (Hbt _ _))) as S3.
  assert (Hlf : forall u, shape3 b t (Z.to_nat s1) u -> forall h,
             exists u' h', match lf0_postfilter self with
                           | Some pf => pf u lengths
                           | None => ret u
                           end h = Ok (u', h')
                           /\ shape3 b t (Z.to_nat s1) u').
  { intros u Su h. destruct (lf0_postfilter self) as [pf|].
    - now apply (Hlf0 pf eq_refl).
    - exists u, h. now split. }
  destruct Hrest as [->|(s4 & s5 & ->)];
    cbn [split_streams_from unpack_streams length]; cbn [Z.add] in *.
  - destruct (offset_stage_returns (mgc_offset self) lengths g Hmgc S0)
      as (mgc' & g1 & Hm & Sm).
    destruct (offset_stage_returns (bap_offset self) lengths g1 Hbap S3)
      as (bap' & g2 & Hb & Sb).
    destruct (Hlf _ S1 g2) as (lf0' & g3 & Hl & Sl).
    destruct (cat_last2_shape S2 Sb) as (c1 & Hc1 & Sc1).
    destruct (cat_last2_shape Sl Sc1) as (c2 & Hc2 & Sc2).
    destruct (cat_last2_shape Sm Sc2) as (out & Hc3 & So).
    exists out, g3. unfold bind. rewrite Hm, Hb, Hl. unfold lift.
    cbn [cat_last rbind]. rewrite Hc1. cbn [rbind]. rewrite Hc2.
    cbn [rbind]. rewrite Hc3. split; [reflexivity|].
    simpl in Hsum.
    now replace c with (Z.to_nat s0 + (Z.to_nat s1 + (Z.to_nat s2 + Z.to_nat s3)))
      by lia.
  - inversion Hpos4 as [|? ? P4 Hpos5]; subst.
    inversion Hpos5 as [|? ? P5 _]; subst.
    inversion Hw4 as [|? ? ? ? W4 Hw5]; subst.
    inversion Hw5 as [|? ? ? ? W5 _]; subst.
    pose proof (Hshape _ _ P4 W4 (proj1 (Hbt _ _)) (proj2 (Hbt _ _))) as S4.
    pose proof (Hshape _ _ P5 W5 (proj1 (Hbt _ _)) (proj2 (Hbt _ _))) as S5.
    destruct (offset_stage_returns (mgc_offset self) lengths g Hmgc S0)
      as (mgc' & g1 & Hm & Sm).
    destruct (offset_stage_returns (bap_offset self) lengths g1 Hbap S3)
      as (bap' & g2 & Hb & Sb).
    destruct (Hlf _ S1 g2) as (lf0' & g3 & Hl & Sl).
    destruct (cat_last2_shape S4 S5) as (c0 & Hc0 & Sc0).
    destruct (cat_last2_shape Sb Sc0) as (c00 & Hc00 & Sc00).
    destruct (cat_last2_shape S2 Sc00) as (c1 & Hc1 & Sc1).
    destruct (cat_last2_shape Sl Sc1) as (c2 & Hc2 & Sc2).
    destruct (cat_last2_shape Sm Sc2) as (out & Hc3 & So).
    exists out, g3. unfold bind. rewrite Hm, Hb, Hl. unfold lift.
    cbn [read_local cat_last rbind]. rewrite Hc0. cbn [rbind].
    rewrite Hc00. cbn [rbind]. rewrite Hc1. cbn [rbind]. rewrite Hc2.
    cbn [rbind]. rewrite Hc3. split; [reflexivity|].
    simpl in Hsum.
    now replace c with (Z.to_nat s0 + (Z.to_nat s1 + (Z.to_nat s2
                          + (Z.to_nat s3 + (Z.to_nat s4 + Z.to_nat s5)))))
      by lia.
Qed.
End OrchestratorReturns.

(** * Concrete instances *)

Lemma shape3_zeros3 (b t c : nat) : shape3 b t c (zeros3 b t c).
Proof.
  unfold zeros3. split; [apply repeat_length|].
  apply Forall_forall. intros m Hm. apply repeat_spec in Hm. subst m.
  split; [apply repeat_length|].
  apply Forall_forall. intros r Hr. apply repeat_spec in Hr. subst r.
  apply repeat_length.
Qed.

(** The stream orchestrator on [example_frame]: the exempt channels 1, 2
    and 6 come out unchanged, channels 3 and 7 are filtered. *)
Example example_orchestrator_run :
  MultistreamPostFilter_forward example_orchestrator example_frame None 0
  = Ok ([[[1; 2; 13; 4; 5; 6; 17]]]%Z, 0).
Proof. reflexivity. Qed.

Lemma offset_channels_pass_through_witness :
  shape3 1 1 7 example_frame /\
  exists mgc bap mgc' lf0' vuv bap',
    cat_last [mgc'; lf0'; vuv; bap'] = Ok [[[1; 2; 13; 4; 5; 6; 17]]]%Z /\
    slice_last3 None (Some 2%Z) mgc' = slice_last3 None (Some 2%Z) mgc /\
    slice_last3 None (Some 1%Z) bap' = slice_last3 None (Some 1%Z) bap.
Proof.
  assert (Hx : shape3 1 1 7 example_frame) by (repeat constructor).
  split; [exact Hx|].
  destruct (@offset_channels_pass_through Z nat example_orchestrator 1 1 7
              example_frame [[[1; 2; 13; 4; 5; 6; 17]]]%Z None 0 0 Hx)
    as (mgc & lf0 & vuv & bap & rest & mgc' & lf0' & bap' & g1
        & Hs & Hcat & Hmgc & Hbap).
  - repeat constructor; discriminate.
  - reflexivity.
  - reflexivity.
  - destruct (Hmgc add_ten eq_refl) as (y & _ & _ & Hm); [cbn; lia|].
    destruct (Hbap add_ten eq_refl) as (y' & g2 & _ & _ & Hb); [cbn; lia|].
    injection Hs as <- <- <- <- <-.
    exists (slice_last3 (Some 0%Z) (Some (0 + 3)%Z) example_frame),
           (slice_last3 (Some (0 + 3 + 1 + 1)%Z) (Some (0 + 3 + 1 + 1 + 2)%Z)
                        example_frame),
           mgc', lf0', 
           (slice_last3 (Some (0 + 3 + 1)%Z) (Some (0 + 3 + 1 + 1)%Z)
                        example_frame), bap'.
    split; [exact Hcat|]. split; [exact Hm | exact Hb].
Defined.

Lemma forward_deterministic_without_noise_witness :
  noise_disabled (Conv1dModel example_conv1d) = true /\
  output (model_forward (G := nat) (Conv1dModel example_conv1d)
                        example_pitch None 0)
  = output (model_forward (G := nat) (Conv1dModel example_conv1d)
                          example_pitch None 7).
Proof.
  split; [reflexivity|].
  apply (@forward_deterministic_without_noise Z nat _ _
           (Conv1dModel example_conv1d) example_pitch None 0 7).
  reflexivity.
Defined.



(** The slip at reach zero: with [kernel_size=1] the "left" band trims the
    raw input to no column at all. *)
Lemma left_band_reach_zero_trims_everything :
  exists self,
    _PadConv2dPostFilter_init ones
      {| ab_in_dim := Some 3%Z; ab_channels := 1; ab_kernel_size := 1;
         ab_init_type := "kaiming_normal"; ab_padding_side := "left" |}
    = Ok self /\
    pb_padding self = 0%Z /\
    trim_raw_input self example_surface = [[[[]; []]]].
Proof. eexists. repeat split. Qed.



(** A modulator on two channels with kernel width three. *)
Lemma noise_modulator_forward_witness :
  exists self,
    SimplifiedTADN_init (ones "") 2 3 = Ok self /\
    shape3 1 2 2 [[[1; 2]; [3; 4]]]%Z /\
    exists gamma : @tensor3 Z,
      Conv1d_forward (conv_gamma self) [[[5; 6]; [7; 8]]]%Z = Ok gamma
      /\ shape3 1 2 2 gamma
      /\ SimplifiedTADN_forward self [[[1; 2]; [3; 4]]]%Z [[[5; 6]; [7; 8]]]%Z
         = Ok (zip_with (zip_with (zip_with fmul)) [[[1; 2]; [3; 4]]]%Z
                        (sigmoid3 gamma)).
Proof.
  eexists. split; [reflexivity|].
  assert (Hz : shape3 1 2 2 [[[1; 2]; [3; 4]]]%Z) by (repeat constructor).
  assert (Hc : shape3 1 2 2 [[[5; 6]; [7; 8]]]%Z) by (repeat constructor).
  split; [exact Hz|].
  destruct (@noise_modulator_forward Z _ (ones "") 2 3 _ 1 1 2
              [[[1; 2]; [3; 4]]]%Z [[[5; 6]; [7; 8]]]%Z eq_refl eq_refl)
    as (gamma & Hg & _ & Sg & Hf & _); try assumption; [lia|].
  exists gamma. split; [exact Hg|]. split; [exact Sg | exact Hf].
Defined.

(** C6, the claim as stated fails: inputs of identical shape (1, 1, 0),
    with an empty time axis, are rejected by the convolution, whose padded
    input of 6 samples is shorter than the kernel of 7. *)
Lemma modulator_rejects_empty_time_axis :
  exists self,
    SimplifiedTADN_init (ones "") 1 7 = Ok self /\
    shape3 1 1 0 ([[[]]] : @tensor3 Z) /\
    exists msg,
      SimplifiedTADN_forward self [[[]]] [[[]]] = Raise (RuntimeError msg).
Proof.
  eexists. split; [reflexivity|]. split; [repeat constructor|].
  eexists. reflexivity.
Qed.



(** * Further properties of the post-filters *)

(** ** Stream counts of the stream orchestrator *)

Section StreamCounts.
Context {F G : Type}.

Local Abbreviation tensor3 := (@tensor3 F).

Lemma unpack_streams_count (streams : list tensor3) :
  length streams <> 4 -> length streams <> 5 -> length streams <> 6 ->
  unpack_streams streams = Raise (ValueError "Invalid number of streams").
Proof.
  intros H4 H5 H6.
  destruct streams as [|? [|? [|? [|? [|? [|? [|? ?]]]]]]];
    simpl in *; try lia; reflexivity.
Qed.

(** X1.  A partition with any number of entries other than 4, 5 or 6 is
    rejected with [ValueError("Invalid number of streams")], whatever the
    input and the generator state, and before any filter is called. *)
Theorem forward_rejects_stream_count (self : @MultistreamPostFilter F G)
    (x : tensor3) (lengths : option (list Z)) (g : G) :
  length (stream_sizes self) <> 4 ->
  length (stream_sizes self) <> 5 ->
  length (stream_sizes self) <> 6 ->
  MultistreamPostFilter_forward self x lengths g
  = Raise (ValueError "Invalid number of streams").
Proof.
  intros H4 H5 H6. unfold MultistreamPostFilter_forward.
  rewrite unpack_streams_count by (now rewrite length_split_streams).
  reflexivity.
Qed.

(** X2.  With a five-entry partition the forward pass never returns,
    whatever filters are assigned: either a filter raises, or the final
    concatenation reads the unbound local [vib]. *)
Theorem forward_five_streams_never_returns (self : @MultistreamPostFilter F G)
    (x : tensor3) (lengths : option (list Z)) (g : G) :
  length (stream_sizes self) = 5 ->
  exists e, MultistreamPostFilter_forward self x lengths g = Raise e.
Proof.
  intros H5.
  destruct (MultistreamPostFilter_forward self x lengths g) as [[out g']|e]
    eqn:E; [exfalso | now exists e].
  rewrite forward_stages in E. rewrite length_split_streams, H5 in E.
  destruct (unpack_streams (split_streams x (stream_sizes self)))
    as [[[[[[mgc lf0] vuv] bap] vib] vibf]|e] eqn:Hu;
    [|apply lift_Ok_inv in E; destruct E; discriminate].
  apply bind_Ok_inv in E. destruct E as (mgc' & g1 & _ & E).
  apply bind_Ok_inv in E. destruct E as (bap' & g2 & _ & E).
  apply bind_Ok_inv in E. destruct E as (lf0' & g3 & _ & E).
  apply lift_Ok_inv in E. destruct E as [E _].
  apply unpack_streams_inv in Hu.
  pose proof (length_split_streams x (stream_sizes self)) as Hl.
  destruct Hu as [(Hs & _)|[(v & Hs & ->)|(v & w & Hs & _)]];
    rewrite Hs in Hl; simpl in Hl; try lia.
  discriminate.
Qed.
End StreamCounts.

(** ** Streams that no filter touches *)


Section UnfilteredStreams.
Context {F G : Type}.

Local Abbreviation tensor3 := (@tensor3 F).








End UnfilteredStreams.

(** ** How much of the generator a forward pass consumes *)

Section GeneratorConsumption.
Context {F G : Type} {SF : Scalar F} {RS : RandomSource G F}.

Local Abbreviation tensor3 := (@tensor3 F).

Lemma advance_add (n m : nat) (g : G) :
  advance (n + m) g = advance m (advance n g).
Proof.
  revert g. induction n as [|n IH]; intro g; simpl; [reflexivity | apply IH].
Qed.

Lemma draw_n_advance {A} (draw : G -> A * G) (m n : nat) (g : G) :
  (forall h, snd (draw h) = advance m h) ->
  snd (draw_n draw n g) = advance (n * m) g.
Proof.
  intro Hd. revert g. induction n as [|n IH]; intro g; simpl;
    [reflexivity|].
  specialize (Hd g). destruct (draw g) as [a g1]. simpl in Hd.
  specialize (IH g1). destruct (draw_n draw n g1) as [l g2]. simpl in *.
  now rewrite advance_add, <- Hd.
Qed.

Lemma draw_like_advance {A B} (draw : A -> G -> B * G) (P : A -> Prop)
    (m : nat) (l : list A) (g : G) :
  Forall P l ->
  (forall a h, P a -> snd (draw a h) = advance m h) ->
  snd (draw_like draw l g) = advance (length l * m) g.
Proof.
  intros Hl Hd. revert g.
  induction Hl as [|a l Ha _ IH]; intro g; simpl; [reflexivity|].
  specialize (Hd a g Ha). destruct (draw a g) as [b g1]. simpl in Hd.
  specialize (IH g1). destruct (draw_like draw l g1) as [bs g2]. simpl in *.
  now rewrite advance_add, <- Hd.
Qed.

Lemma randn_like3_advance (b h w : nat) (x : tensor3) (g : G) :
  shape3 b h w x -> snd (randn_like3 x g) = advance (b * (h * w)) g.
Proof.
  intros [Hb Hx]. unfold randn_like3. rewrite <- Hb.
  apply draw_like_advance with (P := shape2 h w); [exact Hx|].
  intros m g1 [Hh Hm]. rewrite <- Hh.
  apply draw_like_advance with (P := fun r : list F => length r = w);
    [exact Hm|].
  intros r g2 Hr. rewrite <- Hr.
  replace (advance (length r) g2) with (advance (length r * 1) g2)
    by (f_equal; lia).
  apply draw_like_advance with (P := fun _ : F => True).
  - apply Forall_forall. intros; exact I.
  - intros _ g3 _. reflexivity.
Qed.

Lemma randn3_advance (b t c : nat) (g : G) :
  snd (randn3 (F := F) b t c g) = advance (b * (t * c)) g.
Proof.
  unfold randn3. apply draw_n_advance. intro g1.
  apply draw_n_advance. intro g2.
  replace (advance c g2) with (advance (c * 1) g2) by (f_equal; lia).
  apply draw_n_advance. reflexivity.
Qed.

Lemma sample_Ok_inv {A} (draw : G -> A * G) (g : G) (a : A) (g' : G) :
  sample draw g = Ok (a, g') -> a = fst (draw g) /\ g' = snd (draw g).
Proof.
  unfold sample. intro H. inversion H as [E]. now rewrite E.
Qed.

(** The number of entries of [x.transpose(1, 2)] is that of [x]. *)
Lemma randn_like_transposed_advance (b t c : nat) (x : tensor3) (g : G) :
  shape3 b t c x ->
  snd (randn_like3 (transpose12 x) g) = advance (b * t * c) g.
Proof.
  intro Hx. destruct t as [|t].
  - rewrite (@randn_like3_advance b 0 0).
    + now rewrite !Nat.mul_0_r.
    + eapply shape3_map; [exact Hx|]. intros m [Hm _].
      destruct m; [|discriminate]. split; [reflexivity | constructor].
  - rewrite (randn_like3_advance g (transpose12_shape Hx ltac:(lia))).
    f_equal. lia.
Qed.

(** X5.  [Conv1dPostFilter.forward] draws one value per input entry
    when noise injection is on, and leaves the generator alone when it
    is off. *)
Theorem Conv1dPostFilter_forward_draws (self : @Conv1dPostFilter F)
    (b t c : nat) (x out : tensor3) (lengths : option (list Z)) (g g' : G) :
  shape3 b t c x ->
  Conv1dPostFilter_forward self x lengths g = Ok (out, g') ->
  g' = advance (if p1_use_noise self then b * t * c else 0) g.
Proof.
  intros Hx H. unfold Conv1dPostFilter_forward in H.
  apply bind_Ok_inv in H. destruct H as (y & g1 & Hy & H).
  apply lift_Ok_inv in H. destruct H as [_ ->].
  destruct (p1_use_noise self).
  - apply bind_Ok_inv in Hy. destruct Hy as (z & g2 & Hz & Hy).
    apply sample_Ok_inv in Hz. destruct Hz as [_ ->].
    apply bind_Ok_inv in Hy. destruct Hy as (z' & g3 & Hz' & Hy).
    apply lift_Ok_inv in Hy. destruct Hy as [_ ->].
    rewrite <- (randn_like_transposed_advance g Hx).
    destruct (p1_tadn self) as [tadn|].
    + apply lift_Ok_inv in Hz'. now destruct Hz'.
    + unfold ret in Hz'. now inversion Hz'.
  - apply lift_Ok_inv in Hy. now destruct Hy.
Qed.

(** X6.  [Conv2dPostFilter.forward] draws its noise field before it
    looks at [use_noise]: a returning pass has consumed one value per
    input entry for bin-wise noise and one value per frame for
    frame-wise noise, also when noise injection is off. *)
Theorem Conv2dPostFilter_forward_draws (self : @Conv2dPostFilter F)
    (b t c : nat) (x out : tensor3) (lengths : option (list Z)) (g g' : G) :
  shape3 b t c x ->
  Conv2dPostFilter_forward self x lengths g = Ok (out, g') ->
  g' = advance (if String.eqb (p2_noise_type self) "bin_wise" then b * t * c
                else if String.eqb (p2_noise_type self) "frame_wise"
                     then b * t
                     else 0) g.
Proof.
  intros Hx H. unfold Conv2dPostFilter_forward in H.
  apply bind_Ok_inv in H. destruct H as (z & g1 & Hz & H).
  apply bind_Ok_inv in H. destruct H as (z' & g2 & Hz' & H).
  apply lift_Ok_inv in H. destruct H as [_ ->].
  assert (g2 = g1) as ->.
  { destruct (p2_use_noise self); [|unfold ret in Hz'; now inversion Hz'].
    destruct (p2_tadn self).
    - apply lift_Ok_inv in Hz'. now destruct Hz'.
    - unfold ret in Hz'. now inversion Hz'. }
  clear Hz'.
  destruct (String.eqb (p2_noise_type self) "bin_wise").
  - apply bind_Ok_inv in Hz. destruct Hz as (z0 & g3 & Hz0 & Hz).
    apply sample_Ok_inv in Hz0. destruct Hz0 as [_ ->].
    unfold ret in Hz. inversion Hz; subst.
    unfold randn_like4.
    replace (b * t * c) with (length (unsqueeze1 x) * (1 * (t * c))).
    2:{ unfold unsqueeze1. rewrite length_map, (proj1 Hx). lia. }
    apply draw_like_advance with (P := shape3 1 t c).
    + apply (shape4_unsqueeze1 Hx).
    + intros m h Hm. apply (randn_like3_advance h Hm).
  - destruct (String.eqb (p2_noise_type self) "frame_wise").
    + apply bind_Ok_inv in Hz. destruct Hz as (z0 & g3 & Hz0 & Hz).
      apply sample_Ok_inv in Hz0. destruct Hz0 as [_ ->].
      assert (g1 = snd (randn4 (F := F) (length (unsqueeze1 x)) 1
                               (height3 (hd [] (unsqueeze1 x))) 1 g))
        as ->.
      { destruct (p2_fc self).
        - apply bind_Ok_inv in Hz. destruct Hz as (z1 & g4 & Hz1 & Hz).
          apply lift_Ok_inv in Hz1. destruct Hz1 as [_ ->].
          unfold ret in Hz. now inversion Hz.
        - apply lift_Ok_inv in Hz. destruct Hz; discriminate. }
      unfold randn4. rewrite (@draw_n_advance _ (randn3 1 _ 1) _ _ g
                                (fun h => randn3_advance 1 _ 1 h)).
      unfold unsqueeze1. rewrite length_map, (proj1 Hx).
      destruct Hx as [Hb Hx]. destruct x as [|m x].
      * simpl in Hb. subst b. reflexivity.
      * inversion Hx as [|? ? [Hm _] _]; subst. simpl.
        unfold height3. simpl. f_equal. lia.
    + unfold ret in Hz. now inversion Hz.
Qed.

(** X7.  [MultistreamConv2dPostFilter.forward] draws one value per
    frame, [torch.randn(B, T, 1)], whatever the number of channels. *)
Theorem MultistreamConv2dPostFilter_forward_draws
    (self : @MultistreamConv2dPostFilter F) (b t c : nat) (x out : tensor3)
    (lengths : option (list Z)) (g g' : G) :
  shape3 b t c x ->
  MultistreamConv2dPostFilter_forward self x lengths g = Ok (out, g') ->
  g' = advance (b * t) g.
Proof.
  intros Hx H. unfold MultistreamConv2dPostFilter_forward in H.
  apply bind_Ok_inv in H. destruct H as (u & g1 & Hu & H).
  apply lift_Ok_inv in Hu. destruct Hu as [_ ->].
  apply bind_Ok_inv in H. destruct H as (z & g2 & Hz & H).
  apply sample_Ok_inv in Hz. destruct Hz as [_ ->].
  apply bind_Ok_inv in H. destruct H as (o1 & g3 & H1 & H).
  apply lift_Ok_inv in H1. destruct H1 as [_ ->].
  apply bind_Ok_inv in H. destruct H as (o2 & g4 & H2 & H).
  apply lift_Ok_inv in H2. destruct H2 as [_ ->].
  apply bind_Ok_inv in H. destruct H as (o3 & g5 & H3 & H).
  apply lift_Ok_inv in H3. destruct H3 as [_ ->].
  apply lift_Ok_inv in H. destruct H as [_ ->].
  rewrite randn3_advance. destruct Hx as [Hb Hx]. rewrite Hb.
  destruct x as [|m x].
  - simpl in Hb. subst b. reflexivity.
  - inversion Hx as [|? ? [Hm _] _]; subst. unfold height3. simpl hd.
    f_equal. lia.
Qed.
End GeneratorConsumption.

(** ** The width check of the band orchestrator *)

Section BandOrchestratorWidth.
Context {F G : Type} {SF : Scalar F} {RS : RandomSource G F}.

(** X8.  [MultistreamConv2dPostFilter.forward] rejects every non-empty
    input whose channel axis is not [sum(stream_sizes)] wide with a bare
    [AssertionError], before any noise is drawn and before any band
    filter runs. *)
Theorem MultistreamConv2dPostFilter_forward_checks_width
    (self : @MultistreamConv2dPostFilter F) (b t c : nat) (x : @tensor3 F)
    (lengths : option (list Z)) (g : G) :
  shape3 b t c x -> 0 < b -> 0 < t ->
  Z.of_nat c <> py_sum (pm_stream_sizes self) ->
  MultistreamConv2dPostFilter_forward self x lengths g
  = Raise (AssertionError "").
Proof.
  intros [Hb Hx] Hb0 Ht0 Hc. unfold MultistreamConv2dPostFilter_forward.
  assert (E : last_axis_is (py_sum (pm_stream_sizes self)) x = false).
  { destruct x as [|m x]; [simpl in Hb; lia|].
    inversion Hx as [|? ? [Hm Hr] _]; subst.
    destruct m as [|r m]; [simpl in Ht0; lia|].
    inversion Hr as [|? ? Hlen _]; subst.
    unfold last_axis_is. cbn [forallb].
    destruct (Z.eqb_spec (Z.of_nat (length r)) (py_sum (pm_stream_sizes self)));
      [contradiction | reflexivity]. }
  unfold bind. rewrite E. reflexivity.
Qed.
End BandOrchestratorWidth.

(** ** The two-dimensional residual filter *)

Section Conv2dBuilt.
Context {F : Type} {SF : Scalar F}.
Variable init_weights : string -> params F.

Lemma Conv2dPostFilter_init_built (a : Conv2dPostFilter_args)
    (self : @Conv2dPostFilter F) (mode : padding_mode) (kh kw : Z) :
  Conv2dPostFilter_init init_weights a = Ok self ->
  parse_padding_mode (a2_padding_mode a) = Ok mode ->
  a2_kernel_size a = [kh; kw] ->
  Conv2dPostFilter_built self a mode kh kw (init_weights (a2_init_type a)).
Proof.
  unfold Conv2dPostFilter_init. intros H Hmode Hks. rewrite Hks in H.
  cbn [length Nat.eqb py_assert rbind nth fst snd] in H.
  set (theta := init_weights (a2_init_type a)) in *.
  destruct (Conv2d_init (sub_params theta "conv1.0") _ _ _ _ _)
    as [c1|] eqn:H1; [|discriminate]. cbn [rbind] in H.
  destruct (Conv2d_init (sub_params theta "conv2.0") _ _ _ _ _)
    as [c2|] eqn:H2; [|discriminate]. cbn [rbind] in H.
  destruct (Conv2d_init (sub_params theta "conv3.0") _ _ _ _ _)
    as [c3|] eqn:H3; [|discriminate]. cbn [rbind] in H.
  destruct (Conv2d_init (sub_params theta "conv4") _ _ _ _ _)
    as [c4|] eqn:H4; [|discriminate]. cbn [rbind] in H.
  destruct (Conv2d_init_is _ _ _ _ _ _ H1 Hmode) as (I1 & _ & HC & Hkh & Hkw).
  destruct (Conv2d_init_is _ _ _ _ _ _ H2 Hmode) as (I2 & _).
  destruct (Conv2d_init_is _ _ _ _ _ _ H3 Hmode) as (I3 & _).
  destruct (Conv2d_init_is _ _ _ _ _ _ H4 Hmode) as (I4 & _).
  cbn [fst snd] in *.
  match type of H with
  | rbind ?r _ = _ => destruct r as [td|] eqn:Htd; [|discriminate]
  end.
  cbn [rbind] in H.
  match type of H with
  | rbind ?r _ = _ => destruct r as [fc|] eqn:Hfc; [|discriminate]
  end.
  cbn [rbind] in H. inversion H; subst self. clear H.
  constructor; cbn [p2_use_noise p2_noise_type p2_residual p2_scale
                    p2_conv1 p2_conv2 p2_conv3 p2_conv4 p2_tadn p2_fc];
    try assumption; try reflexivity.
  - now repeat split.
  - destruct (a2_use_noise a); exact I1.
  - destruct (a2_use_tadn a); [|now inversion Htd].
    destruct (a2_in_dim a) as [in_dim|]; [|discriminate].
    cbn [is_some py_assert rbind] in Htd.
    destruct (String.eqb_spec (a2_noise_type a) "bin_wise"); [|discriminate].
    cbn [py_assert rbind] in Htd.
    destruct (SimplifiedTADN_init (sub_params theta "tadn") in_dim 7)
      as [t|] eqn:Ht; [|discriminate].
    cbn [rbind] in Htd. inversion Htd; subst td.
    split; [assumption|]. now exists in_dim, t.
  - destruct (String.eqb_spec (a2_noise_type a) "frame_wise") as [E|_].
    + left. split; [exact E|].
      destruct (Linear_init (sub_params theta "fc") 1 (a2_in_dim a))
        as [l|] eqn:Hl; [|discriminate].
      cbn [rbind] in Hfc. inversion Hfc; subst fc.
      apply Linear_init_inv in Hl.
      destruct Hl as (out & Ho & _ & Hout & Li & Lo).
      exists out, l. now repeat split.
    + destruct (String.eqb_spec (a2_noise_type a) "bin_wise") as [E|_];
        [|discriminate].
      right. inversion Hfc. now split.
Qed.
End Conv2dBuilt.

Section Conv2dTheorem.
Context {F G : Type} {SF : Scalar F} {RS : RandomSource G F}.
Variable init_weights : string -> params F.

Local Abbreviation tensor3 := (@tensor3 F).
Local Abbreviation tensor4 := (@tensor4 F).



Lemma shape4_scale (b c h w : nat) (x : tensor4) (s : F) :
  shape4 b c h w x -> shape4 b c h w (scale4 x s).
Proof.
  intro H. eapply shape4_map; [exact H|]. intros m Hm.
  now apply shape3_scale.
Qed.

(** [torch.randn(B, 1, T, 1)] for the sizes read off an input of shape
    (B, 1, T, C). *)
Lemma frame_noise_shape (b t c : nat) (x4 : tensor4) (g : G) :
  shape4 b 1 t c x4 ->
  shape4 b 1 t 1 (fst (randn4 (length x4) 1 (height3 (hd [] x4)) 1 g)).
Proof.
  intros [Hb Hx]. unfold randn4. split.
  - rewrite <- Hb. apply length_draw_n.
  - destruct x4 as [|m x4].
    + simpl. constructor.
    + inversion Hx as [|? ? [Hc Hm] _]; subst.
      destruct m as [|m0 [|? ?]]; try discriminate.
      inversion Hm as [|? ? [Ht _] _]; subst.
      apply draw_n_Forall. intro g1. cbn [hd height3].
      apply randn3_shape.
Qed.


End Conv2dTheorem.

(** ** The one-dimensional filter takes a single channel *)

Section Conv1dChannels.
Context {F G : Type} {SF : Scalar F} {RS : RandomSource G F}.
Variable init_weights : string -> params F.

Local Abbreviation tensor3 := (@tensor3 F).

(** A convolution rejects a non-empty batch whose channel count is not
    the one it was built for. *)
Lemma Conv1d_forward_channel_mismatch (l : @Conv1d F) (b c t : nat)
    (x : tensor3) :
  shape3 b c t x -> 1 <= b -> c <> c1_in l ->
  exists msg, Conv1d_forward l x = Raise (RuntimeError msg).
Proof.
  intros [Hb Hx] Hb1 Hc. destruct x as [|item x]; [simpl in Hb; lia|].
  inversion Hx as [|? ? [Hlen _] _]; subst.
  unfold Conv1d_forward. cbn [mapR]. unfold Conv1d_item.
  destruct (Nat.eqb_spec (length item) (c1_in l)); [contradiction|].
  cbn [negb]. eexists. reflexivity.
Qed.

Lemma Conv1dPostFilter_init_mode (a : Conv1dPostFilter_args)
    (self : @Conv1dPostFilter F) :
  Conv1dPostFilter_init init_weights a = Ok self ->
  exists mode, parse_padding_mode (a1_padding_mode a) = Ok mode.
Proof.
  unfold Conv1dPostFilter_init. intro H.
  destruct (Conv1d_init _ _ _ _ _ _ (a1_padding_mode a)) as [c1|] eqn:H1;
    [|discriminate].
  apply Conv1d_init_inv in H1.
  destruct H1 as (_ & _ & _ & _ & _ & _ & _ & _ & _ & _ & _ & Hp).
  now exists (c1_mode c1).
Qed.

(** X10.  A constructed [Conv1dPostFilter] accepts single-channel
    input only: on a non-empty input of shape (B, T, C) with [C <> 1]
    the forward pass raises the channel-count [RuntimeError] of a
    convolution, with or without noise injection and modulation. *)
Theorem Conv1dPostFilter_forward_needs_one_channel
    (a : Conv1dPostFilter_args) (self : @Conv1dPostFilter F)
    (b t c : nat) (x : tensor3) (lengths : option (list Z)) (g : G) :
  Conv1dPostFilter_init init_weights a = Ok self ->
  shape3 b t c x -> 1 <= b -> 1 <= t -> c <> 1 ->
  exists msg,
    Conv1dPostFilter_forward self x lengths g = Raise (RuntimeError msg).
Proof.
  intros Hinit Hx Hb Ht Hc.
  destruct (Conv1dPostFilter_init_mode _ Hinit) as (mode & Hmode).
  pose proof (Conv1dPostFilter_init_built _ _ Hinit Hmode) as B.
  pose proof (transpose12_shape Hx ltac:(lia)) as HxT.
  unfold Conv1dPostFilter_forward.
  set (xT := transpose12 x) in *.
  pose proof (built1_conv1 B) as (I1 & _).
  rewrite (built1_use_noise B).
  destruct (a1_use_noise a) eqn:Hn.
  - (* noise on: the first stage is built for two channels *)
    pose proof (shape3_scale (p1_scale self) (randn_like3_shape g HxT)) as Sz.
    assert (Hcat : forall z, shape3 b c t z ->
              exists msg,
                rbind (cat_channels3 xT z)
                      (fun xz => Conv1d_relu (p1_conv1 self) xz)
                = Raise (RuntimeError msg)).
    { intros z Hz. destruct (cat_channels3_shape HxT Hz) as (xz & -> & Sxz).
      cbn [rbind]. unfold Conv1d_relu.
      destruct (@Conv1d_forward_channel_mismatch (p1_conv1 self) b (c + c) t
                  xz Sxz Hb) as (msg & ->); [rewrite I1; lia|].
      now exists msg. }
    unfold bind at 1. unfold bind at 1. unfold sample.
    destruct (randn_like3 xT g) as [z0 g1]. cbn [fst] in Sz.
    pose proof (built1_tadn B) as Ht'.
    destruct (a1_use_tadn a).
    + destruct Ht' as (_ & in_dim & tadn & _ & -> & Hti).
      apply SimplifiedTADN_init_built in Hti.
      destruct Hti as (Hd & _ & Hl).
      destruct (Nat.eq_dec c (Z.to_nat in_dim)) as [E|E].
      * rewrite <- E in Hl.
        destruct (@modulator_built_forward F SF tadn c 3 b t
                    (scale3 z0 (p1_scale self)) xT Hl)
          as (gamma & _ & _ & _ & Hf & Sf); try assumption; try lia.
        unfold bind at 1. unfold lift at 1. rewrite Hf.
        destruct (Hcat _ Sf) as (msg & Hmsg).
        unfold lift. rewrite Hmsg. now exists msg.
      * unfold bind at 1. unfold lift at 1. unfold SimplifiedTADN_forward.
        destruct (@Conv1d_forward_channel_mismatch (conv_gamma tadn) b c t
                    xT HxT Hb) as (msg & ->).
        { destruct Hl as (I & _). now rewrite I. }
        now exists msg.
    + rewrite Ht'. unfold bind at 1. unfold ret.
      destruct (Hcat _ Sz) as (msg & Hmsg).
      unfold lift. rewrite Hmsg. now exists msg.
  - (* noise off: the first stage is built for one channel *)
    unfold bind, lift, Conv1d_relu.
    destruct (@Conv1d_forward_channel_mismatch (p1_conv1 self) b c t xT
                HxT Hb) as (msg & ->); [now rewrite I1|].
    now exists msg.
Qed.
End Conv1dChannels.

(** ** Band filters with reach zero *)

Section ReachZero.
Context {F G : Type} {SF : Scalar F} {RS : RandomSource G F}.
Variable init_weights : string -> params F.

Local Abbreviation tensor3 := (@tensor3 F).
Local Abbreviation tensor4 := (@tensor4 F).

(** [torch.cat] along the channel axis rejects tensors whose bin axes
    differ. *)
Lemma cat_channels4_width_mismatch (b c2 t w1 w2 : nat) (xs y : tensor4) :
  shape4 b 1 t w1 xs -> shape4 b c2 t w2 y ->
  1 <= b -> 1 <= t -> 1 <= c2 -> w1 <> w2 ->
  cat_channels4 xs y = Raise size_mismatch.
Proof.
  intros [Hbx Hxs] [Hby Hy] Hb Ht Hc Hw. unfold cat_channels4.
  destruct xs as [|ca xs]; [simpl in Hbx; lia|].
  destruct y as [|cb y]; [simpl in Hby; lia|].
  pose proof (Forall_inv Hxs) as [Hca Sca].
  pose proof (Forall_inv Hy) as [Hcb Scb].
  destruct ca as [|m0 [|? ?]]; try discriminate.
  destruct cb as [|n0 cb]; [simpl in Hcb; lia|].
  pose proof (Forall_inv Sca) as [Hm0 Wm0].
  pose proof (Forall_inv Scb) as [Hn0 Wn0].
  destruct m0 as [|r0 m0]; [simpl in Hm0; lia|].
  destruct n0 as [|s0 n0]; [simpl in Hn0; lia|].
  pose proof (Forall_inv Wm0) as Hr0.
  pose proof (Forall_inv Wn0) as Hs0.
  cbv beta in Hr0, Hs0.
  cbn [zipR app same_dims forallb].
  unfold dims_eqb at 1. unfold dims2, width2. cbn [hd fst snd].
  rewrite Hr0, Hs0.
  destruct (Nat.eqb_spec w2 w1) as [E|_]; [lia|].
  now rewrite Bool.andb_false_r.
Qed.

Lemma trim_reach_zero_shape (self : @_PadConv2dPostFilter F) (side : string)
    (in_dim C : Z) (b t w : nat) (x : tensor4) :
  band_filter_built self side in_dim C 1 ->
  side = "left"%string \/ side = "none"%string ->
  shape4 b 1 t w x ->
  shape4 b 1 t 0 (trim_raw_input self x).
Proof.
  intros B Hside Hx. unfold trim_raw_input.
  rewrite (built_padding B), (built_side B).
  change ((1 - 1) / 2)%Z with 0%Z. change (- 0)%Z with 0%Z.
  destruct Hside as [-> | ->].
  - change (String.eqb "left" "left") with true. cbv iota.
    unfold slice_last4, slice_last3.
    eapply shape4_rows_map; [exact Hx|]. intros r _.
    unfold py_slice, py_bound. cbn [Z.ltb Z.compare Z.to_nat].
    rewrite Nat.min_0_r. reflexivity.
  - change (String.eqb "none" "left") with false.
    change (String.eqb "none" "none") with true. cbv iota.
    unfold slice_last4, slice_last3.
    eapply shape4_rows_map; [exact Hx|]. intros r _.
    unfold py_slice, py_bound. cbn [Z.ltb Z.compare Z.to_nat].
    rewrite Nat.min_0_r. reflexivity.
Qed.

(** With [kernel_size=1] the reach is zero and [x[..., :-0]] is the
    empty slice: the "left" and "none" band filters lose every bin of
    the raw input after the first stage, and the concatenation with the
    first-stage output fails. *)
Lemma band_reach_zero_raises (self : @_PadConv2dPostFilter F) (side : string)
    (C : Z) (b t win : nat) (x z : tensor3) (lengths : option (list Z)) :
  band_filter_built self side (Z.of_nat win) C 1 ->
  side = "left"%string \/ side = "none"%string ->
  (1 <= C)%Z -> 1 <= win -> 1 <= b -> 1 <= t ->
  shape3 b t win x -> shape3 b t 1 z ->
  _PadConv2dPostFilter_forward self x z lengths = Raise size_mismatch.
Proof.
  intros B Hside HC Hwin Hb Ht Hx Hz.
  destruct (built_fc B) as [Hfi Hfo]. rewrite Nat2Z.id in Hfo.
  pose proof (shape4_unsqueeze1 Hx) as Hx4.
  pose proof (shape4_unsqueeze1 Hz) as Hz4.
  unfold _PadConv2dPostFilter_forward.
  destruct (@Linear_forward4_shape F SF (pb_fc self) b 1 t (unsqueeze1 z))
    as (z' & -> & Hz'); [now rewrite Hfi|]. rewrite Hfo in Hz'.
  cbn [rbind].
  assert (Hpad : forall u, shape4 b 1 t win u ->
            exists pu, ReflectionPad2d_forward (pb_pad self) u = Ok pu
                       /\ shape4 b 1 t win pu).
  { intros u Hu. rewrite (built_pad B).
    change ((1 - 1) / 2)%Z with 0%Z.
    assert (Hlr : fst (side_padding side 0) = 0%Z
                  /\ snd (side_padding side 0) = 0%Z).
    { destruct Hside as [-> | ->]; now split. }
    destruct Hlr as [-> ->].
    destruct (@ReflectionPad2d_forward_shape F SF
                {| pad_left := 0; pad_right := 0;
                   pad_top := 0; pad_bottom := 0 |} b 1 t win u)
      as (pu & Hpu & Spu); try assumption;
      cbn [pad_left pad_right pad_top pad_bottom]; try lia.
    exists pu. split; [exact Hpu|].
    cbn [pad_left pad_right pad_top pad_bottom Z.to_nat Nat.add] in Spu.
    now rewrite !Nat.add_0_r in Spu. }
  destruct (Hpad _ Hx4) as (px & -> & Hpx).
  destruct (Hpad _ Hz') as (pz & -> & Hpz). cbn [rbind].
  destruct (cat_channels4_shape Hpx Hpz) as (xz & -> & Hxz). cbn [rbind].
  destruct (built_conv1 B) as (I1 & O1 & KH1 & KW1 & PH1 & PW1 & M1).
  destruct (@Conv2d_relu_shape F SF (pb_conv1 self) b 2 t win xz)
    as (y1 & -> & Hy1);
    try assumption; rewrite ?PH1, ?PW1, ?M1, ?KH1, ?KW1; try reflexivity;
    try (cbn; lia).
  rewrite PH1, PW1, KH1, KW1, O1 in Hy1.
  change (Z.to_nat 1) with 1 in Hy1. change (Z.to_nat 0) with 0 in Hy1.
  replace (t + 2 * 0 - 1 + 1) with t in Hy1 by lia.
  replace (win + 2 * 0 - 1 + 1) with win in Hy1 by lia.
  cbn [rbind].
  pose proof (trim_reach_zero_shape B Hside Hx4) as Hsyn.
  rewrite (cat_channels4_width_mismatch Hsyn Hy1); try lia.
  reflexivity.
Qed.

(** X11.  A band orchestrator built with [kernel_size=1] cannot run:
    its reach is zero, the low band filter trims the raw input with
    [x[..., :-0]], which is empty, and the forward pass raises the
    size-mismatch [RuntimeError] of [torch.cat] on every non-empty input
    of the configured width. *)
Theorem MultistreamConv2dPostFilter_kernel_one_raises
    (a : MultistreamConv2dPostFilter_args)
    (self : @MultistreamConv2dPostFilter F) (low mid high b t : nat)
    (x : tensor3) (lengths : option (list Z)) (g : G) :
  MultistreamConv2dPostFilter_init init_weights a = Ok self ->
  am_stream_sizes a = [Z.of_nat low; Z.of_nat mid; Z.of_nat high] ->
  am_kernel_size a = 1%Z ->
  (1 <= am_channels a)%Z ->
  1 <= low -> 1 <= b -> 1 <= t ->
  shape3 b t (low + mid + high) x ->
  exists msg,
    MultistreamConv2dPostFilter_forward self x lengths g
    = Raise (RuntimeError msg).
Proof.
  intros Hinit Hsizes Hks HC Hlow Hb Ht Hx.
  destruct (MultistreamConv2dPostFilter_init_built _ _ Hinit Hsizes)
    as (Hpad & Hscale & Hss & Blo & _ & _).
  rewrite Hks in *. change ((1 - 1) / 2)%Z with 0%Z in *.
  rewrite Z.add_0_r in Blo.
  set (z := scale3 (fst (randn3 (length x) (height3 x) 1 g)) (pm_scale self)).
  assert (Sz : shape3 b t 1 z).
  { apply noise_shape; [exact (proj1 Hx)|].
    intro Hb'. now apply (shape3_height Hx). }
  assert (S1 : shape3 b t low
                 (slice_last3 None (Some (Z.of_nat low + 0)%Z) x)).
  { eapply shape3_rows_map; [exact Hx|]. intros r Hr.
    rewrite py_slice_prefix_Z, length_firstn by lia. lia. }
  pose proof (@band_reach_zero_raises _ _ _ b t low _ z None Blo
                (or_introl eq_refl) HC Hlow Hb Ht S1 Sz) as Hraise.
  exists "Sizes of tensors must match"%string.
  unfold MultistreamConv2dPostFilter_forward.
  rewrite Hpad, Hss. cbn [nth firstn].
  replace (py_sum [Z.of_nat low; Z.of_nat mid; Z.of_nat high])
    with (Z.of_nat (low + mid + high)) by (unfold py_sum; cbn; lia).
  rewrite (last_axis_is_shape Hx). cbn [py_assert].
  unfold bind at 1. cbn [lift]. unfold bind at 1. unfold sample.
  destruct (randn3 (length x) (height3 x) 1 g) as [z0 g'] eqn:Ez.
  cbn [fst snd] in *. fold z.
  unfold bind at 1. unfold lift at 1. rewrite Hraise. reflexivity.
Qed.
End ReachZero.

(** ** Variance scaling *)

Lemma py_bound_le (n : nat) (i : Z) : py_bound n i <= n.
Proof.
  unfold py_bound. destruct (Z.ltb_spec i 0); lia.
Qed.

Lemma py_slice_from {A} (o : Z) (l : list A) :
  py_slice (Some o) None l = skipn (py_bound (length l) o) l.
Proof.
  unfold py_slice. apply firstn_all2. rewrite length_skipn. lia.
Qed.

Lemma nth_map_seq {A} (f : nat -> A) (w j : nat) (d : A) :
  j < w -> nth j (map f (seq 0 w)) d = f j.
Proof.
  intro H. rewrite (nth_indep _ d (f 0)) by (now rewrite length_map, length_seq).
  rewrite map_nth, seq_nth by assumption. reflexivity.
Qed.

Lemma nth_skipn {A} (a j : nat) (l : list A) (d : A) :
  nth j (skipn a l) d = nth (a + j) l d.
Proof.
  revert l. induction a as [|a IH]; intro l; [reflexivity|].
  destruct l as [|x l]; [now destruct j | apply IH].
Qed.

Lemma nth_map_lt {A B} (f : A -> B) (l : list A) (i : nat) (dA : A) (dB : B) :
  i < length l -> nth i (map f l) dB = f (nth i l dA).
Proof.
  revert i. induction l as [|x l IH]; intros i H; [simpl in H; lia|].
  destruct i as [|i]; [reflexivity|]. simpl. apply IH. simpl in H. lia.
Qed.

Lemma nth_firstn_before {A} (a j : nat) (l : list A) (d : A) :
  j < a -> nth j (firstn a l) d = nth j l d.
Proof.
  revert j l. induction a as [|a IH]; intros j l H; [lia|].
  destruct l as [|x l]; [reflexivity|].
  destruct j as [|j]; [reflexivity|]. simpl. apply IH. lia.
Qed.

Section VarianceScalingTheorem.
Context {F : Type} {SF : Scalar F} {NP : NumPyOps F}.

Lemma np_broadcast_same (n : nat) : np_broadcast n n = Ok n.
Proof. unfold np_broadcast. now rewrite Nat.eqb_refl. Qed.

Lemma np_get_nth (v : list F) (j : nat) :
  j < length v -> np_get v j = nth j v fzero.
Proof.
  intro H. unfold np_get.
  destruct (Nat.eqb_spec (length v) 1) as [E|_]; [|reflexivity].
  now replace j with 0 by lia.
Qed.

Lemma np_map2_same (k : F -> F -> F) (w : nat) (u v : list F) :
  length u = w -> length v = w ->
  np_map2 k u v
  = Ok (map (fun j => k (nth j u fzero) (nth j v fzero)) (seq 0 w)).
Proof.
  intros Hu Hv. unfold np_map2. rewrite Hu, Hv, np_broadcast_same.
  cbn [rbind]. f_equal. apply map_ext_in. intros j Hj.
  apply in_seq in Hj. now rewrite !np_get_nth by lia.
Qed.

Lemma np_map2_rows_same (k : F -> F -> F) (x : @ndarray2 F) (v : list F) :
  well_formed x -> length v = nd_cols x ->
  np_map2_rows k x v
  = Ok {| nd_cols := nd_cols x;
          nd_rows := map (fun r => map (fun j => k (nth j r fzero)
                                                   (nth j v fzero))
                                       (seq 0 (nd_cols x)))
                         (nd_rows x) |}.
Proof.
  intros Hx Hv. unfold np_map2_rows. rewrite Hv, np_broadcast_same.
  cbn [rbind]. f_equal. f_equal.
  apply map_ext_in. intros r Hr.
  pose proof (proj1 (Forall_forall _ _) Hx r Hr) as Hlen.
  cbv beta in Hlen.
  apply map_ext_in. intros j Hj. apply in_seq in Hj.
  now rewrite !np_get_nth by lia.
Qed.

Lemma well_formed_rows (w : nat) (f : list F -> nat -> F)
    (rows : list (list F)) :
  well_formed {| nd_cols := w;
                 nd_rows := map (fun r => map (f r) (seq 0 w)) rows |}.
Proof.
  unfold well_formed. cbn [nd_cols nd_rows].
  apply Forall_map, Forall_forall. intros r _.
  now rewrite length_map, length_seq.
Qed.

(** The result of [variance_scaling] on well-formed arguments, row by
    row: the leading columns of the row of [feats], then the scaled
    entries. *)
Lemma variance_scaling_closed_form (gv : list F) (feats : @ndarray2 F)
    (offset : Z) :
  well_formed feats ->
  length gv = nd_cols feats ->
  variance_scaling gv feats offset
  = Ok {| nd_cols := nd_cols feats;
          nd_rows :=
            map (fun i =>
                   firstn (py_bound (nd_cols feats) offset)
                          (nth i (nd_rows feats) [])
                   ++ map (fun k =>
                             let j := py_bound (nd_cols feats) offset + k in
                             fadd (fmul (fsqrt (fdiv (nth j gv fzero)
                                                  (np_var (column_of j feats))))
                                        (fsub (entry feats i j)
                                              (np_mean (column_of j feats))))
                                  (np_mean (column_of j feats)))
                          (seq 0 (nd_cols feats
                                  - py_bound (nd_cols feats) offset)))
                (seq 0 (length (nd_rows feats))) |}.
Proof.
  intros Hwf Hgv.
  set (D := nd_cols feats) in *.
  set (a := py_bound D offset).
  assert (Ha : a <= D) by apply py_bound_le.
  assert (Lvar : length (var0 feats) = D)
    by (unfold var0; now rewrite length_map, length_seq).
  assert (Lmu : length (mean0 feats) = D)
    by (unfold mean0; now rewrite length_map, length_seq).
  unfold variance_scaling.
  rewrite !py_slice_from, Hgv, Lvar, Lmu. fold a.
  rewrite (@np_map2_same fdiv (D - a)) by (rewrite length_skipn; lia).
  cbn [rbind].
  assert (Hsl : well_formed (np_cols_from offset feats)).
  { unfold well_formed, np_cols_from. cbn [nd_cols nd_rows]. fold D a.
    apply Forall_map. eapply Forall_impl; [|exact Hwf].
    intros r Hr. cbv beta in *. rewrite py_slice_from, length_skipn, Hr.
    reflexivity. }
  rewrite (@np_map2_rows_same fsub _ _ Hsl)
    by (cbn [np_cols_from nd_cols]; rewrite length_skipn; fold D a; lia).
  cbn [rbind np_cols_from nd_cols nd_rows]. fold D a.
  rewrite map_map.
  rewrite np_map2_rows_same;
    [|apply well_formed_rows
     |cbn [nd_cols]; now rewrite !length_map, length_seq].
  cbn [rbind nd_cols nd_rows]. rewrite map_map.
  rewrite np_map2_rows_same;
    [|apply well_formed_rows
     |cbn [nd_cols]; rewrite length_skipn; lia].
  cbn [rbind nd_cols nd_rows]. rewrite map_map.
  unfold np_assign_cols_from. cbn [nd_cols nd_rows]. fold D a.
  rewrite length_map, !Nat.eqb_refl. cbn [orb andb].
  f_equal. f_equal. apply map_ext_in. intros i Hi. apply in_seq in Hi.
  f_equal. apply map_ext_in. intros k Hk. apply in_seq in Hk.
  assert (Hr : length (nth i (nd_rows feats) []) = D).
  { apply (proj1 (Forall_forall _ _) Hwf). apply nth_In. lia. }
  assert (Hi' : (if Nat.eqb (length (nd_rows feats)) 1 then 0 else i) = i).
  { destruct (Nat.eqb_spec (length (nd_rows feats)) 1); lia. }
  rewrite Hi'.
  rewrite (nth_map_lt _ _ [] []) by lia.
  rewrite np_get_nth by (rewrite length_map, length_seq; lia).
  rewrite !nth_map_seq by lia.
  rewrite (nth_map_lt fsqrt _ fzero fzero)
    by (rewrite length_map, length_seq; lia).
  rewrite !nth_map_seq by lia.
  rewrite !nth_skipn.
  unfold var0, mean0. rewrite !nth_map_seq by lia.
  rewrite py_slice_from, nth_skipn.
  rewrite Hr. fold a. reflexivity.
Qed.

(** X12.  For an array [feats] with [D] columns and a global variance
    [gv] of [D] entries, [variance_scaling] returns an array of the
    shape of [feats].  The columns before [offset] (a negative [offset]
    counts from the last column) are those of [feats]; every other
    entry is [sqrt(gv[j] / var_j) * (feats[i, j] - mean_j) + mean_j]
    for the variance and the mean of its own column. *)
Theorem variance_scaling_entries (gv : list F) (feats : @ndarray2 F)
    (offset : Z) :
  well_formed feats ->
  length gv = nd_cols feats ->
  exists out,
    variance_scaling gv feats offset = Ok out
    /\ nd_cols out = nd_cols feats
    /\ length (nd_rows out) = length (nd_rows feats)
    /\ well_formed out
    /\ forall i j,
         i < length (nd_rows feats) -> j < nd_cols feats ->
         entry out i j
         = if j <? py_bound (nd_cols feats) offset then entry feats i j
           else fadd (fmul (fsqrt (fdiv (nth j gv fzero)
                                        (np_var (column_of j feats))))
                           (fsub (entry feats i j)
                                 (np_mean (column_of j feats))))
                     (np_mean (column_of j feats)).
Proof.
  intros Hwf Hgv.
  rewrite (variance_scaling_closed_form gv offset Hwf Hgv).
  set (D := nd_cols feats) in *.
  set (a := py_bound D offset).
  assert (Ha : a <= D) by apply py_bound_le.
  eexists. split; [reflexivity|]. cbn [nd_cols nd_rows].
  split; [reflexivity|].
  split; [now rewrite length_map, length_seq|].
  split.
  { unfold well_formed. cbn [nd_cols nd_rows].
    apply Forall_map, Forall_forall. intros i Hi. apply in_seq in Hi.
    rewrite length_app, length_map, length_seq, length_firstn.
    assert (Hr : length (nth i (nd_rows feats) []) = D).
    { apply (proj1 (Forall_forall _ _) Hwf). apply nth_In. lia. }
    rewrite Hr. lia. }
  intros i j Hi Hj. unfold entry at 1. cbn [nd_rows].
  rewrite nth_map_seq by assumption.
  assert (Hr : length (nth i (nd_rows feats) []) = D).
  { apply (proj1 (Forall_forall _ _) Hwf). apply nth_In. lia. }
  destruct (Nat.ltb_spec j a) as [Hlt|Hge].
  - rewrite app_nth1 by (rewrite length_firstn; lia).
    unfold entry. apply nth_firstn_before. exact Hlt.
  - rewrite app_nth2 by (rewrite length_firstn; lia).
    rewrite length_firstn, Hr, Nat.min_l by lia.
    rewrite nth_map_seq by lia. cbv zeta.
    replace (a + (j - a)) with j by lia. reflexivity.
Qed.

(** X13.  With an [offset] at or beyond the number of columns there is
    nothing to scale: [variance_scaling] returns [feats] as it is. *)
Theorem variance_scaling_offset_beyond (gv : list F) (feats : @ndarray2 F)
    (offset : Z) :
  well_formed feats ->
  length gv = nd_cols feats ->
  (Z.of_nat (nd_cols feats) <= offset)%Z ->
  variance_scaling gv feats offset = Ok feats.
Proof.
  intros Hwf Hgv Hoff.
  rewrite (variance_scaling_closed_form gv offset Hwf Hgv).
  assert (Ha : py_bound (nd_cols feats) offset = nd_cols feats).
  { clear -Hoff. unfold py_bound. destruct (Z.ltb_spec offset 0); lia. }
  rewrite Ha, Nat.sub_diag. cbn [seq map].
  f_equal. destruct feats as [fc frows]. cbn [nd_cols nd_rows] in *.
  f_equal.
  apply (nth_ext _ _ [] []); [now rewrite length_map, length_seq|].
  intros i Hi. rewrite length_map, length_seq in Hi.
  rewrite nth_map_seq, app_nil_r by assumption.
  apply firstn_all2.
  assert (Hrf : length (nth i frows []) = fc).
  { apply (proj1 (Forall_forall _ _) Hwf). now apply nth_In. }
  lia.
Qed.

(** X14.  A global variance whose trailing part has neither the length
    of the trailing columns of [feats] nor a single entry, next to more
    than one trailing column, is rejected with the broadcasting
    [ValueError] of the division. *)
Theorem variance_scaling_rejects_gv (gv : list F) (feats : @ndarray2 F)
    (offset : nat) :
  length gv <> nd_cols feats ->
  offset + 2 <= length gv ->
  offset + 2 <= nd_cols feats ->
  variance_scaling gv feats (Z.of_nat offset) = Raise broadcast_error.
Proof.
  intros Hne Hg Hd. unfold variance_scaling, np_map2.
  rewrite !py_slice_suffix, !length_skipn.
  unfold var0. rewrite length_map, length_seq.
  unfold np_broadcast.
  destruct (Nat.eqb_spec (length gv - offset) (nd_cols feats - offset));
    [lia|].
  destruct (Nat.eqb_spec (length gv - offset) 1); [lia|].
  destruct (Nat.eqb_spec (nd_cols feats - offset) 1); [lia|].
  reflexivity.
Qed.
End VarianceScalingTheorem.

(** ** The exceptions of the two-dimensional filter *)







Section RuntimeErrors.
Context {F G : Type} {SF : Scalar F} {RS : RandomSource G F}.
Variable init_weights : string -> params F.

Local Abbreviation tensor3 := (@tensor3 F).
Local Abbreviation tensor4 := (@tensor4 F).













Lemma Conv2dPostFilter_init_built_ex (a : Conv2dPostFilter_args)
    (self : @Conv2dPostFilter F) :
  Conv2dPostFilter_init init_weights a = Ok self ->
  exists mode kh kw,
    Conv2dPostFilter_built self a mode kh kw (init_weights (a2_init_type a)).
Proof.
  intro H. pose proof H as H0. unfold Conv2dPostFilter_init in H0.
  destruct (a2_kernel_size a) as [|kh [|kw [|? ?]]] eqn:Hks;
    try discriminate.
  cbn [length Nat.eqb py_assert rbind nth fst snd] in H0.
  destruct (Conv2d_init _ _ _ _ _ (a2_padding_mode a)) as [c1|] eqn:H1;
    [|discriminate].
  apply Conv2d_init_inv in H1.
  destruct H1 as (_ & _ & _ & _ & _ & _ & _ & _ & _ & _ & Hp).
  exists (c2_mode c1), kh, kw.
  now apply Conv2dPostFilter_init_built.
Qed.








End RuntimeErrors.

(** ** Frame-wise noise of the wrong width *)

Section FrameWiseWidth.
Context {F G : Type} {SF : Scalar F} {RS : RandomSource G F}.
Variable init_weights : string -> params F.

Local Abbreviation tensor3 := (@tensor3 F).

(** X18.  A [Conv2dPostFilter] with frame-wise noise and noise
    injection on projects its noise to [in_dim] bins; when [in_dim] is
    not the number of bins of the input, the concatenation of the input
    and the noise fails with the size-mismatch [RuntimeError] of
    [torch.cat]. *)
Theorem Conv2dPostFilter_frame_wise_needs_in_dim (a : Conv2dPostFilter_args)
    (self : @Conv2dPostFilter F) (d : Z) (b t c : nat) (x : tensor3)
    (lengths : option (list Z)) (g : G) :
  Conv2dPostFilter_init init_weights a = Ok self ->
  a2_noise_type a = "frame_wise"%string ->
  a2_use_noise a = true ->
  a2_in_dim a = Some d ->
  d <> Z.of_nat c ->
  shape3 b t c x -> 1 <= b -> 1 <= t ->
  exists msg,
    Conv2dPostFilter_forward self x lengths g = Raise (RuntimeError msg).
Proof.
  intros Hinit Hty Hn Hin Hd Hx Hb Ht.
  destruct (Conv2dPostFilter_init_built_ex _ _ Hinit)
    as (mode & kh & kw & B).
  pose proof (shape4_unsqueeze1 Hx) as Hx4.
  destruct (built2_fc B) as [(_ & in_dim & fc & Hin' & Hpos & Hl & Li & Lo)
                            |(E & _)];
    [|rewrite Hty in E; discriminate].
  rewrite Hin in Hin'. injection Hin' as <-.
  assert (Htd : p2_tadn self = None).
  { pose proof (built2_tadn B) as Ht'.
    destruct (a2_use_tadn a); [|exact Ht'].
    destruct Ht' as (E & _). rewrite Hty in E. discriminate. }
  assert (Sz : shape4 b 1 t (lin_in fc)
                 (scale4 (fst (randn4 (length (unsqueeze1 x)) 1
                                 (height3 (hd [] (unsqueeze1 x))) 1 g))
                         (p2_scale self))).
  { rewrite Li. exact (shape4_scale (p2_scale self)
                         (frame_noise_shape g Hx4)). }
  destruct (Linear_forward4_shape fc Sz) as (z & Hz & Sz').
  rewrite Lo in Sz'.
  exists "Sizes of tensors must match"%string.
  unfold Conv2dPostFilter_forward.
  rewrite (built2_noise_type B), (built2_use_noise B), Hty, Hn, Htd, Hl.
  change (String.eqb "frame_wise" "bin_wise") with false.
  rewrite String.eqb_refl.
  unfold bind, sample, lift, ret.
  destruct (randn4 _ _ _ _ g) as [z0 g1]. cbn [fst] in Hz.
  rewrite Hz. cbn [read_local rbind].
  rewrite (cat_channels4_width_mismatch Hx4 Sz'); try lia.
  reflexivity.
Qed.
End FrameWiseWidth.

(** ** The stream orchestrator without filters *)

Section NoFilters.
Context {F G : Type}.

(** X4.  A stream orchestrator with four or six streams and no filter
    assigned returns its input, whatever the offsets and [lengths]
    are, and leaves the generator alone: splitting into streams and
    concatenating them back is the identity. *)
Theorem forward_without_filters_is_identity
    (self : @MultistreamPostFilter F G) (b t c : nat) (x : @tensor3 F)
    (lengths : option (list Z)) (g : G) :
  mgc_postfilter self = None ->
  bap_postfilter self = None ->
  lf0_postfilter self = None ->
  length (stream_sizes self) = 4 \/ length (stream_sizes self) = 6 ->
  Forall (fun s => (0 <= s)%Z) (stream_sizes self) ->
  fold_right Z.add 0%Z (stream_sizes self) = Z.of_nat c ->
  shape3 b t c x ->
  MultistreamPostFilter_forward self x lengths g = Ok (x, g).
Proof.
  intros Hm Hb Hl Hlen Hpos Hsum Hx.
  destruct self as [mgc bap lf0 sizes mo bo]. cbn in Hm, Hb, Hl. subst.
  cbn [stream_sizes] in *.
  exact (@forward_no_filters_identity F G b t c x sizes mo bo lengths g
           Hx Hlen Hpos Hsum).
Qed.
End NoFilters.

(** * Concrete instances of the further properties *)


Lemma forward_rejects_stream_count_witness :
  MultistreamPostFilter_forward
    (no_filters (F := Z) (G := nat) [3; 4]%Z 2 0) example_frame None 0
  = Raise (ValueError "Invalid number of streams").
Proof.
  apply forward_rejects_stream_count; cbn; lia.
Defined.

Lemma forward_five_streams_never_returns_witness :
  length (stream_sizes example_five_streams) = 5 /\
  exists e,
    MultistreamPostFilter_forward example_five_streams example_frame None 0
    = Raise e.
Proof.
  split; [reflexivity|].
  apply forward_five_streams_never_returns. reflexivity.
Defined.


Lemma forward_without_filters_is_identity_witness :
  shape3 1 1 7 example_frame /\
  MultistreamPostFilter_forward
    (no_filters (G := nat) [3; 1; 1; 2]%Z 2 1) example_frame None 5
  = Ok (example_frame, 5).
Proof.
  assert (Hx : shape3 1 1 7 example_frame) by (repeat constructor).
  split; [exact Hx|].
  apply (@forward_without_filters_is_identity Z nat _ 1 1 7);
    try reflexivity; try exact Hx.
  - now left.
  - repeat constructor; discriminate.
Defined.

(** Noise injection on a pitch stream of two frames takes two draws. *)
Lemma Conv1dPostFilter_forward_draws_witness :
  shape3 1 2 1 example_pitch /\
  exists out g',
    Conv1dPostFilter_forward example_noisy_conv1d example_pitch None 0
    = Ok (out, g')
    /\ g' = 2.
Proof.
  assert (Hx : shape3 1 2 1 example_pitch) by (repeat constructor).
  split; [exact Hx|].
  destruct (Conv1dPostFilter_forward example_noisy_conv1d example_pitch
              None 0) as [[out g']|e] eqn:E;
    [|vm_compute in E; discriminate].
  exists out, g'. split; [reflexivity|].
  exact (@Conv1dPostFilter_forward_draws Z nat _ _ example_noisy_conv1d
           1 2 1 example_pitch out None 0 g' Hx E).
Defined.

(** With noise injection off, the two-dimensional filter still takes one
    draw per entry of [example_bins]. *)
Lemma Conv2dPostFilter_forward_draws_witness :
  exists self,
    Conv2dPostFilter_init ones (example_conv2d_args false "bin_wise" None)
    = Ok self /\
    shape3 1 2 2 example_bins /\
    exists out g',
      Conv2dPostFilter_forward self example_bins None 0 = Ok (out, g')
      /\ g' = 4.
Proof.
  eexists. split; [reflexivity|].
  assert (Hx : shape3 1 2 2 example_bins) by (repeat constructor).
  split; [exact Hx|].
  match goal with
  | |- exists out g', ?f = _ /\ _ =>
      destruct f as [[out g']|e] eqn:E; [|vm_compute in E; discriminate]
  end.
  exists out, g'. split; [reflexivity|].
  exact (@Conv2dPostFilter_forward_draws Z nat _ _ _ 1 2 2 example_bins out
           None 0 g' Hx E).
Defined.

(** Bands (2, 2, 2) with reach one on two frames: two draws. *)
Lemma MultistreamConv2dPostFilter_forward_draws_witness :
  exists self,
    MultistreamConv2dPostFilter_init ones (example_bands_args 3 [2; 2; 2]%Z)
    = Ok self /\
    shape3 1 2 6 (zeros3 1 2 6) /\
    exists out g',
      MultistreamConv2dPostFilter_forward self (zeros3 1 2 6) None 0
      = Ok (out, g')
      /\ g' = 2.
Proof.
  eexists. split; [reflexivity|].
  pose proof (shape3_zeros3 1 2 6) as Hx.
  split; [exact Hx|].
  match goal with
  | |- exists out g', ?f = _ /\ _ =>
      destruct f as [[out g']|e] eqn:E; [|vm_compute in E; discriminate]
  end.
  exists out, g'. split; [reflexivity|].
  exact (@MultistreamConv2dPostFilter_forward_draws Z nat _ _ _ 1 2 6
           (zeros3 1 2 6) out None 0 g' Hx E).
Defined.

Lemma MultistreamConv2dPostFilter_forward_checks_width_witness :
  exists self,
    MultistreamConv2dPostFilter_init ones (example_bands_args 3 [2; 2; 2]%Z)
    = Ok self /\
    shape3 1 2 5 (zeros3 1 2 5) /\
    MultistreamConv2dPostFilter_forward self (zeros3 1 2 5) None 0
    = Raise (AssertionError "").
Proof.
  eexists. split; [reflexivity|].
  pose proof (shape3_zeros3 1 2 5) as Hx.
  split; [exact Hx|].
  apply (@MultistreamConv2dPostFilter_forward_checks_width Z nat _ _ _
           1 2 5); [exact Hx | lia | lia | discriminate].
Defined.


Lemma Conv1dPostFilter_forward_needs_one_channel_witness :
  exists self,
    Conv1dPostFilter_init ones example_conv1d_args = Ok self /\
    shape3 1 2 3 [[[1; 2; 3]; [4; 5; 6]]]%Z /\
    exists msg,
      Conv1dPostFilter_forward self [[[1; 2; 3]; [4; 5; 6]]]%Z None 0
      = Raise (RuntimeError msg).
Proof.
  eexists. split; [reflexivity|].
  assert (Hx : shape3 1 2 3 [[[1; 2; 3]; [4; 5; 6]]]%Z)
    by (repeat constructor).
  split; [exact Hx|].
  apply (@Conv1dPostFilter_forward_needs_one_channel Z nat _ _ ones
           example_conv1d_args _ 1 2 3);
    [reflexivity | exact Hx | lia | lia | lia].
Defined.

Lemma MultistreamConv2dPostFilter_kernel_one_raises_witness :
  exists self,
    MultistreamConv2dPostFilter_init ones (example_bands_args 1 [2; 2; 2]%Z)
    = Ok self /\
    shape3 1 2 6 (zeros3 1 2 6) /\
    exists msg,
      MultistreamConv2dPostFilter_forward self (zeros3 1 2 6) None 0
      = Raise (RuntimeError msg).
Proof.
  eexists. split; [reflexivity|].
  pose proof (shape3_zeros3 1 2 6) as Hx.
  split; [exact Hx|].
  apply (@MultistreamConv2dPostFilter_kernel_one_raises Z nat _ _ ones
           (example_bands_args 1 [2; 2; 2]%Z) _ 2 2 2 1 2);
    try reflexivity; try lia; try exact Hx.
Defined.

(** On [example_feats] with [offset = 2]: the first two columns stay,
    and the last column [4, 7, 10], of mean 7 and variance 6, is
    stretched to variance [24]: [1, 7, 13]. *)
Lemma variance_scaling_entries_witness :
  well_formed example_feats /\
  length example_gv = nd_cols example_feats /\
  exists out,
    variance_scaling example_gv example_feats 2 = Ok out
    /\ nd_rows out = [[1; 2; 1]; [3; 5; 7]; [2; 8; 13]]%Z.
Proof.
  assert (Hwf : well_formed example_feats) by (repeat constructor).
  split; [exact Hwf|]. split; [reflexivity|].
  destruct (@variance_scaling_entries Z _ _ example_gv example_feats 2
              Hwf eq_refl) as (out & Hout & _ & _ & _ & _).
  exists out. split; [exact Hout|].
  vm_compute in Hout. now inversion Hout.
Defined.

Lemma variance_scaling_offset_beyond_witness :
  well_formed example_feats /\
  variance_scaling example_gv example_feats 3 = Ok example_feats.
Proof.
  assert (Hwf : well_formed example_feats) by (repeat constructor).
  split; [exact Hwf|].
  apply variance_scaling_offset_beyond; [exact Hwf | reflexivity | cbn; lia].
Defined.

Lemma variance_scaling_rejects_gv_witness :
  variance_scaling [1; 1; 1; 1; 1]%Z example_feats 0
  = Raise broadcast_error.
Proof.
  apply (@variance_scaling_rejects_gv Z _ _ _ example_feats 0); cbn; lia.
Defined.




Lemma Conv2dPostFilter_frame_wise_needs_in_dim_witness :
  exists self,
    Conv2dPostFilter_init ones
      (example_conv2d_args true "frame_wise" (Some 3%Z)) = Ok self /\
    shape3 1 2 2 example_bins /\
    exists msg,
      Conv2dPostFilter_forward self example_bins None 0
      = Raise (RuntimeError msg).
Proof.
  eexists. split; [reflexivity|].
  assert (Hx : shape3 1 2 2 example_bins) by (repeat constructor).
  split; [exact Hx|].
  apply (@Conv2dPostFilter_frame_wise_needs_in_dim Z nat _ _ ones
           (example_conv2d_args true "frame_wise" (Some 3%Z)) _ 3%Z 1 2 2);
    try reflexivity; try lia; try exact Hx.
Defined.
